(** * cluster-x: a shallow embedding of the queue-driven process supervisor

    The repository holds three successive versions of the class
    [WorkerCreator]:

    - [src/unnamed/part_002]: the queue is drained through a generator, with
      an optional [loop] flag and a list of running workers (module
      [Supervisor] below);
    - [src/src/main.ts], lines 1-185: the queue is always a ring (module
      [RingVariant]);
    - [src/src/main.ts], lines 186-404: no queue at all, only the bounded
      pool of workers (module [PoolVariant]).

    The coordinator is single threaded: every callback of the event loop
    runs to completion before the next one starts.  A callback is therefore
    a function from the state of the coordinator to a completion, a new
    state and the list of the effects it had on the outside world. *)

From Stdlib Require Import ZArith Lia List String Permutation.
From stdpp Require Import base list gmap strings pretty sets.

Local Open Scope string_scope.
Local Open Scope list_scope.
Local Open Scope Z_scope.

(** ** JavaScript values

    The fragment of the values that can reach [errorHandler] or sit in the
    queue: [undefined], [null], booleans, integral numbers, strings,
    functions, and objects.  An object is given by the string its
    conversion to a string yields and by its own enumerable string-keyed
    properties, in enumeration order.  A number is integral; as a
    JavaScript number is a double, the integer [n] of [VNum n] stands for
    the double nearest to it.  Symbols, big integers, fractional numbers
    and objects whose string conversion throws are left out: the
    conversion of each value below to a string returns. *)

#[local] Set Warnings "-register-all".
Inductive value : Type :=
| VUndefined
| VNull
| VBool (b : bool)
| VNum (n : Z)
| VStr (s : string)
| VFun (src : string)
| VObj (repr : string) (entries : list (string * value)).

(** [typeof v] *)
Definition typeof (v : value) : string :=
  match v with
  | VUndefined => "undefined"
  | VNull => "object"
  | VBool _ => "boolean"
  | VNum _ => "number"
  | VStr _ => "string"
  | VFun _ => "function"
  | VObj _ _ => "object"
  end.

(** *** [Number::toString]

    The double nearest to a natural number, ties to the even
    significand of 53 bits. *)
Definition round_double (m : Z) : Z :=
  let b := Z.log2 m in
  if Z.ltb b 53 then m
  else
    let sh := b - 52 in
    let q := Z.shiftr m sh in
    let r := m - Z.shiftl q sh in
    let half := Z.shiftl 1 (sh - 1) in
    let up := Z.ltb half r || (Z.eqb r half && Z.odd q) in
    Z.shiftl (if up then q + 1 else q) sh.

Definition digits (m : Z) : Z := Z.of_nat (String.length (pretty m)).

(** The shortest decimal [s * 10 ^ e] that reads back as the double [x],
    the nearest to [x] when two have that many digits: the search tries
    [k] digits, then [k + 1], and seventeen always suffice. *)
Fixpoint shortest (fuel : nat) (k : Z) (x : Z) : Z * Z :=
  match fuel with
  | O => (x, 0)
  | S fuel' =>
      let e := digits x - k in
      if Z.leb e 0 then (x, 0)
      else
        let p := 10 ^ e in
        let lo := x / p in
        let below := Z.eqb (round_double (lo * p)) x in
        let above := Z.eqb (round_double ((lo + 1) * p)) x in
        let d1 := x - lo * p in
        let d2 := (lo + 1) * p - x in
        if below && above then
          (if Z.ltb d1 d2 || (Z.eqb d1 d2 && Z.even lo) then lo else lo + 1, e)
        else if below then (lo, e)
        else if above then (lo + 1, e)
        else shortest fuel' (k + 1) x
  end.

Fixpoint strip_zeros (fuel : nat) (se : Z * Z) : Z * Z :=
  match fuel with
  | O => se
  | S fuel' =>
      if Z.eqb (se.1 mod 10) 0 then strip_zeros fuel' (se.1 / 10, se.2 + 1) else se
  end.

Definition zeros (e : Z) : string := String.concat "" (replicate (Z.to_nat e) "0").

(** The digits followed by zeros up to twenty-one digits in all, the
    exponent form from there on: [1e+21]. *)
Definition scientific (se : Z * Z) : string :=
  let ds := pretty se.1 in
  let n := digits se.1 + se.2 in
  if Z.leb n 21 then ds +:+ zeros se.2
  else
    String.substring 0 1 ds
    +:+ (if Nat.ltb 1 (String.length ds)
         then "." +:+ String.substring 1 (String.length ds - 1) ds else "")
    +:+ "e+" +:+ pretty (n - 1).

(** Below [2 ^ 53] every integer is a double and is printed digit by
    digit. *)
Definition natural_to_string (m : Z) : string :=
  let x := round_double m in
  if Z.ltb (Z.log2 x) 53 then pretty x
  else if Z.leb (2 ^ 1024) x then "Infinity"
  else scientific (strip_zeros 17 (shortest 17 1 x)).

Definition number_to_string (n : Z) : string :=
  if Z.ltb n 0 then "-" +:+ natural_to_string (- n) else natural_to_string n.

(** The abstract operation ToString, which a template literal applies to
    each substitution, on the values above. *)
Definition to_string (v : value) : string :=
  match v with
  | VUndefined => "undefined"
  | VNull => "null"
  | VBool true => "true"
  | VBool false => "false"
  | VNum n => number_to_string n
  | VStr s => s
  | VFun src => src
  | VObj repr _ => repr
  end.

(** Truthiness, as tested by [if (v)]. *)
Definition truthy (v : value) : bool :=
  match v with
  | VUndefined | VNull => false
  | VBool b => b
  | VNum n => negb (Z.eqb n 0)
  | VStr s => negb (String.eqb s "")
  | VFun _ | VObj _ _ => true
  end.

(** The [TypeError] that [Object.entries] and property access raise on
    [undefined] and [null].  An [Error] object has no enumerable property
    of its own. *)
Definition TypeError (msg : string) : value :=
  VObj ("TypeError: " +:+ msg) [].

(** ** Plain objects used as string-keyed maps

    [Object.entries] lists the properties in insertion order, so the
    environment mapping is an association list: an assignment to a key that
    is there replaces its value in place, an assignment to a new key adds
    it at the end. *)

Definition object : Type := list (string * value).

Fixpoint obj_set (k : string) (v : value) (o : object) : object :=
  match o with
  | [] => [(k, v)]
  | (k', v') :: o' =>
      if decide (k' = k) then (k, v) :: o' else (k', v') :: obj_set k v o'
  end.

Fixpoint obj_get (k : string) (o : object) : value :=
  match o with
  | [] => VUndefined
  | (k', v') :: o' => if decide (k' = k) then v' else obj_get k o'
  end.

(** ** The outside world *)

(** What a callback does to the outside world. *)
Inductive effect : Type :=
| ConsoleLog (text : string)
| SetupMaster (args : list string) (silent : bool)
| Fork (id : Z) (env : object)
| Listen (id : Z)
| ClusterOn (name : string)
| Kill.

(** The host: the pid of the process, and the [cluster] module with the
    counter it numbers the workers with and the workers by stage of their
    life: forked but the ['fork'] event not yet emitted, created, online. *)
Record cluster : Type := mkCluster {
  process_pid : Z;
  ids : Z;
  forking : list Z;
  created : list Z;
  online : list Z
}.

Definition cluster0 (pid : Z) : cluster := mkCluster pid 0 [] [] [].

(** The worker an event is about. *)
Record worker : Type := mkWorker { id : Z; pid : Z }.

(** ** Completions and the monad of callbacks *)

Inductive completion (A : Type) : Type :=
| Normal (a : A)
| Throw (e : value)
| ProcessExit (code : Z).

Arguments Normal {A} a.
Arguments Throw {A} e.
Arguments ProcessExit {A} code.

Section Monad.
Context {Self : Type}.

(** A computation over the fields [Self] of the object and the host. *)
Definition M (A : Type) : Type :=
  Self * cluster → completion A * (Self * cluster) * list effect.

Definition ret {A} (a : A) : M A := λ σ, (Normal a, σ, []).

Definition bind {A B} (m : M A) (k : A → M B) : M B := λ σ,
  match m σ with
  | (Normal a, σ1, out1) =>
      match k a σ1 with (r, σ2, out2) => (r, σ2, out1 ++ out2) end
  | (Throw e, σ1, out1) => (Throw e, σ1, out1)
  | (ProcessExit c, σ1, out1) => (ProcessExit c, σ1, out1)
  end.

(** [throw e] *)
Definition throw {A} (e : value) : M A := λ σ, (Throw e, σ, []).

(** [process.exit(code)]: nothing after it runs. *)
Definition process_exit {A} (code : Z) : M A := λ σ, (ProcessExit code, σ, []).

(** [try { body } catch (e) { handler e }] *)
Definition try_catch {A} (body : M A) (handler : value → M A) : M A := λ σ,
  match body σ with
  | (Throw e, σ1, out1) =>
      match handler e σ1 with (r, σ2, out2) => (r, σ2, out1 ++ out2) end
  | r => r
  end.

Definition emit (e : effect) : M unit := λ σ, (Normal tt, σ, [e]).

Definition get_self : M Self := λ σ, (Normal σ.1, σ, []).
Definition get_pid : M Z := λ σ, (Normal (process_pid σ.2), σ, []).
Definition modify_self (f : Self → Self) : M unit :=
  λ σ, (Normal tt, (f σ.1, σ.2), []).

(** [console.log(text)] *)
Definition console_log (text : string) : M unit := emit (ConsoleLog text).

(** [cluster.setupMaster({args, silent})] *)
Definition setupMaster (args : list string) (silent : bool) : M unit :=
  emit (SetupMaster args silent).

(** [cluster.fork(env)]: the host numbers the new worker, hands it a
    copy of [env], and emits ['fork'] for it later. *)
Definition fork (env : object) : M Z := λ σ,
  let c := σ.2 in
  let w := ids c + 1 in
  (Normal w,
   (σ.1, mkCluster (process_pid c) w (forking c ++ [w]) (created c) (online c)),
   [Fork w env]).

(** [worker.on('message', listener)] *)
Definition on_message (w : Z) : M unit := emit (Listen w).

(** [cluster.on(name, listener)] *)
Definition cluster_on (name : string) : M unit := emit (ClusterOn name).

(** Run the callback [k] on each element of a list, in order *)
Fixpoint for_of {A} (l : list A) (k : A → M unit) : M unit :=
  match l with
  | [] => ret tt
  | x :: l' => bind (k x) (λ _, for_of l' k)
  end.
End Monad.

Arguments M : clear implicits.

#[global] Instance M_ret {Self} : MRet (M Self) := λ A, ret.
#[global] Instance M_bind {Self} : MBind (M Self) := λ A B k m, bind m k.

(** ** [helpers/console-log-customs.ts]

    The colours that [chalk] adds are left out: the text is what is
    modelled. *)
Module log.
Section Log.
Context {Self : Type}.
Definition rule : string := "---------------------------------".

Definition standard (text : string) : M Self unit := console_log text.
Definition process (text : string) : M Self unit :=
  console_log ("[PROCESS]: " +:+ text).
Definition memory (text : string) : M Self unit :=
  console_log ("[MEMORY]: " +:+ text).
Definition warning (text : string) : M Self unit :=
  console_log rule;; console_log ("[WARNING]: " +:+ text).
Definition info (text : string) : M Self unit :=
  console_log rule;; console_log ("[INFO]: " +:+ text).
Definition error (text : string) : M Self unit :=
  console_log rule;; console_log ("[ERROR]: " +:+ text).
End Log.
End log.

(** ** The error classifier, the same in the three versions *)

Section ErrorHandler.
Context {Self : Type}.

(** [Object.entries(v)] *)
Definition Object_entries (v : value) : M Self (list (string * value)) :=
  match v with
  | VUndefined | VNull =>
      throw (TypeError "Cannot convert undefined or null to object")
  | VObj _ es => ret es
  | VStr s =>
      ret (imap (λ i c, (pretty i, VStr (String c EmptyString)))
                (list_ascii_of_string s))
  | VBool _ | VNum _ | VFun _ => ret []
  end.

(** [v.toString()] *)
Definition toString (v : value) : M Self string :=
  match v with
  | VUndefined =>
      throw (TypeError "Cannot read properties of undefined (reading 'toString')")
  | VNull =>
      throw (TypeError "Cannot read properties of null (reading 'toString')")
  | _ => ret (to_string v)
  end.

Definition errorHandler (error : value) : M Self unit :=
  if decide (typeof error = "object") then
    es ← Object_entries error;
    for_of es (λ '(key, value), log.error (key +:+ ": " +:+ to_string value))
  else if decide (typeof error = "undefined") then
    log.error "Catch undefined error."
  else
    s ← toString error;
    log.error ("Worker failed with reason: " +:+ s).
End ErrorHandler.

(** ** Arrays *)

(** [q.pop()]: the array without its last element, and that element
    ([undefined] when the array is empty). *)
Definition pop (q : list value) : list value * value :=
  match last q with
  | Some x => (removelast q, x)
  | None => ([], VUndefined)
  end.

(** [q.unshift(x)] *)
Definition unshift (x : value) (q : list value) : list value := x :: q.

(** ** What the host hands to the coordinator *)

(** A promise-returning callback of the user, by what awaiting it gives. *)
Inductive hook : Type :=
| Resolves
| Rejects (e : value).

(** [interfaces.ts]: a message of a worker to the coordinator. *)
Inductive ClusterActions : Type :=
| check_queue
| handle_error
| unhandled_exception.

Record ClusterCommunicator : Type := mkCommunicator {
  actions : option ClusterActions;
  message : option string
}.

(** The events of the [cluster] module and of the message channel. *)
Inductive event : Type :=
| EFork (w : worker)
| EOnline (w : worker)
| EExit (w : worker) (code : option Z) (signal : option string)
| EMessage (w : Z) (communicator : ClusterCommunicator).

(** The host moves the worker along its life before it calls the
    listeners. *)
Definition without (w : Z) (l : list Z) : list Z :=
  filter (λ x, x ≠ w) l.

Definition host_step (e : event) (c : cluster) : cluster :=
  match e with
  | EFork w =>
      mkCluster (process_pid c) (ids c)
                (without (id w) (forking c)) (created c ++ [id w]) (online c)
  | EOnline w =>
      mkCluster (process_pid c) (ids c)
                (forking c) (without (id w) (created c)) (online c ++ [id w])
  | EExit w _ _ =>
      mkCluster (process_pid c) (ids c)
                (forking c) (without (id w) (created c)) (without (id w) (online c))
  | EMessage _ _ => c
  end.

(** Whether the host can deliver the event: ['fork'] for a worker it has
    forked, ['online'] for a created one, ['exit'] for a created or online
    one, a message of a worker that is alive. *)
Definition enabled (e : event) (c : cluster) : bool :=
  match e with
  | EFork w => bool_decide (id w ∈ forking c)
  | EOnline w => bool_decide (id w ∈ created c)
  | EExit w _ _ => bool_decide (id w ∈ created c ++ online c)
  | EMessage w _ => bool_decide (w ∈ created c ++ online c)
  end.

(** [`${x}`] for a number or a string that may be [null] *)
Definition show_code (code : option Z) : string :=
  match code with Some n => number_to_string n | None => "null" end.

Definition show_signal (signal : option string) : string :=
  match signal with Some s => s | None => "null" end.

(** [code !== 0] *)
Definition crashed (code : option Z) : bool :=
  match code with Some 0 => false | _ => true end.

(** The state of the coordinator process. *)
Inductive status : Type :=
| Running
| Exited (code : Z)
| Faulted (e : value).

(** The configuration file [cluster-config.yml], as
    [readYamlConfiguration] finds it: unreadable or not YAML (the error
    [fs] or the parser throws), or a document. *)
Record document : Type := mkDocument {
  QUEUE : list string;
  ARGS : list string;
  LOOP : option bool;
  ENV_VARIABLES : object;
  SILENT_MODE : bool;
  WORKER_LIMIT : Z
}.

Inductive config_file : Type :=
| Unreadable (e : value)
| Parsed (config : document).

Section Helpers.
Context {Self : Type}.

(** [helpers/utils.ts] *)
Definition readYamlConfiguration (file : config_file) : M Self document :=
  match file with
  | Unreadable e => throw e
  | Parsed config => mret config
  end.

(** [await h()] *)
Definition await (h : hook) : M Self unit :=
  match h with
  | Resolves => mret tt
  | Rejects e => throw e
  end.

(** The loop that builds [envInfoString]. *)
Definition envInfoString (env : object) : string :=
  fold_left (λ acc '(key, value), acc +:+ key +:+ ": " +:+ to_string value +:+ " ")
            env "".

(** The listener of [messageReader], the same wherever it exists. *)
Definition message_listener (communicator : ClusterCommunicator) : M Self unit :=
  (match message communicator with
   | Some m => if truthy (VStr m) then console_log m else mret tt
   | None => mret tt
   end);;
  match actions communicator with
  | Some check_queue => mret tt
  | Some handle_error => mret tt
  | Some unhandled_exception => mret tt
  | None => mret tt
  end.

(** [messageReader(worker)] *)
Definition messageReader (w : Z) : M Self unit := on_message w.

(** [configureEventHandlers()] registers the three listeners; what they
    do is under the name of each version. *)
Definition configureEventHandlers : M Self unit :=
  cluster_on "fork";; cluster_on "online";; cluster_on "exit".
End Helpers.

(** ** The coordinator as a transition system *)

Section System.
Context {Self : Type}.

Record system : Type := mkSystem {
  state : status;
  world : Self * cluster;
  trace : list effect
}.

(** A callback that returns leaves the process running; [process.exit]
    ends it; an exception that escapes a callback is where the model
    stops. *)
Definition settle (tr : list effect)
    (r : completion unit * (Self * cluster) * list effect) : system :=
  match r with
  | (Normal _, σ, out) => mkSystem Running σ (tr ++ out)
  | (ProcessExit code, σ, out) => mkSystem (Exited code) σ (tr ++ out)
  | (Throw e, σ, out) => mkSystem (Faulted e) σ (tr ++ out)
  end.

(** The process from the call of [start] on a fresh object. *)
Definition boot (start : M Self unit) (self : Self) (pid : Z) : system :=
  settle [] (start (self, cluster0 pid)).

Variable listener : event → M Self unit.

(** The host delivers one event to a running coordinator. *)
Definition deliver (sys : system) (e : event) : system :=
  match state sys with
  | Running =>
      settle (trace sys) (listener e ((world sys).1, host_step e (world sys).2))
  | _ => sys
  end.

Definition run (es : list event) (sys : system) : system :=
  fold_left deliver es sys.

(** A schedule the host can produce: each event is enabled when it is
    delivered, and the coordinator is running to receive it. *)
Fixpoint valid (es : list event) (sys : system) : bool :=
  match es with
  | [] => true
  | e :: es' =>
      match state sys with
      | Running => enabled e (world sys).2 && valid es' (deliver sys e)
      | _ => false
      end
  end.
End System.

Arguments system : clear implicits.

(** The events of the life of a worker, as opposed to its messages. *)
Definition lifecycle (e : event) : bool :=
  match e with EMessage _ _ => false | _ => true end.

(** ** [src/unnamed/part_002]: generator-driven queue with [loop] *)

Module Supervisor.

Record ClusterManagerConfig : Type := mkConfig {
  workerLimit : Z;
  env : object;
  args : list string;
  silentMode : bool;
  beforeStart : hook;
  loop : bool
}.

(** The generator object [queueManager()] returns. *)
Inductive generator : Type :=
| SuspendedStart
| SuspendedYield
| Completed.

#[global] Instance generator_eq_dec : EqDecision generator.
Proof. solve_decision. Defined.

Record WorkerCreator : Type := mkSelf {
  _runningServicesCount : Z;
  _configuration : ClusterManagerConfig;
  _queue : list value;
  _runningService : value;
  _runningWorkers : list Z;
  _gen : option generator;
  main : hook
}.

Definition set_count (n : Z) (s : WorkerCreator) : WorkerCreator :=
  mkSelf n (_configuration s) (_queue s) (_runningService s)
         (_runningWorkers s) (_gen s) (main s).
Definition set_configuration (c : ClusterManagerConfig) (s : WorkerCreator) :=
  mkSelf (_runningServicesCount s) c (_queue s) (_runningService s)
         (_runningWorkers s) (_gen s) (main s).
Definition set_queue (q : list value) (s : WorkerCreator) : WorkerCreator :=
  mkSelf (_runningServicesCount s) (_configuration s) q (_runningService s)
         (_runningWorkers s) (_gen s) (main s).
Definition set_runningService (x : value) (s : WorkerCreator) : WorkerCreator :=
  mkSelf (_runningServicesCount s) (_configuration s) (_queue s) x
         (_runningWorkers s) (_gen s) (main s).
Definition set_runningWorkers (l : list Z) (s : WorkerCreator) : WorkerCreator :=
  mkSelf (_runningServicesCount s) (_configuration s) (_queue s)
         (_runningService s) l (_gen s) (main s).
Definition set_gen (g : option generator) (s : WorkerCreator) : WorkerCreator :=
  mkSelf (_runningServicesCount s) (_configuration s) (_queue s)
         (_runningService s) (_runningWorkers s) g (main s).
Definition set_env (e : object) (c : ClusterManagerConfig) : ClusterManagerConfig :=
  mkConfig (workerLimit c) e (args c) (silentMode c) (beforeStart c) (loop c).

(** The constructor.  The fields of [_configuration] other than
    [beforeStart] are [undefined] until [setConfig] has run, and nothing
    reads them before; they are given neutral values here. *)
Definition constructor (beforeStart main : hook) : WorkerCreator :=
  mkSelf 0 (mkConfig 0 [] [] false beforeStart false) [] VUndefined [] None main.

Abbreviation M := (M WorkerCreator).

(** The assignments of [setService], on the fields. *)
Definition setService_fields (s : WorkerCreator) : WorkerCreator :=
  let '(q, x) := pop (_queue s) in
  let s := set_runningService x (set_queue q s) in
  let s := set_configuration
             (set_env (obj_set "SCRAPER" x (env (_configuration s)))
                      (_configuration s)) s in
  if loop (_configuration s) then set_queue (unshift x (_queue s)) s else s.

Definition setService : M unit := modify_self setService_fields.

(** [this._gen.next().done]: the generator runs [queueManager] up to its
    next [yield]. *)
Definition gen_next_done : M bool :=
  s ← get_self;
  match _gen s with
  | None =>
      throw (TypeError "Cannot read properties of undefined (reading 'next')")
  | Some Completed => mret true
  | Some _ =>
      if bool_decide (0 < length (_queue s))%nat then
        setService;;
        modify_self (set_gen (Some SuspendedYield));;
        mret false
      else
        modify_self (set_gen (Some Completed));;
        mret true
  end.

Definition createWorker : M unit :=
  s ← get_self;
  if bool_decide (_runningServicesCount s < workerLimit (_configuration s)) then
    console_log (pretty (length (_runningWorkers s)));;
    done ← gen_next_done;
    (if done : bool then
       log.info "Finished worked, empty queue. Cluster will be terminated...";;
       process_exit 0
     else mret tt);;
    s ← get_self;
    worker ← fork (env (_configuration s));
    messageReader worker;;
    modify_self (λ s, set_count (_runningServicesCount s + 1) s)
  else
    log.info ("FULL QUEUE: running-" +:+ number_to_string (_runningServicesCount s)
              +:+ " limit-" +:+ number_to_string (workerLimit (_configuration s))).

(** The listeners [configureEventHandlers] registers. *)
Definition on_fork (worker : worker) : M unit :=
  modify_self (λ s, set_runningWorkers (_runningWorkers s ++ [id worker]) s);;
  s ← get_self;
  if bool_decide (length (_queue s) = 0%nat) then mret tt
  else
    createWorker;;
    log.process ("The worker #" +:+ number_to_string (id worker)
                 +:+ " is being created. Process pid "
                 +:+ number_to_string (pid worker) +:+ ".").

Definition on_online (worker : worker) : M unit :=
  log.process ("The worker #" +:+ number_to_string (id worker)
               +:+ " is starting job... Process pid "
               +:+ number_to_string (pid worker) +:+ ".").

(** The release of a worker: the two updates of the ['exit'] listener. *)
Definition release (w : Z) (s : WorkerCreator) : WorkerCreator :=
  set_count (_runningServicesCount s - 1)
            (set_runningWorkers (without w (_runningWorkers s)) s).

Definition on_exit (worker : worker) (code : option Z) (signal : option string)
  : M unit :=
  (if crashed code then
     log.warning ("The worker #" +:+ number_to_string (id worker) +:+ " crashed with code "
                  +:+ show_code code +:+ " and signal " +:+ show_signal signal
                  +:+ ". Starting a new worker...")
   else
     log.process ("The worker #" +:+ number_to_string (id worker)
                  +:+ " done his job. Process pid " +:+ number_to_string (pid worker)));;
  modify_self (λ s, set_runningWorkers (without (id worker) (_runningWorkers s)) s);;
  s ← get_self;
  log.standard ("Current queue length in exit: " +:+ pretty (length (_queue s)));;
  modify_self (λ s, set_count (_runningServicesCount s - 1) s);;
  createWorker.

Definition setConfig (file : config_file) : M unit :=
  try_catch
    (config ← readYamlConfiguration file;
     modify_self (λ s,
       set_configuration
         (mkConfig (WORKER_LIMIT config) (ENV_VARIABLES config) (ARGS config)
                   (SILENT_MODE config) (beforeStart (_configuration s))
                   (default false (LOOP config)))
         (set_queue (VStr <$> QUEUE config) s)))
    (λ e, log.error "Cannot load initial config.";; process_exit 0).

Definition createMasterProcess (file : config_file) : M unit :=
  setConfig file;;
  modify_self (set_gen (Some SuspendedStart));;
  s ← get_self;
  setupMaster (args (_configuration s)) (silentMode (_configuration s));;
  await (beforeStart (_configuration s));;
  pid ← get_pid;
  log.info ("Master process running with pid " +:+ number_to_string pid);;
  log.info ("WORKER WILL START WITH ENV VARIABLES: "
            +:+ envInfoString (env (_configuration s)));;
  createWorker;;
  configureEventHandlers.

Definition startJob : M unit :=
  try_catch (s ← get_self; await (main s);; emit Kill) (λ e, throw e).

Definition start (isMaster : bool) (file : config_file) : M unit :=
  try_catch
    (if isMaster then createMasterProcess file else startJob)
    (λ error, errorHandler error;; process_exit 1).

(** The listener the host calls for an event. *)
Definition listener (e : event) : M unit :=
  match e with
  | EFork w => on_fork w
  | EOnline w => on_online w
  | EExit w code signal => on_exit w code signal
  | EMessage _ communicator => message_listener communicator
  end.

End Supervisor.

(** ** [src/src/main.ts], first version: the queue is a ring *)

Module RingVariant.

Record ClusterManagerConfig : Type := mkConfig {
  workerLimit : Z;
  env : object;
  args : list string;
  silentMode : bool;
  beforeStart : hook
}.

Record WorkerCreator : Type := mkSelf {
  _runningServicesCount : Z;
  _configuration : ClusterManagerConfig;
  _queue : list value;
  _runningService : value;
  main : hook
}.

Definition set_count (n : Z) (s : WorkerCreator) : WorkerCreator :=
  mkSelf n (_configuration s) (_queue s) (_runningService s) (main s).
Definition set_configuration (c : ClusterManagerConfig) (s : WorkerCreator) :=
  mkSelf (_runningServicesCount s) c (_queue s) (_runningService s) (main s).
Definition set_queue (q : list value) (s : WorkerCreator) : WorkerCreator :=
  mkSelf (_runningServicesCount s) (_configuration s) q (_runningService s) (main s).
Definition set_env (e : object) (c : ClusterManagerConfig) : ClusterManagerConfig :=
  mkConfig (workerLimit c) e (args c) (silentMode c) (beforeStart c).

(** As in [Supervisor.constructor], the fields [setConfig] assigns are
    given neutral values. *)
Definition constructor (beforeStart main : hook) : WorkerCreator :=
  mkSelf 0 (mkConfig 0 [] [] false beforeStart) [] VUndefined main.

Abbreviation M := (M WorkerCreator).

(** The assignments of [queueManager], on the fields. *)
Definition queueManager_fields (s : WorkerCreator) : WorkerCreator :=
  let '(q, service) := pop (_queue s) in
  let s := set_queue (unshift service q) s in
  set_configuration
    (set_env (obj_set "SCRAPER" service (env (_configuration s)))
             (_configuration s)) s.

Definition queueManager : M unit := modify_self queueManager_fields.

(** [await this.queueManager()] resumes in a microtask, before the host
    delivers another event: the callback is one step here too. *)
Definition createWorker : M unit :=
  s ← get_self;
  if bool_decide (_runningServicesCount s < workerLimit (_configuration s)) then
    queueManager;;
    s ← get_self;
    fork (env (_configuration s));;
    modify_self (λ s, set_count (_runningServicesCount s + 1) s)
  else
    log.info ("FULL QUEUE: running-" +:+ number_to_string (_runningServicesCount s)
              +:+ " limit-" +:+ number_to_string (workerLimit (_configuration s))).

Definition on_fork (worker : worker) : M unit :=
  createWorker;;
  log.process ("The worker #" +:+ number_to_string (id worker)
               +:+ " is being created. Process pid " +:+ number_to_string (pid worker) +:+ ".").

Definition on_online (worker : worker) : M unit :=
  log.process ("The worker #" +:+ number_to_string (id worker)
               +:+ " is starting job... Process pid "
               +:+ number_to_string (pid worker) +:+ ".").

Definition on_exit (worker : worker) (code : option Z) (signal : option string)
  : M unit :=
  (if crashed code then
     log.warning ("The worker #" +:+ number_to_string (id worker) +:+ " crashed with code "
                  +:+ show_code code +:+ " and signal " +:+ show_signal signal
                  +:+ ". Starting a new worker...")
   else
     log.process ("The worker #" +:+ number_to_string (id worker)
                  +:+ " done his job. Process pid " +:+ number_to_string (pid worker)));;
  modify_self (λ s, set_count (_runningServicesCount s - 1) s);;
  createWorker.

Definition setConfig (file : config_file) : M unit :=
  try_catch
    (config ← readYamlConfiguration file;
     modify_self (λ s,
       set_configuration
         (mkConfig (WORKER_LIMIT config) (ENV_VARIABLES config) (ARGS config)
                   (SILENT_MODE config) (beforeStart (_configuration s)))
         (set_queue (VStr <$> QUEUE config) s)))
    (λ e, log.error "Cannot load initial config.";; process_exit 0).

Definition createMasterProcess (file : config_file) : M unit :=
  setConfig file;;
  s ← get_self;
  setupMaster (args (_configuration s)) (silentMode (_configuration s));;
  await (beforeStart (_configuration s));;
  p ← get_pid;
  log.info ("Master process running with pid " +:+ number_to_string p);;
  log.info ("WORKER WILL START WITH ENV VARIABLES: "
            +:+ envInfoString (env (_configuration s)));;
  createWorker;;
  configureEventHandlers.

Definition startJob : M unit :=
  try_catch (s ← get_self; await (main s);; emit Kill) (λ e, throw e).

Definition start (isMaster : bool) (file : config_file) : M unit :=
  try_catch
    (if isMaster then createMasterProcess file else startJob)
    (λ error, errorHandler error;; process_exit 1).

(** This version registers no message listener. *)
Definition listener (e : event) : M unit :=
  match e with
  | EFork w => on_fork w
  | EOnline w => on_online w
  | EExit w code signal => on_exit w code signal
  | EMessage _ _ => mret tt
  end.

End RingVariant.

(** ** [src/src/main.ts], second version: a bounded pool without a queue *)

Module PoolVariant.

(** Every field is optional: [None] is [undefined]. *)
Record ClusterManagerConfig : Type := mkConfig {
  workerLimit : option Z;
  env : option object;
  args : option (list string);
  silentMode : option bool;
  beforeStart : option hook
}.

Record WorkerCreator : Type := mkSelf {
  _runningServicesCount : Z;
  _configuration : ClusterManagerConfig;
  main : hook
}.

Definition set_count (n : Z) (s : WorkerCreator) : WorkerCreator :=
  mkSelf n (_configuration s) (main s).
Definition set_configuration (c : ClusterManagerConfig) (s : WorkerCreator) :=
  mkSelf (_runningServicesCount s) c (main s).

Abbreviation M := (M WorkerCreator).

(** [helpers/cpus-checker.ts], with [cpus] for [os.cpus().length] *)
Definition cpusChecker (cpus : nat) (config : option ClusterManagerConfig)
  : M (option Z) :=
  match config with
  | Some config =>
      match workerLimit config with
      | Some limit =>
          if bool_decide (limit > Z.of_nat cpus) then
            log.warning "You add limit biggest than cpus that you have. Number will be changed.";;
            mret (Some (Z.of_nat cpus))
          else mret (Some limit)
      | None => mret None
      end
  | None => mret (Some (Z.of_nat cpus))
  end.

(** [defaultConfig]; its [workerLimit] is [cpusChecker()]. *)
Definition defaultConfig (cpus : nat) : ClusterManagerConfig :=
  mkConfig (Some (Z.of_nat cpus)) (Some []) (Some []) (Some false) (Some Resolves).

Definition setDefaultConfiguration (cpus : nat) : M unit :=
  s ← get_self;
  let c := _configuration s in
  limit ← cpusChecker cpus (Some c);
  modify_self (set_configuration
    (mkConfig limit
              (Some (default [("CLUSTER", VStr "true")] (env c)))
              (Some (default [""] (args c)))
              (Some (default false (silentMode c)))
              (Some (default Resolves (beforeStart c))))).

(** The fields as the constructor assigns them, before it calls
    [setDefaultConfiguration]. *)
Definition constructor (cpus : nat) (main : hook)
    (configuration : option ClusterManagerConfig) : WorkerCreator :=
  mkSelf 0 (default (defaultConfig cpus) configuration) main.

(** [this._runningServicesCount < this._configuration.workerLimit]; a
    comparison with [undefined] is false. *)
Definition below (count : Z) (limit : option Z) : bool :=
  match limit with
  | Some limit => bool_decide (count < limit)
  | None => false
  end.

Definition show_limit (limit : option Z) : string :=
  match limit with Some n => number_to_string n | None => "undefined" end.

Definition createWorker : M unit :=
  s ← get_self;
  if below (_runningServicesCount s) (workerLimit (_configuration s)) then
    worker ← fork (default [] (env (_configuration s)));
    messageReader worker;;
    modify_self (λ s, set_count (_runningServicesCount s + 1) s)
  else
    log.info ("FULL QUEUE: running-" +:+ number_to_string (_runningServicesCount s)
              +:+ " limit-" +:+ show_limit (workerLimit (_configuration s))).

Definition on_fork (worker : worker) : M unit :=
  createWorker;;
  log.process ("The worker #" +:+ number_to_string (id worker)
               +:+ " is being created. Process pid " +:+ number_to_string (pid worker) +:+ ".").

Definition on_online (worker : worker) : M unit :=
  log.process ("The worker #" +:+ number_to_string (id worker)
               +:+ " is starting job... Process pid "
               +:+ number_to_string (pid worker) +:+ ".").

Definition on_exit (worker : worker) (code : option Z) (signal : option string)
  : M unit :=
  (if crashed code then
     log.warning ("The worker #" +:+ number_to_string (id worker) +:+ " crashed with code "
                  +:+ show_code code +:+ " and signal " +:+ show_signal signal
                  +:+ ". Starting a new worker...")
   else
     log.process ("The worker #" +:+ number_to_string (id worker)
                  +:+ " done his job. Process pid " +:+ number_to_string (pid worker)));;
  modify_self (λ s, set_count (_runningServicesCount s - 1) s);;
  createWorker.

Definition createMasterProcess : M unit :=
  s ← get_self;
  let c := _configuration s in
  setupMaster (default [] (args c)) (default false (silentMode c));;
  (match beforeStart c with
   | Some h => await h
   | None => throw (TypeError "this._configuration?.beforeStart is not a function")
   end);;
  entries ← (match env c with
             | Some e => mret e
             | None => Object_entries VUndefined
             end);
  p ← get_pid;
  log.info ("Master process running with pid " +:+ number_to_string p);;
  log.info ("WORKER WILL START WITH ENV VARIABLES: " +:+ envInfoString entries);;
  createWorker;;
  configureEventHandlers.

Definition startJob : M unit :=
  try_catch (s ← get_self; await (main s);; emit Kill) (λ e, throw e).

Definition start (isMaster : bool) : M unit :=
  try_catch
    (if isMaster then createMasterProcess else startJob)
    (λ error, errorHandler error;; process_exit 1).

(** What runs from [new WorkerCreator(main, configuration)] to the end
    of [start()]. *)
Definition construct_and_start (cpus : nat) (isMaster : bool) : M unit :=
  setDefaultConfiguration cpus;; start isMaster.

Definition listener (e : event) : M unit :=
  match e with
  | EFork w => on_fork w
  | EOnline w => on_online w
  | EExit w code signal => on_exit w code signal
  | EMessage _ communicator => message_listener communicator
  end.

End PoolVariant.

(** * Vocabulary of the statements *)

(** The lines a call of [log.info], [log.warning], [log.error] prints. *)
Definition info_lines (text : string) : list effect :=
  [ConsoleLog log.rule; ConsoleLog ("[INFO]: " +:+ text)].
Definition warning_lines (text : string) : list effect :=
  [ConsoleLog log.rule; ConsoleLog ("[WARNING]: " +:+ text)].
Definition error_lines (text : string) : list effect :=
  [ConsoleLog log.rule; ConsoleLog ("[ERROR]: " +:+ text)].

(** The output holds a line that ends with the string of [v]. *)
Definition logs_string_of (v : value) (out : list effect) : Prop :=
  ∃ prefix, ConsoleLog (prefix +:+ to_string v) ∈ out.

(** The classification by shape, in the words of the specification: a
    value with enumerable pairs has each pair logged, [undefined] the fixed
    message, any other value its string. *)
Definition classified_by_shape (error : value) : Prop :=
  ∀ σ : unit * cluster,
    match error with
    | VObj _ ((_ :: _) as es) =>
        errorHandler error σ
        = (Normal tt, σ,
           flat_map (λ '(k, v), error_lines (k +:+ ": " +:+ to_string v)) es)
    | VUndefined =>
        errorHandler error σ = (Normal tt, σ, error_lines "Catch undefined error.")
    | _ =>
        ∃ out, errorHandler error σ = (Normal tt, σ, out) ∧ logs_string_of error out
    end.

(** The classification by [typeof]: the report of an object is the list
    of its enumerable pairs, of [undefined] the fixed message, of a value
    of any other type its string.  [null] is not in its domain. *)
Definition report_by_typeof (error : value) : list effect :=
  match error with
  | VObj _ es => flat_map (λ '(k, v), error_lines (k +:+ ": " +:+ to_string v)) es
  | VUndefined => error_lines "Catch undefined error."
  | v => error_lines ("Worker failed with reason: " +:+ to_string v)
  end.

(** The message listener as the specification words it: the message is
    printed whenever the field is there. *)
Definition prints_when_present (communicator : ClusterCommunicator) : Prop :=
  ∀ σ : unit * cluster,
    message_listener communicator σ
    = (Normal tt, σ,
       match message communicator with Some m => [ConsoleLog m] | None => [] end).

(** The fields and the host a computation ends in, and its completion. *)
Definition fields_after {Self A}
    (r : completion A * (Self * cluster) * list effect) : Self := r.1.2.1.
Definition host_after {Self A}
    (r : completion A * (Self * cluster) * list effect) : cluster := r.1.2.2.
Definition completion_of {Self A}
    (r : completion A * (Self * cluster) * list effect) : completion A := r.1.1.
Definition output_of {Self A}
    (r : completion A * (Self * cluster) * list effect) : list effect := r.2.

(** The state of the process a callback leaves. *)
Definition status_of (r : completion unit) : status :=
  match r with
  | Normal _ => Running
  | ProcessExit code => Exited code
  | Throw e => Faulted e
  end.

(** The lines the ['exit'] listener prints about the worker: a warning
    for a crash, a note for a clean exit. *)
Definition exit_lines (w : worker) (code : option Z) (signal : option string)
  : list effect :=
  if crashed code then
    warning_lines ("The worker #" +:+ number_to_string (id w) +:+ " crashed with code "
                   +:+ show_code code +:+ " and signal " +:+ show_signal signal
                   +:+ ". Starting a new worker...")
  else
    [ConsoleLog ("[PROCESS]: " +:+ "The worker #" +:+ number_to_string (id w)
                 +:+ " done his job. Process pid " +:+ number_to_string (pid w))].

Definition created_lines (w : worker) : list effect :=
  [ConsoleLog ("[PROCESS]: " +:+ "The worker #" +:+ number_to_string (id w)
               +:+ " is being created. Process pid " +:+ number_to_string (pid w) +:+ ".")].

(** The number of [cluster.fork] calls in an output. *)
Definition is_fork (e : effect) : bool :=
  match e with Fork _ _ => true | _ => false end.
Definition forks (out : list effect) : list effect := filter is_fork out.

(** The state of the host after [cluster.fork]. *)
Definition forked (c : cluster) : cluster :=
  mkCluster (process_pid c) (ids c + 1) (forking c ++ [ids c + 1])
            (created c) (online c).

Definition finished_lines : list effect :=
  info_lines "Finished worked, empty queue. Cluster will be terminated...".

(** What [createMasterProcess] prints before it calls [createWorker], and
    the registrations after. *)
Definition preamble (config : document) (pid : Z) : list effect :=
  SetupMaster (ARGS config) (SILENT_MODE config)
  :: info_lines ("Master process running with pid " +:+ number_to_string pid)
  ++ info_lines ("WORKER WILL START WITH ENV VARIABLES: "
                 +:+ envInfoString (ENV_VARIABLES config)).

Definition registrations : list effect :=
  [ClusterOn "fork"; ClusterOn "online"; ClusterOn "exit"].

Module SupervisorSpec.
Import Supervisor.

(** The fields once [setConfig] has read the document and the generator
    is made. *)
Definition configured (config : document) (beforeStart main : hook) : WorkerCreator :=
  mkSelf 0
    (mkConfig (WORKER_LIMIT config) (ENV_VARIABLES config) (ARGS config)
              (SILENT_MODE config) beforeStart (default false (LOOP config)))
    (VStr <$> QUEUE config) VUndefined [] (Some SuspendedStart) main.

Definition full_lines (s : WorkerCreator) : list effect :=
  info_lines ("FULL QUEUE: running-" +:+ number_to_string (_runningServicesCount s)
              +:+ " limit-" +:+ number_to_string (workerLimit (_configuration s))).

(** The fields after a spawn: the job is set, the generator is suspended
    at its [yield], the count is one more. *)
Definition spawned (s : WorkerCreator) : WorkerCreator :=
  let s' := set_gen (Some SuspendedYield) (setService_fields s) in
  set_count (_runningServicesCount s' + 1) s'.
Definition count_bounded (s : WorkerCreator) : Prop :=
  _runningServicesCount s ≤ workerLimit (_configuration s).
(** The workers the host still has to report on. *)
Definition alive (c : cluster) : list Z := forking c ++ created c ++ online c.

(** What is left to happen: each job in the queue is worth a whole life
    of a worker, and each worker what is left of its life. *)
Definition measure (sys : system WorkerCreator) : nat :=
  (4 * length (_queue (world sys).1) + 3 * length (forking (world sys).2)
   + 2 * length (created (world sys).2) + length (online (world sys).2))%nat.

(** The generator exists and has not returned. *)
Definition suspended (s : WorkerCreator) : Prop :=
  ∃ g, _gen s = Some g ∧ g ≠ Completed.

(** What one call of [createWorker], or of a listener, does while the
    queue is drained without looping: with [k] it forks one worker for
    one job taken from the queue, without it changes neither; it leaves the
    generator suspended, or ends the process with status 0 on an empty
    queue. *)
Definition moves (s : WorkerCreator) (c : cluster)
    (r : completion unit * (WorkerCreator * cluster) * list effect) (k : bool)
  : Prop :=
  host_after r = (if k then forked c else c)
  ∧ length (forks (output_of r)) = (if k then 1 else 0)%nat
  ∧ (length (_queue (fields_after r)) + (if k then 1 else 0))%nat
    = length (_queue s)
  ∧ workerLimit (_configuration (fields_after r)) = workerLimit (_configuration s)
  ∧ loop (_configuration (fields_after r)) = loop (_configuration s)
  ∧ _runningServicesCount (fields_after r) ≤ workerLimit (_configuration s)
  ∧ match completion_of r with
    | Normal _ => suspended (fields_after r)
    | ProcessExit code => code = 0 ∧ _queue (fields_after r) = [] ∧ k = false
    | Throw _ => False
    end.

(** The invariant of a run that drains a queue of [N] jobs under the
    limit [limit]: the forks so far and the jobs left add up to [N]; a
    running coordinator has a worker alive; one that has exited did so
    with status 0 on an empty queue. *)
Definition draining (limit : Z) (N : nat) (sys : system WorkerCreator) : Prop :=
  workerLimit (_configuration (world sys).1) = limit
  ∧ loop (_configuration (world sys).1) = false
  ∧ _runningServicesCount (world sys).1 ≤ limit
  ∧ (length (forks (trace sys)) + length (_queue (world sys).1))%nat = N
  ∧ match state sys with
    | Running => suspended (world sys).1 ∧ alive (world sys).2 ≠ []
    | Exited code => code = 0 ∧ _queue (world sys).1 = []
    | Faulted _ => False
    end.
(** [n] calls of [this._gen.next()] in a row, with what each reported. *)
Fixpoint nexts (n : nat) : M (list bool) :=
  match n with
  | O => mret []
  | S n => done ← gen_next_done; rest ← nexts n; mret (done :: rest)
  end.
(** The invariant of a run under [loop] over the queue [q0]: the
    coordinator is running, and its queue is [q0] up to the order. *)
Definition looping (q0 : list value) (sys : system WorkerCreator) : Prop :=
  state sys = Running
  ∧ loop (_configuration (world sys).1) = true
  ∧ suspended (world sys).1
  ∧ _queue (world sys).1 ≡ₚ q0.
End SupervisorSpec.

Module RingSpec.
Import RingVariant.

Definition count_bounded (s : WorkerCreator) : Prop :=
  _runningServicesCount s ≤ workerLimit (_configuration s).

Definition full_lines (s : WorkerCreator) : list effect :=
  info_lines ("FULL QUEUE: running-" +:+ number_to_string (_runningServicesCount s)
              +:+ " limit-" +:+ number_to_string (workerLimit (_configuration s))).

Definition spawned (s : WorkerCreator) : WorkerCreator :=
  let s' := queueManager_fields s in
  set_count (_runningServicesCount s' + 1) s'.

Definition configured (config : document) (beforeStart main : hook) : WorkerCreator :=
  mkSelf 0
    (mkConfig (WORKER_LIMIT config) (ENV_VARIABLES config) (ARGS config)
              (SILENT_MODE config) beforeStart)
    (VStr <$> QUEUE config) VUndefined main.
End RingSpec.

Module PoolSpec.
Import PoolVariant.

(** With an [undefined] limit nothing is ever forked. *)
Definition count_bounded (s : WorkerCreator) : Prop :=
  match workerLimit (_configuration s) with
  | Some limit => _runningServicesCount s ≤ limit
  | None => _runningServicesCount s ≤ 0
  end.

Definition spawned (s : WorkerCreator) : WorkerCreator :=
  set_count (_runningServicesCount s + 1) s.
(** The limit [cpusChecker] keeps, and the configuration
    [setDefaultConfiguration] leaves. *)
Definition clamp (cpus : nat) (limit : option Z) : option Z :=
  match limit with
  | Some l => Some (if bool_decide (l > Z.of_nat cpus) then Z.of_nat cpus else l)
  | None => None
  end.

Definition defaults (cpus : nat) (c : ClusterManagerConfig) : ClusterManagerConfig :=
  mkConfig (clamp cpus (workerLimit c))
           (Some (default [("CLUSTER", VStr "true")] (env c)))
           (Some (default [""] (args c)))
           (Some (default false (silentMode c)))
           (Some (default Resolves (beforeStart c))).

Definition full_lines (s : WorkerCreator) : list effect :=
  info_lines ("FULL QUEUE: running-" +:+ number_to_string (_runningServicesCount s)
              +:+ " limit-" +:+ show_limit (workerLimit (_configuration s))).
End PoolSpec.

(** The dequeue step in the words of the specification: the identifier
    at the tail leaves the queue, goes back to its head exactly when
    [loop] is enabled, and is the job in the environment of the next
    worker. *)
Definition dequeued_by_loop_flag (loop : bool) (before after : list value)
    (env_after : object) : Prop :=
  ∃ init x,
    before = init ++ [x]
    ∧ after = (if loop then x :: init else init)
    ∧ obj_get "SCRAPER" env_after = x.

(** ** A scenario of the specification

    [workerLimit = 2], [QUEUE = ["j1", "j2", "j3"]], no loop; the second
    worker crashes. *)
Definition scenario_config : document :=
  mkDocument ["j1"; "j2"; "j3"] [] None [("Testing", VStr "yeah-worked")] false 2.

Definition scenario_worker (n : Z) : worker := mkWorker n (4000 + n).

Definition scenario_schedule : list event :=
  [EFork (scenario_worker 1); EOnline (scenario_worker 1);
   EFork (scenario_worker 2);
   EMessage 1 (mkCommunicator (Some check_queue) (Some "half way"));
   EExit (scenario_worker 1) (Some 0) None;
   EFork (scenario_worker 3);
   EExit (scenario_worker 2) (Some 1) None].

(** * Vocabulary of the further properties *)

(** The environments [cluster.fork] was called with, in the order of the
    calls, and the job of each: the value of [SCRAPER] in it. *)
Definition fork_env (e : effect) : option object :=
  match e with Fork _ env => Some env | _ => None end.
Definition fork_envs (out : list effect) : list object := omap fork_env out.
Definition jobs (out : list effect) : list value :=
  obj_get "SCRAPER" <$> fork_envs out.

(** The workers forked and the workers given a message listener, in
    order. *)
Definition fork_id (e : effect) : option Z :=
  match e with Fork w _ => Some w | _ => None end.
Definition listen_id (e : effect) : option Z :=
  match e with Listen w => Some w | _ => None end.
Definition fork_ids (out : list effect) : list Z := omap fork_id out.
Definition listen_ids (out : list effect) : list Z := omap listen_id out.

Definition is_exit (e : event) : bool :=
  match e with EExit _ _ _ => true | _ => false end.

(** The workers of the host are told apart by their ids, none of which is
    above the counter. *)
Definition host_ok (c : cluster) : Prop :=
  NoDup (SupervisorSpec.alive c) ∧ ∀ w, w ∈ SupervisorSpec.alive c → w ≤ ids c.

(** The keys of an object, in enumeration order. *)
Definition keys (o : object) : list string := o.*1.

Module SupervisorSteps.
Import Supervisor.

(** What a callback did to the queue and the environment: with [k] it
    took the job [x] at the tail of the queue (and put it back at the head
    under [loop]), wrote it to [SCRAPER], forked the next worker of the
    host with that environment and gave it a message listener; without
    [k] it left the queue and the environment alone and forked nothing. *)
Definition dequeued (s s' : WorkerCreator) (c : cluster) (out : list effect)
    (k : bool) : Prop :=
  workerLimit (_configuration s') = workerLimit (_configuration s)
  ∧ loop (_configuration s') = loop (_configuration s)
  ∧ if k then
      ∃ init x,
        _queue s = init ++ [x]
        ∧ _queue s' = (if loop (_configuration s) then x :: init else init)
        ∧ env (_configuration s') = obj_set "SCRAPER" x (env (_configuration s))
        ∧ forks out = [Fork (ids c + 1) (env (_configuration s'))]
        ∧ listen_ids out = [ids c + 1]
    else
      _queue s' = _queue s
      ∧ env (_configuration s') = env (_configuration s)
      ∧ forks out = [] ∧ listen_ids out = [].

(** What a listener did, all told: the host has one more worker with [k];
    the count went up by one with [k] and down by one on an exit; the list
    of running workers got the worker of a ['fork'] and lost the worker of
    an ['exit']. *)
Definition stepped (e : event) (s : WorkerCreator) (c : cluster)
    (r : completion unit * (WorkerCreator * cluster) * list effect) (k : bool)
  : Prop :=
  host_after r = (if k then forked c else c)
  ∧ _runningServicesCount (fields_after r)
    = _runningServicesCount s + (if k then 1 else 0) - (if is_exit e then 1 else 0)
  ∧ _runningWorkers (fields_after r)
    = match e with
      | EFork w => _runningWorkers s ++ [id w]
      | EExit w _ _ => without (id w) (_runningWorkers s)
      | _ => _runningWorkers s
      end
  ∧ dequeued s (fields_after r) c (output_of r) k.
End SupervisorSteps.


(** The running count is the number of workers of the host, which are
    told apart by their ids. *)
Definition accounted {Self} (count : Self → Z) (sys : system Self) : Prop :=
  host_ok (world sys).2
  ∧ count (world sys).1 = Z.of_nat (length (SupervisorSpec.alive (world sys).2)).


Module SupervisorRunsSpec.
Import Supervisor.

(** The list of running workers holds the workers whose ['fork'] the host
    has delivered and whose ['exit'] it has not. *)
Definition tracked (sys : system WorkerCreator) : Prop :=
  host_ok (world sys).2
  ∧ _runningWorkers (world sys).1 ≡ₚ created (world sys).2 ++ online (world sys).2.
End SupervisorRunsSpec.


Module RingSteps.
Import RingVariant.

(** What a callback of the first version did: with [k] it popped the
    queue, put what it got back at the head, wrote it to [SCRAPER] and
    forked the next worker of the host with that environment; without [k]
    it left the queue and the environment alone and forked nothing.  No
    worker is given a message listener. *)
Definition dequeued (s s' : WorkerCreator) (c : cluster) (out : list effect)
    (k : bool) : Prop :=
  workerLimit (_configuration s') = workerLimit (_configuration s)
  ∧ listen_ids out = []
  ∧ if k then
      _queue s' = (pop (_queue s)).2 :: (pop (_queue s)).1
      ∧ env (_configuration s')
        = obj_set "SCRAPER" (pop (_queue s)).2 (env (_configuration s))
      ∧ forks out = [Fork (ids c + 1) (env (_configuration s'))]
    else
      _queue s' = _queue s
      ∧ env (_configuration s') = env (_configuration s)
      ∧ forks out = [].

Definition stepped (e : event) (s : WorkerCreator) (c : cluster)
    (r : completion unit * (WorkerCreator * cluster) * list effect) (k : bool)
  : Prop :=
  completion_of r = Normal tt
  ∧ host_after r = (if k then forked c else c)
  ∧ _runningServicesCount (fields_after r)
    = _runningServicesCount s + (if k then 1 else 0) - (if is_exit e then 1 else 0)
  ∧ dequeued s (fields_after r) c (output_of r) k.
End RingSteps.

Module PoolSteps.
Import PoolVariant.

(** What a callback of the second version did: with [k] it forked the
    next worker of the host with the environment of the configuration and
    gave it a message listener; the configuration is as it was. *)
Definition stepped (e : event) (s : WorkerCreator) (c : cluster)
    (r : completion unit * (WorkerCreator * cluster) * list effect) (k : bool)
  : Prop :=
  completion_of r = Normal tt
  ∧ host_after r = (if k then forked c else c)
  ∧ _runningServicesCount (fields_after r)
    = _runningServicesCount s + (if k then 1 else 0) - (if is_exit e then 1 else 0)
  ∧ _configuration (fields_after r) = _configuration s
  ∧ forks (output_of r)
    = (if k then [Fork (ids c + 1) (default [] (env (_configuration s)))] else [])
  ∧ listen_ids (output_of r) = (if k then [ids c + 1] else []).
End PoolSteps.


Module SupervisorLifeSpec.
Import Supervisor.

(** The pool of workers is as full as it can be: the count is at the
    limit, or a worker has just been forked whose ['fork'] event will call
    [createWorker] again, or there is no job left. *)
Definition saturated (limit : Z) (sys : system WorkerCreator) : Prop :=
  workerLimit (_configuration (world sys).1) = limit
  ∧ _runningServicesCount (world sys).1 ≤ limit
  ∧ (state sys = Running →
     SupervisorSpec.suspended (world sys).1
     ∧ (_runningServicesCount (world sys).1 = limit
        ∨ forking (world sys).2 ≠ []
        ∨ _queue (world sys).1 = [])).
End SupervisorLifeSpec.


Module MainLifeSpec.

(** The pools of the two versions of [main.ts] are full, or a worker has
    just been forked whose ['fork'] event will call [createWorker]
    again. *)
Definition ring_saturated (limit : Z) (sys : system RingVariant.WorkerCreator)
  : Prop :=
  RingVariant.workerLimit (RingVariant._configuration (world sys).1) = limit
  ∧ RingVariant._runningServicesCount (world sys).1 ≤ limit
  ∧ (state sys = Running →
     RingVariant._runningServicesCount (world sys).1 = limit
     ∨ forking (world sys).2 ≠ []).

Definition pool_saturated (limit : Z) (sys : system PoolVariant.WorkerCreator)
  : Prop :=
  PoolVariant.workerLimit (PoolVariant._configuration (world sys).1) = Some limit
  ∧ PoolVariant._runningServicesCount (world sys).1 ≤ limit
  ∧ (state sys = Running →
     PoolVariant._runningServicesCount (world sys).1 = limit
     ∨ forking (world sys).2 ≠ []).

(** Neither the count nor the limit is above the number of CPUs. *)
Definition capped (cpus : nat) (s : PoolVariant.WorkerCreator) : Prop :=
  PoolVariant._runningServicesCount s ≤ Z.of_nat cpus
  ∧ match PoolVariant.workerLimit (PoolVariant._configuration s) with
    | Some l => l ≤ Z.of_nat cpus
    | None => True
    end.
End MainLifeSpec.


(** What [start] comes to in a worker process: the job, then the worker
    kills itself; a rejection of the job is reported and ends the process
    with status 1, but for [null], on which the report itself throws. *)
Definition worker_outcome {Self} (main : hook) (σ : Self * cluster)
  : completion unit * (Self * cluster) * list effect :=
  match main with
  | Resolves => (Normal tt, σ, [Kill])
  | Rejects VNull =>
      (Throw (TypeError "Cannot convert undefined or null to object"), σ, [])
  | Rejects e => (ProcessExit 1, σ, report_by_typeof e)
  end.

(** A host without a worker. *)
Definition deserted (c : cluster) : Prop :=
  forking c = [] ∧ created c = [] ∧ online c = [].


(** An effect that is a line of the log or the call of [setupMaster]:
    not a fork, a listener, a registration or a kill. *)
Definition quiet (x : effect) : bool :=
  match x with
  | ConsoleLog _ | SetupMaster _ _ => true
  | _ => false
  end.

(** * Properties *)

(** ** The monad and the helpers *)

Ltac proj := cbn beta iota delta [fst snd].

Ltac unfold_M :=
  cbv [mbind M_bind bind mret M_ret ret throw process_exit emit get_self get_pid
       modify_self console_log setupMaster fork messageReader on_message
       cluster_on log.standard log.process log.memory log.warning log.info
       log.error await readYamlConfiguration try_catch configureEventHandlers
       fst snd].

Ltac after_pair :=
  repeat match goal with
    | |- context [fields_after (?r, ?σ, ?out)] =>
        change (fields_after (r, σ, out)) with σ.1
    | |- context [host_after (?r, ?σ, ?out)] =>
        change (host_after (r, σ, out)) with σ.2
    | |- context [completion_of (?r, ?σ, ?out)] =>
        change (completion_of (r, σ, out)) with r
    | |- context [output_of (?r, ?σ, ?out)] =>
        change (output_of (r, σ, out)) with out
    end; cbn [fst snd].

Section LogFacts.
Context {Self : Type}.
Implicit Type σ : Self * cluster.

Lemma log_info_run text σ : log.info text σ = (Normal tt, σ, info_lines text).
Proof. reflexivity. Qed.

Lemma log_warning_run text σ :
  log.warning text σ = (Normal tt, σ, warning_lines text).
Proof. reflexivity. Qed.

Lemma log_error_run text σ : log.error text σ = (Normal tt, σ, error_lines text).
Proof. reflexivity. Qed.

Lemma log_process_run text σ :
  log.process text σ = (Normal tt, σ, [ConsoleLog ("[PROCESS]: " +:+ text)]).
Proof. reflexivity. Qed.
End LogFacts.

Section HelperFacts.
Context {Self : Type}.
Implicit Type σ : Self * cluster.

Lemma message_listener_run (communicator : ClusterCommunicator) σ :
  message_listener communicator σ
  = (Normal tt, σ,
     match message communicator with
     | Some m => if truthy (VStr m) then [ConsoleLog m] else []
     | None => []
     end).
Proof.
  unfold message_listener. destruct communicator as [a m].
  destruct a as [[]|], m as [m|]; simpl; try reflexivity;
    unfold_M; destruct (negb (String.eqb m "")); reflexivity.
Qed.

Lemma after_pair {A} (r : completion A) σ (out : list effect) :
  fields_after (r, σ, out) = σ.1 ∧ host_after (r, σ, out) = σ.2
  ∧ completion_of (r, σ, out) = r ∧ output_of (r, σ, out) = out.
Proof. done. Qed.

Lemma forks_app (out1 out2 : list effect) :
  forks (out1 ++ out2) = forks out1 ++ forks out2.
Proof. apply filter_app. Qed.
End HelperFacts.

Lemma pop_snoc (q : list value) (x : value) : pop (q ++ [x]) = (q, x).
Proof. unfold pop. by rewrite last_snoc, removelast_last. Qed.

Lemma pop_nil : pop [] = ([], VUndefined).
Proof. reflexivity. Qed.

Lemma obj_get_set (k : string) (v : value) (o : object) :
  obj_get k (obj_set k v o) = v.
Proof.
  induction o as [|[k' v'] o IH]; simpl.
  - by rewrite decide_True.
  - destruct (decide (k' = k)) as [->|Hne]; simpl.
    + by rewrite decide_True.
    + by rewrite decide_False.
Qed.

Lemma obj_get_set_ne (k k' : string) (v : value) (o : object) :
  k ≠ k' → obj_get k' (obj_set k v o) = obj_get k' o.
Proof.
  intros Hne. induction o as [|[k0 v0] o IH]; simpl.
  - by rewrite decide_False.
  - destruct (decide (k0 = k)) as [->|Hne0]; simpl.
    + by rewrite !decide_False.
    + destruct (decide (k0 = k')); [done | apply IH].
Qed.

(** ** The error classifier *)

Section ErrorHandlerFacts.
Context {Self : Type}.
Implicit Type σ : Self * cluster.

Lemma for_of_pairs (es : list (string * value)) σ :
  for_of es (λ '(key, value), log.error (key +:+ ": " +:+ to_string value)) σ
  = (Normal tt, σ,
     flat_map (λ '(k, v), error_lines (k +:+ ": " +:+ to_string v)) es).
Proof.
  induction es as [|[k v] es IH]; [done|].
  simpl for_of. unfold bind. rewrite log_error_run, IH. reflexivity.
Qed.

Lemma errorHandler_object repr es σ :
  errorHandler (VObj repr es) σ = (Normal tt, σ, report_by_typeof (VObj repr es)).
Proof.
  unfold errorHandler. simpl typeof. rewrite decide_True by done.
  unfold mbind, M_bind, bind. simpl Object_entries. unfold ret.
  rewrite for_of_pairs. reflexivity.
Qed.

Lemma errorHandler_report error σ :
  error ≠ VNull →
  errorHandler error σ = (Normal tt, σ, report_by_typeof error).
Proof.
  intros Hnull. destruct error; try done; try apply errorHandler_object;
    try destruct b; reflexivity.
Qed.

Lemma errorHandler_null σ :
  errorHandler VNull σ
  = (Throw (TypeError "Cannot convert undefined or null to object"), σ, []).
Proof. reflexivity. Qed.

Lemma errorHandler_frame error σ :
  fields_after (errorHandler error σ) = σ.1
  ∧ host_after (errorHandler error σ) = σ.2
  ∧ forks (output_of (errorHandler error σ)) = [].
Proof.
  destruct σ as [s c].
  assert (Hrep : forks (report_by_typeof error) = []).
  { destruct error as [| |[]| | | |repr es]; try done.
    cbn. induction es as [|[k v] es IH]; [done | apply IH]. }
  destruct error; try (rewrite errorHandler_report by done; done).
  by rewrite errorHandler_null.
Qed.

(** The [catch] clause of [start], whatever the body. *)
Lemma catch_report {A} (body : M Self A) σ e σ1 out1 :
  body σ = (Throw e, σ1, out1) →
  e ≠ VNull →
  try_catch body (λ error, errorHandler error;; process_exit 1) σ
  = (ProcessExit 1, σ1, out1 ++ report_by_typeof e).
Proof.
  intros Hbody Hnull. unfold try_catch. rewrite Hbody.
  unfold mbind, M_bind, bind. rewrite errorHandler_report by done.
  unfold process_exit. by rewrite app_nil_r.
Qed.

Lemma catch_null {A} (body : M Self A) σ σ1 out1 :
  body σ = (Throw VNull, σ1, out1) →
  try_catch body (λ error, errorHandler error;; process_exit 1) σ
  = (Throw (TypeError "Cannot convert undefined or null to object"), σ1, out1).
Proof.
  intros Hbody. unfold try_catch. rewrite Hbody.
  unfold mbind, M_bind, bind. rewrite errorHandler_null. by rewrite app_nil_r.
Qed.
End ErrorHandlerFacts.

(** ** The transition system *)

Section SystemFacts.
Context {Self : Type}.
Variable listener : event → M Self unit.
Implicit Type sys : system Self.

Lemma settle_eq tr (r : completion unit * (Self * cluster) * list effect) :
  settle tr r
  = mkSystem (status_of (completion_of r)) (fields_after r, host_after r)
             (tr ++ output_of r).
Proof. by destruct r as [[[[]|e|code] [s c]] out]. Qed.

Lemma running_or_stopped (st : status) : st = Running ∨ st ≠ Running.
Proof. destruct st; [by left | by right..]. Qed.

Lemma deliver_running sys e :
  state sys = Running →
  deliver listener sys e
  = settle (trace sys) (listener e ((world sys).1, host_step e (world sys).2)).
Proof. unfold deliver. by intros ->. Qed.

Lemma deliver_stopped sys e :
  state sys ≠ Running → deliver listener sys e = sys.
Proof. unfold deliver. by destruct (state sys). Qed.

Lemma run_app es1 es2 sys :
  run listener (es1 ++ es2) sys = run listener es2 (run listener es1 sys).
Proof. apply fold_left_app. Qed.

Lemma run_stopped es sys :
  state sys ≠ Running → run listener es sys = sys.
Proof.
  intros Hs. induction es as [|e es IH]; [done|].
  cbn. by rewrite deliver_stopped.
Qed.

Lemma valid_app es1 es2 sys :
  valid listener (es1 ++ es2) sys
  = valid listener es1 sys && valid listener es2 (run listener es1 sys).
Proof.
  revert sys. induction es1 as [|e es1 IH]; intros sys; [done|].
  cbn. destruct (state sys); [|done..].
  rewrite IH. by rewrite andb_assoc.
Qed.

Lemma trace_deliver sys e :
  ∃ out, trace (deliver listener sys e) = trace sys ++ out.
Proof.
  destruct (running_or_stopped (state sys)) as [Hs|Hs].
  - rewrite deliver_running, settle_eq by done. by eexists.
  - rewrite deliver_stopped by done. exists []. by rewrite app_nil_r.
Qed.

Lemma trace_run es sys :
  ∃ out, trace (run listener es sys) = trace sys ++ out.
Proof.
  revert sys. induction es as [|e es IH]; intros sys.
  - exists []. by rewrite app_nil_r.
  - destruct (IH (deliver listener sys e)) as [out2 H2].
    destruct (trace_deliver sys e) as [out1 H1].
    exists (out1 ++ out2). cbn. unfold run in H2. by rewrite H2, H1, app_assoc.
Qed.

(** A property that every delivery keeps holds all along a run. *)
Lemma run_invariant (P : system Self → Prop) :
  (∀ sys e, P sys → P (deliver listener sys e)) →
  ∀ es sys, P sys → P (run listener es sys).
Proof.
  intros Hstep es. induction es as [|e es IH]; intros sys HP; [done|].
  cbn. apply IH, Hstep, HP.
Qed.
End SystemFacts.

(** ** [Supervisor]: one callback at a time *)

Module SupervisorFacts.
Import Supervisor SupervisorSpec.

Implicit Type s : WorkerCreator.
Implicit Type c : cluster.

Lemma setService_fields_snoc s init x :
  _queue s = init ++ [x] →
  setService_fields s
  = mkSelf (_runningServicesCount s)
      (set_env (obj_set "SCRAPER" x (env (_configuration s))) (_configuration s))
      (if loop (_configuration s) then x :: init else init)
      x (_runningWorkers s) (_gen s) (main s).
Proof.
  intros Hq. unfold setService_fields. rewrite Hq, pop_snoc. simpl.
  by destruct (loop (_configuration s)).
Qed.

Lemma setService_fields_frame s :
  _runningServicesCount (setService_fields s) = _runningServicesCount s
  ∧ _runningWorkers (setService_fields s) = _runningWorkers s
  ∧ _gen (setService_fields s) = _gen s
  ∧ main (setService_fields s) = main s
  ∧ workerLimit (_configuration (setService_fields s)) = workerLimit (_configuration s)
  ∧ loop (_configuration (setService_fields s)) = loop (_configuration s).
Proof.
  unfold setService_fields. destruct (pop (_queue s)) as [q x]. cbn.
  destruct (loop (_configuration s)) eqn:E; cbn; rewrite ?E; done.
Qed.

Lemma createWorker_full s c :
  ¬ _runningServicesCount s < workerLimit (_configuration s) →
  createWorker (s, c) = (Normal tt, (s, c), full_lines s).
Proof.
  intros Hfull. unfold createWorker. unfold_M. proj.
  by rewrite bool_decide_false.
Qed.

Lemma createWorker_drained s c g :
  _runningServicesCount s < workerLimit (_configuration s) →
  _gen s = Some g →
  _queue s = [] →
  createWorker (s, c)
  = (ProcessExit 0,
     (match g with Completed => s | _ => set_gen (Some Completed) s end, c),
     ConsoleLog (pretty (length (_runningWorkers s))) :: finished_lines).
Proof.
  intros Hlt Hg Hq. unfold createWorker, gen_next_done. unfold_M. proj.
  rewrite bool_decide_true by done. proj. rewrite Hg, Hq.
  destruct g; reflexivity.
Qed.

Lemma createWorker_completed s c :
  _runningServicesCount s < workerLimit (_configuration s) →
  _gen s = Some Completed →
  createWorker (s, c)
  = (ProcessExit 0, (s, c),
     ConsoleLog (pretty (length (_runningWorkers s))) :: finished_lines).
Proof.
  intros Hlt Hg. unfold createWorker, gen_next_done. unfold_M. proj.
  rewrite bool_decide_true by done. proj. by rewrite Hg.
Qed.

Lemma createWorker_spawn s c g :
  _runningServicesCount s < workerLimit (_configuration s) →
  _gen s = Some g → g ≠ Completed →
  _queue s ≠ [] →
  createWorker (s, c)
  = (Normal tt, (spawned s, forked c),
     [ConsoleLog (pretty (length (_runningWorkers s)));
      Fork (ids c + 1) (env (_configuration (setService_fields s)));
      Listen (ids c + 1)]).
Proof.
  intros Hlt Hg Hne Hq. unfold createWorker, gen_next_done, setService. unfold_M.
  proj. rewrite bool_decide_true by done. proj. rewrite Hg.
  assert (Hlen : (0 < length (_queue s))%nat)
    by (destruct (_queue s); [done | simpl; lia]).
  destruct g; try done; rewrite bool_decide_true by done; reflexivity.
Qed.

Lemma createWorker_no_generator s c :
  _runningServicesCount s < workerLimit (_configuration s) →
  _gen s = None →
  createWorker (s, c)
  = (Throw (TypeError "Cannot read properties of undefined (reading 'next')"),
     (s, c), [ConsoleLog (pretty (length (_runningWorkers s)))]).
Proof.
  intros Hlt Hg. unfold createWorker, gen_next_done. unfold_M. proj.
  rewrite bool_decide_true by done. proj. by rewrite Hg.
Qed.

Lemma on_online_run w s c :
  ∃ out, on_online w (s, c) = (Normal tt, (s, c), out) ∧ forks out = [].
Proof. eexists. split; [reflexivity | done]. Qed.

(** The ['exit'] listener is the release of the worker followed by
    [createWorker]. *)
Lemma on_exit_run w code signal s c :
  on_exit w code signal (s, c)
  = (completion_of (createWorker (release (id w) s, c)),
     (fields_after (createWorker (release (id w) s, c)),
      host_after (createWorker (release (id w) s, c))),
     exit_lines w code signal
     ++ ConsoleLog ("Current queue length in exit: " +:+ pretty (length (_queue s)))
     :: output_of (createWorker (release (id w) s, c))).
Proof.
  unfold fields_after, host_after, completion_of, output_of.
  destruct (createWorker (release (id w) s, c)) as [[r [s' c']] out] eqn:E.
  unfold on_exit, exit_lines. destruct (crashed code); unfold_M;
    change (createWorker _) with (createWorker (release (id w) s, c));
    rewrite E; reflexivity.
Qed.

(** The ['fork'] listener records the worker and, unless the queue is
    empty, calls [createWorker]. *)
Lemma on_fork_run w s c :
  let s1 := set_runningWorkers (_runningWorkers s ++ [id w]) s in
  on_fork w (s, c)
  = match _queue s with
    | [] => (Normal tt, (s1, c), [])
    | _ =>
        (completion_of (createWorker (s1, c)),
         (fields_after (createWorker (s1, c)), host_after (createWorker (s1, c))),
         output_of (createWorker (s1, c))
         ++ match completion_of (createWorker (s1, c)) with
            | Normal _ => created_lines w
            | _ => []
            end)
    end.
Proof.
  intros s1. unfold fields_after, host_after, completion_of, output_of.
  destruct (createWorker (s1, c)) as [[r [s' c']] out] eqn:E.
  unfold on_fork, created_lines. unfold_M.
  cbn [set_runningWorkers _queue]. destruct (_queue s) as [|x q]; [done|].
  rewrite bool_decide_false by done.
  change (createWorker _) with (createWorker (s1, c)). rewrite E.
  destruct r as [[]|e|code]; cbn; rewrite ?app_nil_r; reflexivity.
Qed.

(** *** The bound on the running count *)

Lemma createWorker_bounded s c :
  count_bounded s →
  count_bounded (fields_after (createWorker (s, c)))
  ∧ workerLimit (_configuration (fields_after (createWorker (s, c))))
    = workerLimit (_configuration s).
Proof.
  unfold count_bounded. intros Hb.
  destruct (decide (_runningServicesCount s < workerLimit (_configuration s)))
    as [Hlt|Hfull]; [|by rewrite createWorker_full].
  destruct (_gen s) as [g|] eqn:Hg; [|by rewrite createWorker_no_generator].
  destruct (decide (g = Completed)) as [->|Hg'];
    [by rewrite createWorker_completed|].
  destruct (_queue s) as [|x q] eqn:Hq.
  - rewrite (createWorker_drained s c g) by done. by destruct g.
  - rewrite (createWorker_spawn s c g) by (done || by rewrite Hq).
    unfold fields_after, spawned. cbn.
    destruct (setService_fields_frame s) as (-> & _ & _ & _ & -> & _). lia.
Qed.

Lemma listener_bounded e s c :
  count_bounded s →
  count_bounded (fields_after (listener e (s, c)))
  ∧ workerLimit (_configuration (fields_after (listener e (s, c))))
    = workerLimit (_configuration s).
Proof.
  intros Hb. destruct e as [w|w|w code signal|w m]; cbn [listener].
  - rewrite on_fork_run. destruct (_queue s); [done|].
    apply (createWorker_bounded
             (set_runningWorkers (_runningWorkers s ++ [id w]) s) c Hb).
  - done.
  - rewrite on_exit_run.
    apply (createWorker_bounded (release (id w) s) c).
    unfold count_bounded, release in *. cbn. lia.
  - by rewrite message_listener_run.
Qed.

(** *** From [start] to the first [createWorker] *)

Lemma start_master_run config main pid :
  let σ0 := (configured config Resolves main, cluster0 pid) in
  start true (Parsed config) (constructor Resolves main, cluster0 pid)
  = (completion_of (createWorker σ0),
     (fields_after (createWorker σ0), host_after (createWorker σ0)),
     preamble config pid ++ output_of (createWorker σ0)
     ++ match completion_of (createWorker σ0) with
        | Normal _ => registrations
        | _ => []
        end).
Proof.
  intros σ0. unfold fields_after, host_after, completion_of, output_of.
  destruct (createWorker σ0) as [[r [s' c']] out] eqn:E.
  assert (Hr : ∀ e, r ≠ Throw e).
  { intros e ->. subst σ0. revert E.
    destruct (decide (0 < WORKER_LIMIT config)) as [Hlt|Hfull];
      [|by rewrite createWorker_full].
    destruct (QUEUE config) as [|x q] eqn:Hq.
    - rewrite (createWorker_drained _ _ SuspendedStart); try done.
      cbn. by rewrite Hq.
    - rewrite (createWorker_spawn _ _ SuspendedStart); try done.
      cbn. by rewrite Hq. }
  unfold start, createMasterProcess, setConfig, constructor. unfold_M.
  cbn -[createWorker errorHandler String.append].
  change (createWorker _) with (createWorker σ0). rewrite E.
  destruct r as [[]|e|code]; [| by destruct (Hr e) |];
    cbn; rewrite ?app_nil_r; reflexivity.
Qed.

Lemma start_master_rejected config e main pid :
  let σ1 := (configured config (Rejects e) main, cluster0 pid) in
  start true (Parsed config) (constructor (Rejects e) main, cluster0 pid)
  = match e with
    | VNull =>
        (Throw (TypeError "Cannot convert undefined or null to object"), σ1,
         [SetupMaster (ARGS config) (SILENT_MODE config)])
    | _ =>
        (ProcessExit 1, σ1,
         SetupMaster (ARGS config) (SILENT_MODE config) :: report_by_typeof e)
    end.
Proof.
  intros σ1. unfold start.
  assert (Hbody : createMasterProcess (Parsed config)
                    (constructor (Rejects e) main, cluster0 pid)
                  = (Throw e, σ1, [SetupMaster (ARGS config) (SILENT_MODE config)])).
  { unfold createMasterProcess, setConfig, constructor. unfold_M. reflexivity. }
  destruct e; try (by rewrite (catch_report _ _ _ _ _ Hbody)).
  by rewrite (catch_null _ _ _ _ Hbody).
Qed.

Lemma start_unreadable e b main pid :
  start true (Unreadable e) (constructor b main, cluster0 pid)
  = (ProcessExit 0, (constructor b main, cluster0 pid),
     error_lines "Cannot load initial config.").
Proof. reflexivity. Qed.

(** *** The bound along a run *)

Lemma boot_bounded config b main pid :
  0 ≤ WORKER_LIMIT config →
  let sys := boot (start true (Parsed config)) (constructor b main) pid in
  count_bounded (world sys).1
  ∧ workerLimit (_configuration (world sys).1) = WORKER_LIMIT config.
Proof.
  intros Hlimit. unfold boot. rewrite settle_eq. cbn [world fst].
  destruct b as [|e].
  - rewrite start_master_run. cbn [fields_after fst snd].
    by apply (createWorker_bounded (configured config Resolves main)).
  - rewrite start_master_rejected. by destruct e.
Qed.

Lemma deliver_bounded limit (sys : system WorkerCreator) e :
  count_bounded (world sys).1
  ∧ workerLimit (_configuration (world sys).1) = limit →
  count_bounded (world (deliver listener sys e)).1
  ∧ workerLimit (_configuration (world (deliver listener sys e)).1) = limit.
Proof.
  intros [Hb <-]. destruct (running_or_stopped (state sys)) as [Hs|Hs];
    [|by rewrite deliver_stopped].
  rewrite deliver_running, settle_eq by done. cbn [world fst].
  by apply listener_bounded.
Qed.

Lemma run_bounded config b main pid es :
  0 ≤ WORKER_LIMIT config →
  let sys := run listener es
               (boot (start true (Parsed config)) (constructor b main) pid) in
  _runningServicesCount (world sys).1 ≤ WORKER_LIMIT config
  ∧ workerLimit (_configuration (world sys).1) = WORKER_LIMIT config.
Proof.
  intros Hlimit sys.
  cut (count_bounded (world sys).1
       ∧ workerLimit (_configuration (world sys).1) = WORKER_LIMIT config).
  { unfold count_bounded. intros [H1 H2]. by rewrite H2 in H1. }
  apply (run_invariant listener
           (λ sys, count_bounded (world sys).1
                   ∧ workerLimit (_configuration (world sys).1) = WORKER_LIMIT config)).
  - intros sys' e. apply deliver_bounded.
  - by apply boot_bounded.
Qed.
(** *** Draining a queue without looping *)

Lemma setService_fields_length s :
  _queue s ≠ [] → loop (_configuration s) = false →
  S (length (_queue (setService_fields s))) = length (_queue s).
Proof.
  intros Hq Hloop. destruct (exists_last Hq) as (init & x & Hsnoc).
  rewrite (setService_fields_snoc s init x Hsnoc), Hsnoc, Hloop.
  cbn. rewrite length_app. cbn. lia.
Qed.

Lemma createWorker_moves s c :
  suspended s →
  loop (_configuration s) = false →
  _runningServicesCount s ≤ workerLimit (_configuration s) →
  ∃ k, moves s c (createWorker (s, c)) k
       ∧ (_runningServicesCount s < workerLimit (_configuration s) →
          completion_of (createWorker (s, c)) = Normal tt → k = true).
Proof.
  intros (g & Hg & Hne) Hloop Hb.
  assert (Hcase : _queue s = [] ∨ _queue s ≠ [])
    by (destruct (_queue s); [by left | by right]).
  destruct (decide (_runningServicesCount s < workerLimit (_configuration s)))
    as [Hlt|Hfull]; [destruct Hcase as [Hq|Hq]|].
  - exists false. rewrite (createWorker_drained s c g) by done.
    unfold moves, fields_after, host_after, completion_of, output_of. cbn.
    destruct g; try done; cbn; rewrite ?Hq; done.
  - exists true. rewrite (createWorker_spawn s c g) by done.
    pose proof (setService_fields_length s Hq Hloop) as Hlen.
    destruct (setService_fields_frame s) as (Hc & _ & _ & _ & Hl & Hlp).
    unfold moves, fields_after, host_after, completion_of, output_of, spawned.
    cbn. rewrite Hc, Hl, Hlp. repeat split; try done; try lia.
    by exists SuspendedYield.
  - exists false. rewrite createWorker_full by done.
    unfold moves, fields_after, host_after, completion_of, output_of. cbn.
    repeat split; try done; try lia. by exists g.
Qed.
Lemma forks_exit_lines w code signal : forks (exit_lines w code signal) = [].
Proof. unfold exit_lines. by destruct (crashed code). Qed.

Lemma listener_moves e s c :
  suspended s →
  loop (_configuration s) = false →
  _runningServicesCount s ≤ workerLimit (_configuration s) →
  ∃ k, moves s c (listener e (s, c)) k
       ∧ (∀ w code signal, e = EExit w code signal →
          completion_of (listener e (s, c)) = Normal tt → k = true).
Proof.
  intros Hgen Hloop Hb. destruct e as [w|w|w code signal|w m]; cbn [listener].
  - rewrite on_fork_run. cbn zeta.
    set (s1 := set_runningWorkers (_runningWorkers s ++ [id w]) s).
    destruct (_queue s) as [|x q] eqn:Hq.
    + exists false. split; [|done].
      unfold moves, fields_after, host_after, completion_of, output_of. cbn.
      by rewrite Hq.
    + destruct (createWorker_moves s1 c Hgen Hloop Hb)
        as (k & (H1 & H2 & H3 & H4 & H5 & H6 & H7) & _).
      exists k. split; [|done]. revert H1 H2 H3 H4 H5 H6 H7.
      unfold moves, fields_after, host_after, completion_of, output_of.
      cbn [fst snd]. rewrite forks_app, length_app.
      change (_queue s1) with (_queue s). rewrite Hq.
      intros H1 H2 H3 H4 H5 H6 H7. repeat split; try done.
      rewrite H2. by destruct (createWorker (s1, c)).1.1, k.
  - exists false. split; [|done].
    unfold moves, fields_after, host_after, completion_of, output_of. by cbn.
  - rewrite on_exit_run.
    assert (Hb' : _runningServicesCount (release (id w) s)
                  ≤ workerLimit (_configuration (release (id w) s)))
      by (unfold release; cbn; lia).
    destruct (createWorker_moves (release (id w) s) c Hgen Hloop Hb')
      as (k & (H1 & H2 & H3 & H4 & H5 & H6 & H7) & Hk).
    exists k. split.
    + revert H1 H2 H3 H4 H5 H6 H7.
      unfold moves, fields_after, host_after, completion_of, output_of.
      cbn [fst snd]. rewrite forks_app, forks_exit_lines. by cbn.
    + intros _ _ _ _ Hr. apply Hk; [unfold release; cbn; lia | done].
  - rewrite message_listener_run. exists false. split; [|done].
    unfold moves, fields_after, host_after, completion_of, output_of. cbn.
    repeat split; try done.
    destruct (message m) as [m'|]; [|done]. by destruct (negb _).
Qed.
Lemma alive_forked c : alive (forked c) ≠ [].
Proof. unfold alive, forked. cbn. by destruct (forking c). Qed.

Lemma alive_host_step e c :
  alive c ≠ [] → (∀ w code signal, e ≠ EExit w code signal) →
  alive (host_step e c) ≠ [].
Proof.
  unfold alive. intros Hc He.
  destruct e as [w|w|w code signal|w m]; cbn.
  - intros H. apply app_eq_nil in H as [_ H]. apply app_eq_nil in H as [H _].
    by destruct (created c).
  - intros H. apply app_eq_nil in H as [_ H]. apply app_eq_nil in H as [_ H].
    by destruct (online c).
  - by destruct (He w code signal).
  - done.
Qed.

(** One delivery: the invariant is kept, and at most one job leaves the
    queue for one new worker. *)
Lemma deliver_draining limit N sys e :
  draining limit N sys → state sys = Running →
  ∃ k : bool,
    draining limit N (deliver listener sys e)
    ∧ (world (deliver listener sys e)).2
      = (if k then forked (host_step e (world sys).2) else host_step e (world sys).2)
    ∧ (length (_queue (world (deliver listener sys e)).1) + (if k then 1 else 0))%nat
      = length (_queue (world sys).1).
Proof.
  intros (Hlimit & Hloop & Hb & HN & Hstate) Hrun. rewrite Hrun in Hstate.
  destruct Hstate as [Hgen Halive].
  rewrite deliver_running, settle_eq by done.
  destruct sys as [st [s c] tr]. cbn [world trace state fst snd] in *. subst limit.
  destruct (listener_moves e s (host_step e c) Hgen Hloop Hb)
    as (k & (H1 & H2 & H3 & H4 & H5 & H6 & H7) & Hk).
  exists k. split; [|by split].
  unfold draining. cbn [world trace state fst snd].
  rewrite forks_app, length_app, H2, H4, H5.
  repeat split; try done; try lia.
  destruct (completion_of (listener e (s, host_step e c))) as [[]|err|code] eqn:Hc;
    cbn [status_of]; [|done|by destruct H7 as (? & ? & _)].
  split; [done|]. rewrite H1. destruct k; [apply alive_forked|].
  apply alive_host_step; [done|].
  intros w code signal ->. by specialize (Hk w code signal eq_refl eq_refl).
Qed.

Lemma draining_stopped limit N sys e :
  draining limit N sys → draining limit N (deliver listener sys e).
Proof.
  intros Hd. destruct (running_or_stopped (state sys)) as [Hs|Hs].
  - by destruct (deliver_draining limit N sys e Hd Hs) as (k & Hd' & _).
  - by rewrite deliver_stopped.
Qed.

Lemma run_draining limit N es sys :
  draining limit N sys → draining limit N (run listener es sys).
Proof.
  apply (run_invariant listener (draining limit N)).
  intros sys' e. apply draining_stopped.
Qed.
(** *** Every run ends *)

Lemma length_without w (l : list Z) : (length (without w l) ≤ length l)%nat.
Proof. apply length_filter. Qed.

Lemma length_without_lt w (l : list Z) :
  w ∈ l → (length (without w l) < length l)%nat.
Proof. intros Hw. apply (length_filter_lt _ _ w Hw). by intros H. Qed.

(** The host moves a worker one stage on with each event of its life. *)
Lemma host_step_measure e c :
  enabled e c = true →
  (3 * length (forking (host_step e c)) + 2 * length (created (host_step e c))
   + length (online (host_step e c)) + (if lifecycle e then 1 else 0)
   ≤ 3 * length (forking c) + 2 * length (created c) + length (online c))%nat.
Proof.
  intros He. destruct e as [w|w|w code signal|w m]; cbn in *;
    apply bool_decide_eq_true in He; rewrite ?length_app; cbn.
  - pose proof (length_without_lt _ _ He). lia.
  - pose proof (length_without_lt _ _ He). lia.
  - pose proof (length_without (id w) (created c)).
    pose proof (length_without (id w) (online c)).
    apply elem_of_app in He as [He|He];
      pose proof (length_without_lt _ _ He); lia.
  - lia.
Qed.

Lemma deliver_measure limit N sys e :
  draining limit N sys → state sys = Running →
  enabled e (world sys).2 = true →
  (measure (deliver listener sys e) + (if lifecycle e then 1 else 0)
   ≤ measure sys)%nat.
Proof.
  intros Hd Hrun He.
  destruct (deliver_draining limit N sys e Hd Hrun) as (k & _ & Hhost & Hq).
  pose proof (host_step_measure e _ He) as Hm.
  unfold measure. rewrite Hhost.
  destruct k; cbn [forked forking created online];
    rewrite ?length_app; cbn [length]; lia.
Qed.

Lemma valid_measure limit N es sys :
  draining limit N sys → valid listener es sys = true →
  (length (List.filter lifecycle es) + measure (run listener es sys)
   ≤ measure sys)%nat.
Proof.
  revert sys. induction es as [|e es IH]; intros sys Hd Hv; [cbn; lia|].
  cbn in Hv. destruct (state sys) eqn:Hrun; [|done..].
  apply andb_true_iff in Hv as [He Hv].
  pose proof (deliver_measure limit N sys e Hd Hrun He) as Hm.
  pose proof (IH _ (draining_stopped limit N sys e Hd) Hv) as IH'.
  unfold run in *. cbn [fold_left List.filter].
  destruct (lifecycle e); cbn [length]; lia.
Qed.

(** A running coordinator is never stuck: the host has an event of the
    life of some worker to deliver. *)
Lemma draining_progress limit N sys :
  draining limit N sys → state sys = Running →
  ∃ e, lifecycle e = true ∧ enabled e (world sys).2 = true.
Proof.
  intros (_ & _ & _ & _ & Hstate) Hrun. rewrite Hrun in Hstate.
  destruct Hstate as [_ Halive]. unfold alive in Halive.
  destruct (forking (world sys).2) as [|w ws] eqn:Hf.
  - destruct (created (world sys).2) as [|w ws] eqn:Hc.
    + destruct (online (world sys).2) as [|w ws] eqn:Ho; [done|].
      exists (EExit (mkWorker w 0) (Some 0) None). split; [done|].
      cbn. rewrite Hc, Ho. apply bool_decide_eq_true. set_solver.
    + exists (EExit (mkWorker w 0) (Some 0) None). split; [done|].
      cbn. rewrite Hc. apply bool_decide_eq_true. set_solver.
  - exists (EFork (mkWorker w 0)). split; [done|].
    cbn. rewrite Hf. apply bool_decide_eq_true. set_solver.
Qed.

Lemma draining_terminates limit N n sys :
  (measure sys ≤ n)%nat → draining limit N sys →
  ∃ es, valid listener es sys = true
        ∧ state (run listener es sys) = Exited 0.
Proof.
  revert sys. induction n as [|n IH]; intros sys Hn Hd.
  - destruct (state sys) as [|code|err] eqn:Hrun.
    + destruct (draining_progress limit N sys Hd Hrun) as (e & Hl & He).
      pose proof (deliver_measure limit N sys e Hd Hrun He) as Hm.
      rewrite Hl in Hm. lia.
    + exists []. split; [done|]. cbn. rewrite Hrun.
      destruct Hd as (_ & _ & _ & _ & Hstate). rewrite Hrun in Hstate.
      by destruct Hstate as [-> _].
    + destruct Hd as (_ & _ & _ & _ & Hstate). by rewrite Hrun in Hstate.
  - destruct (state sys) as [|code|err] eqn:Hrun.
    + destruct (draining_progress limit N sys Hd Hrun) as (e & Hl & He).
      pose proof (deliver_measure limit N sys e Hd Hrun He) as Hm.
      rewrite Hl in Hm.
      destruct (IH (deliver listener sys e)) as (es & Hv & Hend);
        [lia | by apply draining_stopped |].
      exists (e :: es). split; [|done]. cbn. by rewrite Hrun, He, Hv.
    + exists []. split; [done|]. cbn. rewrite Hrun.
      destruct Hd as (_ & _ & _ & _ & Hstate). rewrite Hrun in Hstate.
      by destruct Hstate as [-> _].
    + destruct Hd as (_ & _ & _ & _ & Hstate). by rewrite Hrun in Hstate.
Qed.
Lemma boot_draining config main pid :
  default false (LOOP config) = false →
  1 ≤ WORKER_LIMIT config →
  let sys0 := boot (start true (Parsed config)) (constructor Resolves main) pid in
  draining (WORKER_LIMIT config) (length (QUEUE config)) sys0
  ∧ (measure sys0 ≤ 4 * length (QUEUE config))%nat.
Proof.
  intros Hloop Hlimit sys0. subst sys0. unfold boot.
  rewrite start_master_run, settle_eq. cbn zeta.
  set (s0 := configured config Resolves main).
  assert (Hgen : suspended s0) by (by exists SuspendedStart).
  assert (Hb : _runningServicesCount s0 ≤ workerLimit (_configuration s0))
    by (cbn; lia).
  destruct (createWorker_moves s0 (cluster0 pid) Hgen Hloop Hb)
    as (k & (H1 & H2 & H3 & H4 & H5 & H6 & H7) & Hk).
  assert (Hlt : _runningServicesCount s0 < workerLimit (_configuration s0))
    by (cbn; lia).
  specialize (Hk Hlt).
  assert (HN : length (_queue s0) = length (QUEUE config))
    by (cbn; by rewrite length_fmap).
  unfold draining, measure. cbn [world trace state]. after_pair.
  rewrite app_nil_l, !forks_app, !length_app, H1, H2, H4, H5.
  change (forks (preamble config pid)) with (@nil effect).
  unfold fields_after, host_after, completion_of, output_of in *.
  destruct (createWorker (s0, cluster0 pid)) as [[[[]|err|code] [s' c']] out];
    cbn [fst snd status_of length forks] in *; [|done|].
  - rewrite (Hk eq_refl) in *. cbn [forked forking created online cluster0].
    change (forks registrations) with (@nil effect). cbn [length app].
    repeat split; try done; try lia.
  - destruct H7 as (-> & Hq & ->). cbn [forking created online cluster0 length].
    rewrite Hq in *. cbn in *. repeat split; try done; lia.
Qed.
(** *** The generator *)

Lemma gen_next_done_yield s c :
  suspended s → _queue s ≠ [] →
  gen_next_done (s, c)
  = (Normal false, (set_gen (Some SuspendedYield) (setService_fields s), c), []).
Proof.
  intros (g & Hg & Hne) Hq. unfold gen_next_done, setService. unfold_M.
  rewrite Hg.
  assert (Hlen : (0 < length (_queue s))%nat)
    by (destruct (_queue s); [done | simpl; lia]).
  destruct g; try done; by rewrite bool_decide_true.
Qed.

Lemma gen_next_done_empty s c :
  suspended s → _queue s = [] →
  gen_next_done (s, c) = (Normal true, (set_gen (Some Completed) s, c), []).
Proof.
  intros (g & Hg & Hne) Hq. unfold gen_next_done. unfold_M. rewrite Hg, Hq.
  by destruct g.
Qed.

Lemma nexts_loop n s c :
  loop (_configuration s) = true → _queue s ≠ [] → suspended s →
  ∃ s', nexts n (s, c) = (Normal (replicate n false), (s', c), [])
        ∧ _queue s' ≡ₚ _queue s
        ∧ loop (_configuration s') = true
        ∧ suspended s'.
Proof.
  revert s. induction n as [|n IH]; intros s Hloop Hq Hgen.
  - by exists s.
  - destruct (exists_last Hq) as (init & x & Hsnoc).
    set (s1 := set_gen (Some SuspendedYield) (setService_fields s)).
    assert (Hq1 : _queue s1 = x :: init).
    { subst s1. cbn. by rewrite (setService_fields_snoc s init x Hsnoc), Hloop. }
    destruct (IH s1) as (s' & Hrun & Hperm & Hloop' & Hgen').
    + subst s1. cbn. by destruct (setService_fields_frame s) as (_ & _ & _ & _ & _ & ->).
    + by rewrite Hq1.
    + by exists SuspendedYield.
    + exists s'. split; [|split; [|done]].
      * cbn [nexts]. cbv [mbind M_bind bind].
        rewrite gen_next_done_yield by done. fold s1. rewrite Hrun. reflexivity.
      * rewrite Hperm, Hq1, Hsnoc. apply Permutation_cons_append.
Qed.

(** *** A running coordinator has its generator suspended *)

Lemma createWorker_suspended s c :
  suspended s →
  match completion_of (createWorker (s, c)) with
  | Normal _ => suspended (fields_after (createWorker (s, c)))
  | Throw _ => False
  | ProcessExit code => code = 0 ∧ _queue s = []
  end.
Proof.
  intros Hgen. pose proof Hgen as (g & Hg & Hne).
  assert (Hcase : _queue s = [] ∨ _queue s ≠ [])
    by (destruct (_queue s); [by left | by right]).
  destruct (decide (_runningServicesCount s < workerLimit (_configuration s)))
    as [Hlt|Hfull]; [destruct Hcase as [Hq|Hq]|].
  - by rewrite (createWorker_drained s c g).
  - rewrite (createWorker_spawn s c g) by done. by exists SuspendedYield.
  - by rewrite createWorker_full.
Qed.

Lemma listener_suspended e s c :
  suspended s →
  match completion_of (listener e (s, c)) with
  | Normal _ => suspended (fields_after (listener e (s, c)))
  | Throw _ => False
  | ProcessExit code => code = 0 ∧ _queue s = []
  end.
Proof.
  intros Hgen. destruct e as [w|w|w code signal|w m]; cbn [listener].
  - rewrite on_fork_run. cbn zeta. destruct (_queue s) eqn:Hq; [done|].
    after_pair. rewrite <- Hq.
    apply (createWorker_suspended
             (set_runningWorkers (_runningWorkers s ++ [id w]) s) c Hgen).
  - done.
  - rewrite on_exit_run. after_pair.
    apply (createWorker_suspended (release (id w) s) c Hgen).
  - by rewrite message_listener_run.
Qed.

Lemma boot_suspended config b main pid :
  let sys := boot (start true (Parsed config)) (constructor b main) pid in
  match state sys with
  | Running => suspended (world sys).1
  | Exited _ => True
  | Faulted _ => b = Rejects VNull
  end.
Proof.
  intros sys. subst sys. unfold boot. rewrite settle_eq. destruct b as [|e].
  - rewrite start_master_run. after_pair. cbn [state world fst].
    pose proof (createWorker_suspended (configured config Resolves main)
                  (cluster0 pid)) as H.
    assert (Hgen : suspended (configured config Resolves main))
      by (by exists SuspendedStart).
    destruct (completion_of (createWorker _)); cbn [status_of];
      [by apply H | by destruct (H Hgen) | done].
  - rewrite start_master_rejected. by destruct e.
Qed.

Lemma run_suspended config b main pid es :
  let sys := run listener es
               (boot (start true (Parsed config)) (constructor b main) pid) in
  state sys = Running → suspended (world sys).1.
Proof.
  apply (run_invariant listener
           (λ sys, state sys = Running → suspended (world sys).1)).
  - intros sys e Hsys. destruct (running_or_stopped (state sys)) as [Hs|Hs];
      [|by rewrite deliver_stopped].
    rewrite deliver_running, settle_eq by done. cbn [state world fst].
    pose proof (listener_suspended e (world sys).1 (host_step e (world sys).2)
                  (Hsys Hs)) as H.
    by destruct (completion_of (listener e _)).
  - pose proof (boot_suspended config b main pid) as H. cbn zeta in H.
    intros Hrun. by rewrite Hrun in H.
Qed.
(** *** A queue that loops is never drained *)

Lemma createWorker_looping s c (q0 : list value) :
  q0 ≠ [] → loop (_configuration s) = true → suspended s → _queue s ≡ₚ q0 →
  completion_of (createWorker (s, c)) = Normal tt
  ∧ loop (_configuration (fields_after (createWorker (s, c)))) = true
  ∧ suspended (fields_after (createWorker (s, c)))
  ∧ _queue (fields_after (createWorker (s, c))) ≡ₚ q0.
Proof.
  intros Hq0 Hloop Hgen Hperm. pose proof Hgen as (g & Hg & Hne).
  assert (Hq : _queue s ≠ []).
  { intros Hnil. rewrite Hnil in Hperm. by apply Permutation_nil in Hperm. }
  destruct (decide (_runningServicesCount s < workerLimit (_configuration s)))
    as [Hlt|Hfull]; [|by rewrite createWorker_full].
  rewrite (createWorker_spawn s c g) by done. after_pair.
  destruct (exists_last Hq) as (init & x & Hsnoc).
  unfold spawned. rewrite (setService_fields_snoc s init x Hsnoc), Hloop. cbn.
  repeat split; try done; [by exists SuspendedYield|].
  rewrite <- Hperm, Hsnoc. apply Permutation_cons_append.
Qed.

Lemma listener_looping e s c (q0 : list value) :
  q0 ≠ [] → loop (_configuration s) = true → suspended s → _queue s ≡ₚ q0 →
  completion_of (listener e (s, c)) = Normal tt
  ∧ loop (_configuration (fields_after (listener e (s, c)))) = true
  ∧ suspended (fields_after (listener e (s, c)))
  ∧ _queue (fields_after (listener e (s, c))) ≡ₚ q0.
Proof.
  intros Hq0 Hloop Hgen Hperm. destruct e as [w|w|w code signal|w m]; cbn [listener].
  - rewrite on_fork_run. cbn zeta. destruct (_queue s) eqn:Hq.
    { by apply Permutation_nil in Hperm. }
    after_pair. rewrite <- Hq in Hperm.
    by apply (createWorker_looping
                (set_runningWorkers (_runningWorkers s ++ [id w]) s) c q0).
  - done.
  - rewrite on_exit_run. after_pair.
    by apply (createWorker_looping (release (id w) s) c q0).
  - by rewrite message_listener_run.
Qed.

Lemma run_looping config main pid es :
  default false (LOOP config) = true → QUEUE config ≠ [] →
  looping (VStr <$> QUEUE config)
    (run listener es
       (boot (start true (Parsed config)) (constructor Resolves main) pid)).
Proof.
  intros Hloop Hq.
  assert (Hq0 : VStr <$> QUEUE config ≠ []) by (by destruct (QUEUE config)).
  apply (run_invariant listener (looping (VStr <$> QUEUE config))).
  - intros sys e (Hrun & Hl & Hgen & Hperm).
    rewrite deliver_running, settle_eq by done.
    destruct (listener_looping e (world sys).1 (host_step e (world sys).2) _
                Hq0 Hl Hgen Hperm) as (Hc & Hl' & Hgen' & Hperm').
    unfold looping. cbn [state world fst]. by rewrite Hc.
  - unfold boot. rewrite start_master_run, settle_eq. cbn zeta.
    assert (Hgen : suspended (configured config Resolves main))
      by (by exists SuspendedStart).
    destruct (createWorker_looping (configured config Resolves main) (cluster0 pid)
                (VStr <$> QUEUE config) Hq0 Hloop Hgen (reflexivity _))
      as (Hc & Hl' & Hgen' & Hperm').
    unfold looping. after_pair. cbn [state world fst]. by rewrite Hc.
Qed.
End SupervisorFacts.

(** ** [RingVariant] *)

Module RingFacts.
Import RingVariant RingSpec.

Implicit Type s : WorkerCreator.
Implicit Type c : cluster.

Lemma ring_queueManager_fields_snoc s init x :
  _queue s = init ++ [x] →
  queueManager_fields s
  = mkSelf (_runningServicesCount s)
      (set_env (obj_set "SCRAPER" x (env (_configuration s))) (_configuration s))
      (x :: init) (_runningService s) (main s).
Proof. intros Hq. unfold queueManager_fields. by rewrite Hq, pop_snoc. Qed.

Lemma ring_queueManager_fields_frame s :
  _runningServicesCount (queueManager_fields s) = _runningServicesCount s
  ∧ workerLimit (_configuration (queueManager_fields s))
    = workerLimit (_configuration s).
Proof. unfold queueManager_fields. by destruct (pop (_queue s)). Qed.

Lemma ring_createWorker_full s c :
  ¬ _runningServicesCount s < workerLimit (_configuration s) →
  createWorker (s, c) = (Normal tt, (s, c), full_lines s).
Proof.
  intros Hfull. unfold createWorker. unfold_M. by rewrite bool_decide_false.
Qed.

Lemma ring_createWorker_spawn s c :
  _runningServicesCount s < workerLimit (_configuration s) →
  createWorker (s, c)
  = (Normal tt, (spawned s, forked c),
     [Fork (ids c + 1) (env (_configuration (queueManager_fields s)))]).
Proof.
  intros Hlt. unfold createWorker, queueManager. unfold_M.
  by rewrite bool_decide_true.
Qed.

Lemma ring_createWorker_bounded s c :
  count_bounded s →
  count_bounded (fields_after (createWorker (s, c)))
  ∧ workerLimit (_configuration (fields_after (createWorker (s, c))))
    = workerLimit (_configuration s).
Proof.
  unfold count_bounded. intros Hb.
  destruct (decide (_runningServicesCount s < workerLimit (_configuration s)))
    as [Hlt|Hfull]; [|by rewrite ring_createWorker_full].
  rewrite ring_createWorker_spawn by done. unfold fields_after, spawned. cbn.
  destruct (ring_queueManager_fields_frame s) as [-> ->]. lia.
Qed.

Lemma ring_createWorker_returns s c :
  completion_of (createWorker (s, c)) = Normal tt.
Proof.
  destruct (decide (_runningServicesCount s < workerLimit (_configuration s)))
    as [Hlt|Hfull]; [by rewrite ring_createWorker_spawn | by rewrite ring_createWorker_full].
Qed.

Lemma ring_on_fork_run w s c :
  on_fork w (s, c)
  = (Normal tt,
     (fields_after (createWorker (s, c)), host_after (createWorker (s, c))),
     output_of (createWorker (s, c)) ++ created_lines w).
Proof.
  pose proof (ring_createWorker_returns s c) as Hr.
  unfold fields_after, host_after, completion_of, output_of in *.
  unfold on_fork, created_lines. unfold_M.
  destruct (createWorker (s, c)) as [[r [s' c']] out]. cbn in Hr. by subst r.
Qed.

Lemma ring_on_exit_run w code signal s c :
  let s1 := set_count (_runningServicesCount s - 1) s in
  on_exit w code signal (s, c)
  = (Normal tt,
     (fields_after (createWorker (s1, c)), host_after (createWorker (s1, c))),
     exit_lines w code signal ++ output_of (createWorker (s1, c))).
Proof.
  intros s1. pose proof (ring_createWorker_returns s1 c) as Hr.
  unfold fields_after, host_after, completion_of, output_of in *.
  destruct (createWorker (s1, c)) as [[r [s' c']] out] eqn:E. cbn in Hr. subst r.
  unfold on_exit, exit_lines. destruct (crashed code); unfold_M;
    change (createWorker _) with (createWorker (s1, c)); rewrite E; reflexivity.
Qed.

Lemma ring_listener_bounded e s c :
  count_bounded s →
  count_bounded (fields_after (listener e (s, c)))
  ∧ workerLimit (_configuration (fields_after (listener e (s, c))))
    = workerLimit (_configuration s).
Proof.
  intros Hb. destruct e as [w|w|w code signal|w m]; cbn [listener].
  - rewrite ring_on_fork_run. by apply ring_createWorker_bounded.
  - done.
  - rewrite ring_on_exit_run.
    apply (ring_createWorker_bounded (set_count (_runningServicesCount s - 1) s) c).
    unfold count_bounded in *. cbn. lia.
  - done.
Qed.

Lemma ring_start_master_run config main pid :
  let σ0 := (configured config Resolves main, cluster0 pid) in
  start true (Parsed config) (constructor Resolves main, cluster0 pid)
  = (Normal tt,
     (fields_after (createWorker σ0), host_after (createWorker σ0)),
     preamble config pid ++ output_of (createWorker σ0) ++ registrations).
Proof.
  intros σ0. pose proof (ring_createWorker_returns σ0.1 σ0.2) as Hr.
  unfold fields_after, host_after, completion_of, output_of in *.
  change (σ0.1, σ0.2) with σ0 in Hr.
  destruct (createWorker σ0) as [[r [s' c']] out] eqn:E. cbn in Hr. subst r.
  unfold start, createMasterProcess, setConfig, constructor. unfold_M.
  cbn -[createWorker errorHandler String.append].
  change (createWorker _) with (createWorker σ0). rewrite E. reflexivity.
Qed.

Lemma ring_start_master_rejected config e main pid :
  let σ1 := (configured config (Rejects e) main, cluster0 pid) in
  start true (Parsed config) (constructor (Rejects e) main, cluster0 pid)
  = match e with
    | VNull =>
        (Throw (TypeError "Cannot convert undefined or null to object"), σ1,
         [SetupMaster (ARGS config) (SILENT_MODE config)])
    | _ =>
        (ProcessExit 1, σ1,
         SetupMaster (ARGS config) (SILENT_MODE config) :: report_by_typeof e)
    end.
Proof.
  intros σ1. unfold start.
  assert (Hbody : createMasterProcess (Parsed config)
                    (constructor (Rejects e) main, cluster0 pid)
                  = (Throw e, σ1, [SetupMaster (ARGS config) (SILENT_MODE config)])).
  { unfold createMasterProcess, setConfig, constructor. unfold_M. reflexivity. }
  destruct e; try (by rewrite (catch_report _ _ _ _ _ Hbody)).
  by rewrite (catch_null _ _ _ _ Hbody).
Qed.

Lemma ring_start_unreadable e b main pid :
  start true (Unreadable e) (constructor b main, cluster0 pid)
  = (ProcessExit 0, (constructor b main, cluster0 pid),
     error_lines "Cannot load initial config.").
Proof. reflexivity. Qed.

Lemma ring_run_bounded config b main pid es :
  0 ≤ WORKER_LIMIT config →
  let sys := run listener es
               (boot (start true (Parsed config)) (constructor b main) pid) in
  _runningServicesCount (world sys).1 ≤ WORKER_LIMIT config
  ∧ workerLimit (_configuration (world sys).1) = WORKER_LIMIT config.
Proof.
  intros Hlimit sys.
  cut (count_bounded (world sys).1
       ∧ workerLimit (_configuration (world sys).1) = WORKER_LIMIT config).
  { unfold count_bounded. intros [H1 H2]. by rewrite H2 in H1. }
  apply (run_invariant listener
           (λ sys, count_bounded (world sys).1
                   ∧ workerLimit (_configuration (world sys).1) = WORKER_LIMIT config)).
  - intros sys' e [Hb <-].
    destruct (running_or_stopped (state sys')) as [Hs|Hs];
      [|by rewrite deliver_stopped].
    rewrite deliver_running, settle_eq by done. cbn [world fst].
    by apply ring_listener_bounded.
  - unfold boot. rewrite settle_eq. cbn [world fst]. destruct b as [|e].
    + rewrite ring_start_master_run. cbn [fields_after fst snd].
      by apply (ring_createWorker_bounded (configured config Resolves main)).
    + rewrite ring_start_master_rejected. by destruct e.
Qed.

(** This version has no guard on an empty queue: [pop] gives [undefined],
    which becomes the only element of the queue and the value of
    [SCRAPER], and a worker is forked for it. *)
Lemma ring_empty_queue_forks s c :
  _queue s = [] →
  _runningServicesCount s < workerLimit (_configuration s) →
  createWorker (s, c)
  = (Normal tt, (spawned s, forked c),
     [Fork (ids c + 1) (obj_set "SCRAPER" VUndefined (env (_configuration s)))])
  ∧ _queue (spawned s) = [VUndefined].
Proof.
  intros Hq Hlt. rewrite ring_createWorker_spawn by done.
  unfold spawned, queueManager_fields. by rewrite Hq.
Qed.
End RingFacts.

(** ** [PoolVariant] *)

Module PoolFacts.
Import PoolVariant PoolSpec.

Implicit Type s : WorkerCreator.
Implicit Type c : cluster.

Lemma pool_createWorker_full s c :
  below (_runningServicesCount s) (workerLimit (_configuration s)) = false →
  createWorker (s, c) = (Normal tt, (s, c), full_lines s).
Proof. intros Hfull. unfold createWorker. unfold_M. by rewrite Hfull. Qed.

Lemma pool_createWorker_spawn s c :
  below (_runningServicesCount s) (workerLimit (_configuration s)) = true →
  createWorker (s, c)
  = (Normal tt, (spawned s, forked c),
     [Fork (ids c + 1) (default [] (env (_configuration s))); Listen (ids c + 1)]).
Proof. intros Hlt. unfold createWorker. unfold_M. by rewrite Hlt. Qed.

Lemma pool_createWorker_returns s c :
  completion_of (createWorker (s, c)) = Normal tt.
Proof.
  destruct (below (_runningServicesCount s) (workerLimit (_configuration s)))
    eqn:Hb; [by rewrite pool_createWorker_spawn | by rewrite pool_createWorker_full].
Qed.

Lemma pool_createWorker_bounded s c :
  count_bounded s →
  count_bounded (fields_after (createWorker (s, c)))
  ∧ workerLimit (_configuration (fields_after (createWorker (s, c))))
    = workerLimit (_configuration s).
Proof.
  intros Hb.
  destruct (below (_runningServicesCount s) (workerLimit (_configuration s)))
    eqn:Hlt; [|by rewrite pool_createWorker_full].
  rewrite pool_createWorker_spawn by done. split; [|done].
  unfold count_bounded, below, fields_after, spawned in *. cbn.
  destruct (workerLimit (_configuration s)); [|done].
  apply bool_decide_eq_true in Hlt. lia.
Qed.

Lemma pool_on_fork_run w s c :
  on_fork w (s, c)
  = (Normal tt,
     (fields_after (createWorker (s, c)), host_after (createWorker (s, c))),
     output_of (createWorker (s, c)) ++ created_lines w).
Proof.
  pose proof (pool_createWorker_returns s c) as Hr.
  unfold fields_after, host_after, completion_of, output_of in *.
  unfold on_fork, created_lines. unfold_M.
  destruct (createWorker (s, c)) as [[r [s' c']] out]. cbn in Hr. by subst r.
Qed.

Lemma pool_on_exit_run w code signal s c :
  let s1 := set_count (_runningServicesCount s - 1) s in
  on_exit w code signal (s, c)
  = (Normal tt,
     (fields_after (createWorker (s1, c)), host_after (createWorker (s1, c))),
     exit_lines w code signal ++ output_of (createWorker (s1, c))).
Proof.
  intros s1. pose proof (pool_createWorker_returns s1 c) as Hr.
  unfold fields_after, host_after, completion_of, output_of in *.
  destruct (createWorker (s1, c)) as [[r [s' c']] out] eqn:E. cbn in Hr. subst r.
  unfold on_exit, exit_lines. destruct (crashed code); unfold_M;
    change (createWorker _) with (createWorker (s1, c)); rewrite E; reflexivity.
Qed.

Lemma pool_listener_bounded e s c :
  count_bounded s →
  count_bounded (fields_after (listener e (s, c)))
  ∧ workerLimit (_configuration (fields_after (listener e (s, c))))
    = workerLimit (_configuration s).
Proof.
  intros Hb. destruct e as [w|w|w code signal|w m]; cbn [listener].
  - rewrite pool_on_fork_run. by apply pool_createWorker_bounded.
  - done.
  - rewrite pool_on_exit_run.
    apply (pool_createWorker_bounded (set_count (_runningServicesCount s - 1) s) c).
    unfold count_bounded in *. cbn.
    destruct (workerLimit (_configuration s)); lia.
  - by rewrite message_listener_run.
Qed.

Lemma pool_setDefaultConfiguration_run cpus s c :
  fields_after (setDefaultConfiguration cpus (s, c))
  = set_configuration (defaults cpus (_configuration s)) s
  ∧ host_after (setDefaultConfiguration cpus (s, c)) = c
  ∧ completion_of (setDefaultConfiguration cpus (s, c)) = Normal tt
  ∧ forks (output_of (setDefaultConfiguration cpus (s, c))) = [].
Proof.
  unfold setDefaultConfiguration, cpusChecker, defaults, clamp. unfold_M.
  destruct (workerLimit (_configuration s)) as [l|]; [|done].
  by destruct (bool_decide (l > Z.of_nat cpus)).
Qed.

(** [start] on fields whose configuration went through
    [setDefaultConfiguration]. *)
Lemma pool_start_master_bounded cpus config n main c :
  let s := mkSelf n (defaults cpus config) main in
  count_bounded s →
  count_bounded (fields_after (start true (s, c)))
  ∧ workerLimit (_configuration (fields_after (start true (s, c))))
    = clamp cpus (workerLimit config).
Proof.
  intros s Hb. unfold start, createMasterProcess. unfold_M.
  cbn -[createWorker errorHandler String.append].
  destruct (default Resolves (beforeStart config)) as [|e].
  - pose proof (pool_createWorker_returns s c) as Hr.
    pose proof (pool_createWorker_bounded s c Hb) as Hc.
    unfold fields_after, completion_of in *.
    change (createWorker _) with (createWorker (s, c)).
    destruct (createWorker (s, c)) as [[r [s' c']] out]. cbn in Hr. by subst r.
  - unfold fields_after.
    match goal with
    | |- context [errorHandler e ?σ] =>
        pose proof (errorHandler_frame e σ) as (Hf & _ & _);
        unfold fields_after in Hf;
        destruct (errorHandler e σ) as [[[[]|e'|code] [s' c']] out]
    end; cbn in Hf; by subst s'.
Qed.

Lemma pool_boot_bounded cpus main configuration pid :
  (∀ l, workerLimit (default (defaultConfig cpus) configuration) = Some l → 0 ≤ l) →
  let sys := boot (construct_and_start cpus true)
                  (constructor cpus main configuration) pid in
  count_bounded (world sys).1
  ∧ workerLimit (_configuration (world sys).1)
    = clamp cpus (workerLimit (default (defaultConfig cpus) configuration)).
Proof.
  intros Hlimit sys. subst sys. unfold boot. rewrite settle_eq. cbn [world fst].
  unfold construct_and_start.
  set (s0 := constructor cpus main configuration).
  pose proof (pool_setDefaultConfiguration_run cpus s0 (cluster0 pid))
    as (Hf & Hh & Hc & _).
  unfold fields_after, host_after, completion_of in *.
  cbv [mbind M_bind bind].
  destruct (setDefaultConfiguration cpus (s0, cluster0 pid)) as [[r [s' c']] out].
  cbn in Hf, Hh, Hc. subst r s' c'.
  pose proof (pool_start_master_bounded cpus (_configuration s0) 0 main (cluster0 pid))
    as Hstart.
  cbn zeta in Hstart. unfold fields_after in Hstart.
  change (set_configuration (defaults cpus (_configuration s0)) s0)
    with (mkSelf 0 (defaults cpus (_configuration s0)) main).
  destruct (start true _) as [[r [s' c']] out'] eqn:E.
  apply Hstart. unfold count_bounded, defaults, clamp. cbn.
  destruct (workerLimit (default (defaultConfig cpus) configuration)) as [l|] eqn:El;
    [|done].
  specialize (Hlimit l eq_refl). case_bool_decide; lia.
Qed.

Lemma pool_run_bounded cpus main configuration pid es :
  (∀ l, workerLimit (default (defaultConfig cpus) configuration) = Some l → 0 ≤ l) →
  let sys := run listener es
               (boot (construct_and_start cpus true)
                     (constructor cpus main configuration) pid) in
  count_bounded (world sys).1
  ∧ workerLimit (_configuration (world sys).1)
    = clamp cpus (workerLimit (default (defaultConfig cpus) configuration)).
Proof.
  intros Hlimit sys.
  apply (run_invariant listener
           (λ sys, count_bounded (world sys).1
                   ∧ workerLimit (_configuration (world sys).1)
                     = clamp cpus (workerLimit (default (defaultConfig cpus)
                                                        configuration)))).
  - intros sys' e [Hb <-].
    destruct (running_or_stopped (state sys')) as [Hs|Hs];
      [|by rewrite deliver_stopped].
    rewrite deliver_running, settle_eq by done. cbn [world fst].
    by apply pool_listener_bounded.
  - by apply pool_boot_bounded.
Qed.
End PoolFacts.

(** * The claims *)

(** C1.  With a non-negative limit, whatever events reach the coordinator
    and in whatever order, the running count never exceeds the limit, in
    each of the three versions.  Inside a callback too: [createWorker]
    does nothing but log when the count is not below the limit, and the
    release of a worker only lowers the count. *)
Theorem running_count_bounded (limit : Z) :
  0 ≤ limit →
  (∀ queue args loop env silent b main pid es,
     let config := mkDocument queue args loop env silent limit in
     let sys := run Supervisor.listener es
                  (boot (Supervisor.start true (Parsed config))
                        (Supervisor.constructor b main) pid) in
     Supervisor._runningServicesCount (world sys).1 ≤ limit
     ∧ Supervisor.workerLimit (Supervisor._configuration (world sys).1) = limit)
  ∧ (∀ queue args loop env silent b main pid es,
       let config := mkDocument queue args loop env silent limit in
       let sys := run RingVariant.listener es
                    (boot (RingVariant.start true (Parsed config))
                          (RingVariant.constructor b main) pid) in
       RingVariant._runningServicesCount (world sys).1 ≤ limit
       ∧ RingVariant.workerLimit (RingVariant._configuration (world sys).1) = limit)
  ∧ (∀ cpus env args silent b main pid es,
       let configuration := PoolVariant.mkConfig (Some limit) env args silent b in
       let sys := run PoolVariant.listener es
                    (boot (PoolVariant.construct_and_start cpus true)
                          (PoolVariant.constructor cpus main (Some configuration))
                          pid) in
       ∃ l, PoolVariant.workerLimit (PoolVariant._configuration (world sys).1) = Some l
            ∧ PoolVariant._runningServicesCount (world sys).1 ≤ l ∧ l ≤ limit)
  ∧ (∀ s c,
       ¬ Supervisor._runningServicesCount s
         < Supervisor.workerLimit (Supervisor._configuration s) →
       Supervisor.createWorker (s, c)
       = (Normal tt, (s, c), SupervisorSpec.full_lines s))
  ∧ (∀ s w,
       SupervisorSpec.count_bounded s →
       SupervisorSpec.count_bounded (Supervisor.release w s)).
Proof.
  intros Hlimit. split; [|split; [|split; [|split]]].
  - intros queue args loop env silent b main pid es config sys.
    by apply (SupervisorFacts.run_bounded config).
  - intros queue args loop env silent b main pid es config sys.
    by apply (RingFacts.ring_run_bounded config).
  - intros cpus env args silent b main pid es configuration sys.
    destruct (PoolFacts.pool_run_bounded cpus main (Some configuration) pid es)
      as [Hb Hl].
    { cbn. by intros l [= <-]. }
    fold sys in Hb, Hl. unfold PoolSpec.count_bounded in Hb. rewrite Hl in Hb.
    cbn in Hl, Hb. eexists. split; [exact Hl|]. split; [exact Hb|].
    case_bool_decide; lia.
  - apply SupervisorFacts.createWorker_full.
  - intros s w. unfold SupervisorSpec.count_bounded. cbn. lia.
Qed.

Lemma running_count_bounded_witness :
  0 ≤ 2
  ∧ Supervisor._runningServicesCount
      (world (run Supervisor.listener scenario_schedule
                (boot (Supervisor.start true (Parsed scenario_config))
                      (Supervisor.constructor Resolves Resolves) 42))).1 ≤ 2.
Proof.
  split; [lia|].
  apply (running_count_bounded 2 ltac:(lia)).
Defined.

(** C2.  Without the loop, and with a limit of at least one, a queue of
    [N] jobs is drained along every schedule the host can produce: the
    queue never grows, the workers forked and the jobs left always add up
    to [N], the coordinator only ever exits with status 0, on an empty queue
    and after [N] forks, it is never stuck before that, no schedule has
    more than [4 * N] events of the life of workers, and every schedule
    extends to one that ends in that exit. *)
Theorem queue_drains_without_loop (config : document) (main : hook) (pid : Z)
    (es : list event) :
  default false (LOOP config) = false →
  1 ≤ WORKER_LIMIT config →
  let N := length (QUEUE config) in
  let sys0 := boot (Supervisor.start true (Parsed config))
                   (Supervisor.constructor Resolves main) pid in
  valid Supervisor.listener es sys0 = true →
  let sys := run Supervisor.listener es sys0 in
  (∀ es1 es2, es = es1 ++ es2 →
     (length (Supervisor._queue (world sys).1)
      ≤ length (Supervisor._queue (world (run Supervisor.listener es1 sys0)).1)
      ≤ N)%nat)
  ∧ (length (forks (trace sys)) + length (Supervisor._queue (world sys).1))%nat = N
  ∧ (∀ code, state sys = Exited code →
       code = 0 ∧ Supervisor._queue (world sys).1 = []
       ∧ length (forks (trace sys)) = N)
  ∧ (∀ err, state sys ≠ Faulted err)
  ∧ (state sys = Running →
     ∃ e, lifecycle e = true ∧ valid Supervisor.listener (es ++ [e]) sys0 = true)
  ∧ (length (List.filter lifecycle es) ≤ 4 * N)%nat
  ∧ (∃ es', valid Supervisor.listener (es ++ es') sys0 = true
            ∧ state (run Supervisor.listener (es ++ es') sys0) = Exited 0
            ∧ length (forks (trace (run Supervisor.listener (es ++ es') sys0))) = N).
Proof.
  intros Hloop Hlimit N sys0 Hvalid sys.
  destruct (SupervisorFacts.boot_draining config main pid Hloop Hlimit)
    as [Hd0 Hm0].
  fold sys0 N in Hd0, Hm0.
  pose proof (SupervisorFacts.run_draining _ _ es sys0 Hd0) as Hd. fold sys in Hd.
  pose proof Hd as (_ & _ & _ & HN & Hstate).
  split.
  { intros es1 es2 Hes.
    pose proof (SupervisorFacts.run_draining _ _ es1 sys0 Hd0)
      as (_ & _ & _ & HN1 & _).
    destruct (trace_run Supervisor.listener es2 (run Supervisor.listener es1 sys0))
      as [out Hout].
    subst sys. rewrite Hes, run_app in *.
    rewrite Hout, forks_app, length_app in HN. lia. }
  split; [done|].
  split.
  { intros code Hcode. rewrite Hcode in Hstate. destruct Hstate as [-> Hq].
    rewrite Hq in HN. cbn in HN. repeat split; [done | lia]. }
  split.
  { intros err Herr. by rewrite Herr in Hstate. }
  split.
  { intros Hrun.
    destruct (SupervisorFacts.draining_progress _ _ sys Hd Hrun) as (e & Hl & He).
    exists e. split; [done|]. rewrite valid_app, Hvalid. cbn. fold sys.
    by rewrite Hrun, He. }
  split.
  { pose proof (SupervisorFacts.valid_measure _ _ es sys0 Hd0 Hvalid). lia. }
  destruct (SupervisorFacts.draining_terminates _ _ _ sys (le_n _) Hd)
    as (es' & Hv' & Hend).
  exists es'. rewrite valid_app, Hvalid, run_app. fold sys.
  repeat split; try done.
  pose proof (SupervisorFacts.run_draining _ _ es' sys Hd)
    as (_ & _ & _ & HN' & Hst').
  rewrite Hend in Hst'. destruct Hst' as [_ Hq]. rewrite Hq in HN'. cbn in HN'. lia.
Qed.

Lemma queue_drains_without_loop_witness :
  default false (LOOP scenario_config) = false
  ∧ 1 ≤ WORKER_LIMIT scenario_config
  ∧ valid Supervisor.listener scenario_schedule
      (boot (Supervisor.start true (Parsed scenario_config))
            (Supervisor.constructor Resolves Resolves) 42) = true
  ∧ (length (forks (trace (run Supervisor.listener scenario_schedule
                             (boot (Supervisor.start true (Parsed scenario_config))
                                   (Supervisor.constructor Resolves Resolves) 42))))
     + length (Supervisor._queue
                 (world (run Supervisor.listener scenario_schedule
                           (boot (Supervisor.start true (Parsed scenario_config))
                                 (Supervisor.constructor Resolves Resolves) 42))).1))%nat
    = 3%nat.
Proof.
  split; [reflexivity|]. split; [cbn; lia|]. split; [vm_compute; reflexivity|].
  refine (proj1 (proj2
    (queue_drains_without_loop scenario_config Resolves 42 scenario_schedule _ _ _)));
    [reflexivity | cbn; lia | vm_compute; reflexivity].
Defined.

(** C3, the claim as worded.  The first version of [main.ts] has no
    [loop] setting: [setConfig] does not read [LOOP], and with [LOOP: false]
    in the configuration the dequeue step of [queueManager] still puts the
    identifier back at the head of the queue. *)
Lemma first_version_ignores_loop :
  let config := mkDocument ["j1"; "j2"] [] (Some false) [] false 2 in
  let s := fields_after (RingVariant.setConfig (Parsed config)
                           (RingVariant.constructor Resolves Resolves, cluster0 42)) in
  let r := RingVariant.queueManager (s, cluster0 42) in
  ¬ dequeued_by_loop_flag (default false (LOOP config))
      (RingVariant._queue s) (RingVariant._queue (fields_after r))
      (RingVariant.env (RingVariant._configuration (fields_after r))).
Proof.
  intros config s r (init & x & Hbefore & Hafter & _).
  change (RingVariant._queue s) with ([VStr "j1"] ++ [VStr "j2"]) in Hbefore.
  apply app_inj_tail in Hbefore as [<- <-].
  vm_compute in Hafter. discriminate Hafter.
Qed.

(** C3, amended.  In [part_002] a dequeue step ([setService]) on a queue
    that ends with [x] takes [x] off the tail; it puts [x] back at the head
    exactly when [loop] is set; [x] becomes the running service and the
    value of [SCRAPER] in the environment, which is the environment the
    next fork gets; this is the step the generator makes at each
    [next()].  In the first version of [main.ts], which has no [loop]
    setting, the step ([queueManager]) on a queue that ends with [x] takes
    [x] off the tail and always puts it back at the head, whatever [LOOP]
    says in the configuration, and [x] is likewise the value of [SCRAPER]
    in the environment [createWorker] forks the next worker with. *)
Theorem dequeue_step (s : Supervisor.WorkerCreator) (c : cluster)
    (init : list value) (x : value) :
  Supervisor._queue s = init ++ [x] →
  let s' := Supervisor.setService_fields s in
  Supervisor.setService (s, c) = (Normal tt, (s', c), [])
  ∧ Supervisor._queue s'
    = (if Supervisor.loop (Supervisor._configuration s) then x :: init else init)
  ∧ Supervisor._runningService s' = x
  ∧ obj_get "SCRAPER" (Supervisor.env (Supervisor._configuration s')) = x
  ∧ (SupervisorSpec.suspended s →
     Supervisor.gen_next_done (s, c)
     = (Normal false, (Supervisor.set_gen (Some Supervisor.SuspendedYield) s', c), []))
  ∧ (SupervisorSpec.suspended s →
     Supervisor._runningServicesCount s
     < Supervisor.workerLimit (Supervisor._configuration s) →
     forks (output_of (Supervisor.createWorker (s, c)))
     = [Fork (ids c + 1) (Supervisor.env (Supervisor._configuration s'))])
  ∧ (∀ r : RingVariant.WorkerCreator,
       RingVariant._queue r = init ++ [x] →
       let r' := RingVariant.queueManager_fields r in
       RingVariant.queueManager (r, c) = (Normal tt, (r', c), [])
       ∧ RingVariant._queue r' = x :: init
       ∧ obj_get "SCRAPER" (RingVariant.env (RingVariant._configuration r')) = x
       ∧ (RingVariant._runningServicesCount r
          < RingVariant.workerLimit (RingVariant._configuration r) →
          forks (output_of (RingVariant.createWorker (r, c)))
          = [Fork (ids c + 1) (RingVariant.env (RingVariant._configuration r'))]
          ∧ RingVariant._queue (fields_after (RingVariant.createWorker (r, c)))
            = x :: init))
  ∧ (∀ queue args loop loop' env silent limit σ,
       RingVariant.start true (Parsed (mkDocument queue args loop env silent limit)) σ
       = RingVariant.start true
           (Parsed (mkDocument queue args loop' env silent limit)) σ).
Proof.
  intros Hq s'. subst s'.
  assert (Hne : Supervisor._queue s ≠ []) by (rewrite Hq; by destruct init).
  rewrite (SupervisorFacts.setService_fields_snoc s init x Hq).
  split; [unfold Supervisor.setService; unfold_M;
          by rewrite (SupervisorFacts.setService_fields_snoc s init x Hq)|].
  split; [done|]. split; [done|]. split; [apply obj_get_set|].
  split.
  { intros Hgen. rewrite SupervisorFacts.gen_next_done_yield by done.
    by rewrite (SupervisorFacts.setService_fields_snoc s init x Hq). }
  split.
  { intros (g & Hg & Hg') Hlt.
    rewrite (SupervisorFacts.createWorker_spawn s c g) by done.
    by rewrite (SupervisorFacts.setService_fields_snoc s init x Hq). }
  split; [|reflexivity].
  intros r Hr r'. subst r'. split; [reflexivity|].
  rewrite (RingFacts.ring_queueManager_fields_snoc r init x Hr).
  split; [done|]. split; [apply obj_get_set|].
  intros Hlt. rewrite RingFacts.ring_createWorker_spawn by done. after_pair.
  unfold RingSpec.spawned.
  by rewrite (RingFacts.ring_queueManager_fields_snoc r init x Hr).
Qed.

Lemma dequeue_step_witness :
  Supervisor._queue (SupervisorSpec.configured scenario_config Resolves Resolves)
  = [VStr "j1"; VStr "j2"] ++ [VStr "j3"]
  ∧ Supervisor._queue
      (Supervisor.setService_fields
         (SupervisorSpec.configured scenario_config Resolves Resolves))
    = [VStr "j1"; VStr "j2"].
Proof.
  split; [reflexivity|].
  exact (proj1 (proj2
    (dequeue_step (SupervisorSpec.configured scenario_config Resolves Resolves)
       (cluster0 42) [VStr "j1"; VStr "j2"] (VStr "j3") eq_refl))).
Defined.

(** C4.  With [loop] set and a queue that is not empty, any number of
    calls of [next()] all report that the generator is not done; after
    them the queue has the length it had and the same elements (it is a
    permutation of what it was).  So it is along every run of the
    coordinator, whatever the events: the queue keeps its length and its
    elements, and the coordinator never exits. *)
Theorem loop_keeps_queue (s : Supervisor.WorkerCreator) (c : cluster) (n : nat) :
  Supervisor.loop (Supervisor._configuration s) = true →
  Supervisor._queue s ≠ [] →
  SupervisorSpec.suspended s →
  (∃ s', SupervisorSpec.nexts n (s, c) = (Normal (replicate n false), (s', c), [])
         ∧ length (Supervisor._queue s') = length (Supervisor._queue s)
         ∧ (∀ x, x ∈ Supervisor._queue s' ↔ x ∈ Supervisor._queue s)
         ∧ Supervisor._queue s' ≡ₚ Supervisor._queue s)
  ∧ (∀ queue args env silent limit main pid es,
       queue ≠ [] →
       let config := mkDocument queue args (Some true) env silent limit in
       let sys := run Supervisor.listener es
                    (boot (Supervisor.start true (Parsed config))
                          (Supervisor.constructor Resolves main) pid) in
       state sys = Running
       ∧ length (Supervisor._queue (world sys).1) = length queue
       ∧ (∀ x, x ∈ Supervisor._queue (world sys).1 ↔ x ∈ VStr <$> queue)
       ∧ Supervisor._queue (world sys).1 ≡ₚ VStr <$> queue).
Proof.
  intros Hloop Hq Hgen. split.
  - destruct (SupervisorFacts.nexts_loop n s c Hloop Hq Hgen)
      as (s' & Hrun & Hperm & _ & _).
    exists s'. split; [done|]. split; [by rewrite Hperm|]. split; [|done].
    intros x. by rewrite Hperm.
  - intros queue args env silent limit main pid es Hqueue config sys.
    destruct (SupervisorFacts.run_looping config main pid es eq_refl Hqueue)
      as (Hrun & _ & _ & Hperm).
    fold sys in Hrun, Hperm. split; [done|].
    split; [by rewrite Hperm, length_fmap|]. split; [|done].
    intros x. by rewrite Hperm.
Qed.

Lemma loop_keeps_queue_witness :
  let s := Supervisor.set_configuration
             (Supervisor.mkConfig 1 [] [] false Resolves true)
             (SupervisorSpec.configured scenario_config Resolves Resolves) in
  Supervisor.loop (Supervisor._configuration s) = true
  ∧ Supervisor._queue s ≠ []
  ∧ SupervisorSpec.suspended s
  ∧ ∃ s', SupervisorSpec.nexts 5 (s, cluster0 42)
          = (Normal (replicate 5 false), (s', cluster0 42), [])
          ∧ length (Supervisor._queue s') = length (Supervisor._queue s)
          ∧ (∀ x, x ∈ Supervisor._queue s' ↔ x ∈ Supervisor._queue s)
          ∧ Supervisor._queue s' ≡ₚ Supervisor._queue s.
Proof.
  intros s.
  assert (H1 : Supervisor.loop (Supervisor._configuration s) = true) by reflexivity.
  assert (H2 : Supervisor._queue s ≠ []) by (intros H; discriminate H).
  assert (H3 : SupervisorSpec.suspended s).
  { exists Supervisor.SuspendedStart. split; [reflexivity | intros H; discriminate H]. }
  split; [exact H1|]. split; [exact H2|]. split; [exact H3|].
  exact (proj1 (loop_keeps_queue s (cluster0 42) 5 H1 H2 H3)).
Defined.



(** The version with the generator does what the sixth claim says: with
    an empty queue in the configuration and a positive limit, the first
    call of [next()] reports that the generator is done without touching
    the queue or the current service, and the coordinator exits with
    status 0 before any fork, whether [loop] is set or not. *)
Lemma empty_queue_exits_at_once (config : document) (main : hook) (pid : Z) :
  QUEUE config = [] →
  0 < WORKER_LIMIT config →
  let s0 := SupervisorSpec.configured config Resolves main in
  let sys := boot (Supervisor.start true (Parsed config))
                  (Supervisor.constructor Resolves main) pid in
  Supervisor.gen_next_done (s0, cluster0 pid)
  = (Normal true, (Supervisor.set_gen (Some Supervisor.Completed) s0, cluster0 pid), [])
  ∧ state sys = Exited 0
  ∧ forks (trace sys) = []
  ∧ (world sys).2 = cluster0 pid
  ∧ trace sys = preamble config pid ++ ConsoleLog "0" :: finished_lines.
Proof.
  intros Hq Hlimit s0 sys.
  assert (Hgen : SupervisorSpec.suspended s0)
    by (by exists Supervisor.SuspendedStart).
  assert (Hq0 : Supervisor._queue s0 = []) by (cbn; by rewrite Hq).
  split; [by apply SupervisorFacts.gen_next_done_empty|].
  subst sys. unfold boot.
  rewrite SupervisorFacts.start_master_run, settle_eq. cbn zeta. fold s0.
  rewrite (SupervisorFacts.createWorker_drained s0 (cluster0 pid)
             Supervisor.SuspendedStart) by done.
  after_pair. cbn [state world trace status_of snd]. rewrite app_nil_r.
  repeat split; try done.
Qed.

Lemma empty_queue_exits_at_once_witness :
  QUEUE (mkDocument [] [] (Some false) [] false 2) = []
  ∧ 0 < WORKER_LIMIT (mkDocument [] [] (Some false) [] false 2)
  ∧ state (boot (Supervisor.start true
                   (Parsed (mkDocument [] [] (Some false) [] false 2)))
                (Supervisor.constructor Resolves Resolves) 42) = Exited 0.
Proof.
  split; [reflexivity|]. split; [cbn; lia|].
  refine (proj1 (proj2
    (empty_queue_exits_at_once (mkDocument [] [] (Some false) [] false 2)
       Resolves 42 _ _))); [reflexivity | cbn; lia].
Defined.

(** C6.  The first version of [main.ts] has no guard on an empty
    queue.  At the configuration [QUEUE: []], [LOOP: false],
    [WORKER_LIMIT: 2], where the version with the generator exits with
    status 0 and forks nothing, [queueManager] pops [undefined] off the
    empty array and puts it at the head of the queue, [SCRAPER] is
    [undefined] in the environment, and [createWorker] forks a worker for
    that job; the coordinator keeps running, and the workers forked at the
    next events get the same job. *)
Theorem first_version_forks_on_empty_queue :
  let config := mkDocument [] [] (Some false) [] false 2 in
  let generator := boot (Supervisor.start true (Parsed config))
                        (Supervisor.constructor Resolves Resolves) 42 in
  let first := boot (RingVariant.start true (Parsed config))
                    (RingVariant.constructor Resolves Resolves) 42 in
  let later := run RingVariant.listener
                 [EFork (scenario_worker 1); EFork (scenario_worker 2);
                  EExit (scenario_worker 1) (Some 0) None]
                 first in
  (state generator = Exited 0 ∧ forks (trace generator) = [])
  ∧ RingVariant.queueManager
      (RingSpec.configured config Resolves Resolves, cluster0 42)
    = (Normal tt,
       (RingVariant.queueManager_fields
          (RingSpec.configured config Resolves Resolves), cluster0 42), [])
  ∧ state first = Running
  ∧ forks (trace first) = [Fork 1 [("SCRAPER", VUndefined)]]
  ∧ RingVariant._queue (world first).1 = [VUndefined]
  ∧ forking (world first).2 = [1]
  ∧ state later = Running
  ∧ jobs (trace later) = [VUndefined; VUndefined; VUndefined].
Proof. vm_compute. repeat split; reflexivity. Qed.

(** The classification by shape fails on an [Error] object, which has no
    enumerable property of its own: it is neither a value with enumerable
    pairs nor [undefined], and yet nothing at all is logged for it, let
    alone its string. *)
Lemma shape_classification_fails : ¬ classified_by_shape (VObj "Error: boom" []).
Proof.
  intros H. destruct (H (tt, cluster0 0)) as (out & Hrun & prefix & Hin).
  rewrite errorHandler_object in Hrun. injection Hrun as <-.
  cbn in Hin. by apply elem_of_nil in Hin.
Qed.

(** What [errorHandler] does on the values of this development other
    than [null]: the switch is on [typeof], so for an object it logs each
    enumerable pair and nothing else; for [undefined] the fixed message;
    for a value of any other type its string after a fixed prefix.  It
    returns, and [start] then ends the process with status 1: in the
    coordinator when [beforeStart] rejects with the error, in a worker when
    the job does. *)
Lemma errorHandler_classifies_by_typeof (error : value) :
  error ≠ VNull →
  (∀ Self (σ : Self * cluster),
     errorHandler error σ = (Normal tt, σ, report_by_typeof error))
  ∧ (∀ config main pid,
       let sys := boot (RingVariant.start true (Parsed config))
                       (RingVariant.constructor (Rejects error) main) pid in
       state sys = Exited 1
       ∧ trace sys
         = SetupMaster (ARGS config) (SILENT_MODE config) :: report_by_typeof error)
  ∧ (∀ config main pid,
       let sys := boot (Supervisor.start true (Parsed config))
                       (Supervisor.constructor (Rejects error) main) pid in
       state sys = Exited 1
       ∧ trace sys
         = SetupMaster (ARGS config) (SILENT_MODE config) :: report_by_typeof error)
  ∧ (∀ file b pid,
       let sys := boot (RingVariant.start false file)
                       (RingVariant.constructor b (Rejects error)) pid in
       state sys = Exited 1 ∧ trace sys = report_by_typeof error).
Proof.
  intros Hnull. split; [intros Self σ; by apply errorHandler_report|].
  split; [|split].
  - intros config main pid sys. subst sys. unfold boot.
    rewrite RingFacts.ring_start_master_rejected, settle_eq. by destruct error.
  - intros config main pid sys. subst sys. unfold boot.
    rewrite SupervisorFacts.start_master_rejected, settle_eq. by destruct error.
  - intros file b pid sys. subst sys. unfold boot, RingVariant.start.
    rewrite (catch_report _ _ error
               (RingVariant.constructor b (Rejects error), cluster0 pid) [])
      by done.
    by rewrite settle_eq.
Qed.

Lemma errorHandler_classifies_by_typeof_witness :
  VObj "[object Object]" [("a", VNum 1); ("b", VNum 2)] ≠ VNull
  ∧ errorHandler (VObj "[object Object]" [("a", VNum 1); ("b", VNum 2)])
      (tt, cluster0 42)
    = (Normal tt, (tt, cluster0 42), error_lines "a: 1" ++ error_lines "b: 2").
Proof.
  assert (H : VObj "[object Object]" [("a", VNum 1); ("b", VNum 2)] ≠ VNull)
    by (intros H; discriminate H).
  split; [exact H|].
  exact (proj1 (errorHandler_classifies_by_typeof _ H) unit (tt, cluster0 42)).
Defined.

(** C7.  [errorHandler] on [new Error('boom')].  The switch is on
    [typeof] and an [Error] is an object: the loop over its enumerable
    pairs, of which there are none, logs nothing, where the claim has the
    string of the value logged, as the branch of a string does and as the
    branch of [undefined] logs its message.  [start] then ends the
    process with status 1, in the coordinator when [beforeStart] rejects
    with the error and in a worker when the job does, without a line about
    the error. *)
Theorem error_instance_is_not_reported :
  let error := VObj "Error: boom" [] in
  typeof error = "object"
  ∧ (∀ Self (σ : Self * cluster), errorHandler error σ = (Normal tt, σ, []))
  ∧ ¬ classified_by_shape error
  ∧ (∀ Self (σ : Self * cluster),
       errorHandler (VStr "boom") σ
       = (Normal tt, σ, error_lines "Worker failed with reason: boom")
       ∧ errorHandler VUndefined σ
         = (Normal tt, σ, error_lines "Catch undefined error."))
  ∧ (∀ config main pid,
       let sys := boot (RingVariant.start true (Parsed config))
                       (RingVariant.constructor (Rejects error) main) pid in
       state sys = Exited 1
       ∧ trace sys = [SetupMaster (ARGS config) (SILENT_MODE config)])
  ∧ (∀ file b pid,
       let sys := boot (RingVariant.start false file)
                       (RingVariant.constructor b (Rejects error)) pid in
       state sys = Exited 1 ∧ trace sys = []).
Proof.
  intros error.
  assert (Hne : error ≠ VNull) by (intros H; discriminate H).
  destruct (errorHandler_classifies_by_typeof error Hne) as (H1 & H2 & _ & H4).
  split; [reflexivity|]. split; [exact H1|].
  split; [exact shape_classification_fails|].
  split; [intros Self σ; split; reflexivity|].
  split; [exact H2 | exact H4].
Qed.

(** C8, at the failing input.  When [beforeStart] rejects with [null],
    [errorHandler] throws inside the [catch] clause of [start]:
    [process.exit(1)] is not reached, and what leaves [start] is the
    [TypeError], in both versions that read a configuration file. *)
Theorem null_rejection_escapes_start (config : document) (main : hook) (pid : Z) :
  state (boot (Supervisor.start true (Parsed config))
              (Supervisor.constructor (Rejects VNull) main) pid)
  = Faulted (TypeError "Cannot convert undefined or null to object")
  ∧ state (boot (RingVariant.start true (Parsed config))
                (RingVariant.constructor (Rejects VNull) main) pid)
    = Faulted (TypeError "Cannot convert undefined or null to object").
Proof.
  unfold boot.
  by rewrite SupervisorFacts.start_master_rejected, RingFacts.ring_start_master_rejected.
Qed.

(** The rest of C8 holds: any other rejection ends the process with
    status 1, an unreadable configuration with status 0 after the error
    line and without a fork, and a drained queue with status 0. *)
Lemma exit_codes_otherwise (config : document) (main : hook) (pid : Z) :
  (∀ e, e ≠ VNull →
     state (boot (Supervisor.start true (Parsed config))
                 (Supervisor.constructor (Rejects e) main) pid) = Exited 1)
  ∧ (∀ e b,
       let sys := boot (Supervisor.start true (Unreadable e))
                       (Supervisor.constructor b main) pid in
       state sys = Exited 0
       ∧ trace sys = error_lines "Cannot load initial config."
       ∧ (world sys).2 = cluster0 pid)
  ∧ (∀ e b,
       let sys := boot (RingVariant.start true (Unreadable e))
                       (RingVariant.constructor b main) pid in
       state sys = Exited 0
       ∧ trace sys = error_lines "Cannot load initial config."
       ∧ (world sys).2 = cluster0 pid)
  ∧ (∀ s c g,
       Supervisor._runningServicesCount s
       < Supervisor.workerLimit (Supervisor._configuration s) →
       Supervisor._gen s = Some g → Supervisor._queue s = [] →
       completion_of (Supervisor.createWorker (s, c)) = ProcessExit 0).
Proof.
  split; [|split; [|split]].
  - intros e He. unfold boot. rewrite SupervisorFacts.start_master_rejected.
    by destruct e.
  - intros e b sys. subst sys. unfold boot.
    by rewrite SupervisorFacts.start_unreadable.
  - intros e b sys. subst sys. unfold boot.
    by rewrite RingFacts.ring_start_unreadable.
  - intros s c g Hlt Hg Hq. by rewrite (SupervisorFacts.createWorker_drained s c g).
Qed.

(** C9, the claim as worded.  A message that is there but empty is not
    printed. *)
Lemma empty_message_not_printed :
  ¬ prints_when_present (mkCommunicator (Some check_queue) (Some "")).
Proof. intros H. specialize (H (tt, cluster0 0)). discriminate H. Qed.

(** C9, amended.  The listener prints the message when the field is there
    and is not the empty string, and nothing otherwise; the three actions
    do nothing; the fields of the coordinator and the host are as they
    were, so the delivery of a message changes neither the queue, the
    count, the running workers nor the configuration. *)
Theorem message_listener_frame (communicator : ClusterCommunicator) :
  (∀ Self (σ : Self * cluster),
     message_listener communicator σ
     = (Normal tt, σ,
        match message communicator with
        | Some m => if String.eqb m "" then [] else [ConsoleLog m]
        | None => []
        end))
  ∧ (∀ w (sys : system Supervisor.WorkerCreator),
       world (deliver Supervisor.listener sys (EMessage w communicator)) = world sys
       ∧ state (deliver Supervisor.listener sys (EMessage w communicator))
         = state sys)
  ∧ (∀ w (sys : system PoolVariant.WorkerCreator),
       world (deliver PoolVariant.listener sys (EMessage w communicator)) = world sys
       ∧ state (deliver PoolVariant.listener sys (EMessage w communicator))
         = state sys).
Proof.
  split; [|split].
  - intros Self σ. rewrite message_listener_run.
    destruct (message communicator) as [m|]; [|done]. cbn.
    by destruct (String.eqb m "").
  - intros w sys. destruct (running_or_stopped (state sys)) as [Hs|Hs];
      [|by rewrite deliver_stopped].
    rewrite deliver_running, settle_eq by done. cbn [Supervisor.listener].
    rewrite message_listener_run. after_pair. cbn. by destruct sys as [st [s c] tr].
  - intros w sys. destruct (running_or_stopped (state sys)) as [Hs|Hs];
      [|by rewrite deliver_stopped].
    rewrite deliver_running, settle_eq by done. cbn [PoolVariant.listener].
    rewrite message_listener_run. after_pair. cbn. by destruct sys as [st [s c] tr].
Qed.

(** C10.  [typeof null] is ["object"], and [errorHandler(null)] throws
    the [TypeError] of [Object.entries(null)] without having logged
    anything, in whatever state it is called. *)
Theorem errorHandler_null_throws :
  typeof VNull = "object"
  ∧ ∀ Self (σ : Self * cluster),
      errorHandler VNull σ
      = (Throw (TypeError "Cannot convert undefined or null to object"), σ, []).
Proof. split; [done | intros Self σ; apply errorHandler_null]. Qed.

(** * The scenarios of the specification, run *)

(** [workerLimit = 2], three jobs, no loop: the three jobs are forked last
    first, never more than two workers are counted, and the coordinator
    exits with status 0 when the second worker exits, on the empty queue. *)
Example scenario_drains :
  let sys := run Supervisor.listener scenario_schedule
               (boot (Supervisor.start true (Parsed scenario_config))
                     (Supervisor.constructor Resolves Resolves) 42) in
  state sys = Exited 0
  ∧ forks (trace sys)
    = [Fork 1 [("Testing", VStr "yeah-worked"); ("SCRAPER", VStr "j3")];
       Fork 2 [("Testing", VStr "yeah-worked"); ("SCRAPER", VStr "j2")];
       Fork 3 [("Testing", VStr "yeah-worked"); ("SCRAPER", VStr "j1")]]
  ∧ Supervisor._queue (world sys).1 = [].
Proof. vm_compute. repeat split. Qed.

(** [workerLimit = 1], one job, with the loop: each crash of the worker is
    followed by a new fork for the same job. *)
Example scenario_respawns :
  let config := mkDocument ["j1"] [] (Some true) [] false 1 in
  let sys := run Supervisor.listener
               [EFork (scenario_worker 1); EExit (scenario_worker 1) (Some 1) None;
                EFork (scenario_worker 2); EExit (scenario_worker 2) None (Some "SIGKILL")]
               (boot (Supervisor.start true (Parsed config))
                     (Supervisor.constructor Resolves Resolves) 42) in
  state sys = Running
  ∧ forks (trace sys)
    = [Fork 1 [("SCRAPER", VStr "j1")]; Fork 2 [("SCRAPER", VStr "j1")];
       Fork 3 [("SCRAPER", VStr "j1")]]
  ∧ Supervisor._queue (world sys).1 = [VStr "j1"].
Proof. vm_compute. repeat split. Qed.

(** The three shapes of error of the specification. *)
Example classifier_examples :
  output_of (errorHandler (VObj "[object Object]" [("a", VNum 1); ("b", VNum 2)])
               (tt, cluster0 42))
  = [ConsoleLog log.rule; ConsoleLog "[ERROR]: a: 1";
     ConsoleLog log.rule; ConsoleLog "[ERROR]: b: 2"]
  ∧ output_of (errorHandler VUndefined (tt, cluster0 42))
    = [ConsoleLog log.rule; ConsoleLog "[ERROR]: Catch undefined error."]
  ∧ output_of (errorHandler (VStr "boom") (tt, cluster0 42))
    = [ConsoleLog log.rule; ConsoleLog "[ERROR]: Worker failed with reason: boom"]
  ∧ output_of (errorHandler (VNum (-7)) (tt, cluster0 42))
    = [ConsoleLog log.rule; ConsoleLog "[ERROR]: Worker failed with reason: -7"].
Proof. vm_compute. repeat split. Qed.

(** Numbers are printed as [Number::toString] prints a double: digit by
    digit as long as the integer is exact, beyond that the shortest digits
    that read back as the same double, and in the exponent form from
    [1e21] on. *)
Lemma number_to_string_exact (n : Z) :
  - 2 ^ 53 < n < 2 ^ 53 → number_to_string n = pretty n.
Proof.
  intros Hn.
  assert (Hnat : ∀ m, 0 ≤ m < 2 ^ 53 → natural_to_string m = pretty m).
  { intros m Hm. unfold natural_to_string, round_double.
    assert (Hlog : Z.log2 m < 53).
    { destruct (decide (m = 0)) as [->|Hm0]; [done|].
      apply Z.log2_lt_pow2; lia. }
    apply Z.ltb_lt in Hlog. by rewrite !Hlog. }
  unfold number_to_string. destruct (Z.ltb_spec n 0) as [Hneg|Hpos].
  - rewrite Hnat by lia. by destruct n.
  - apply Hnat. lia.
Qed.

Example number_examples :
  to_string (VNum 42) = "42"
  ∧ to_string (VNum (-7)) = "-7"
  ∧ to_string (VNum (2 ^ 53 + 1)) = "9007199254740992"
  ∧ to_string (VNum (2 ^ 60)) = "1152921504606847000"
  ∧ to_string (VNum (10 ^ 20)) = "100000000000000000000"
  ∧ to_string (VNum (10 ^ 21)) = "1e+21"
  ∧ to_string (VNum (2 ^ 70)) = "1.1805916207174113e+21"
  ∧ to_string (VNum (- 10 ^ 23)) = "-1e+23"
  ∧ output_of (errorHandler (VNum (10 ^ 21)) (tt, cluster0 42))
    = [ConsoleLog log.rule; ConsoleLog "[ERROR]: Worker failed with reason: 1e+21"].
Proof. vm_compute. repeat split. Qed.

(** * Further properties *)

(** ** Lists of workers *)

Lemma without_notin w (l : list Z) : w ∉ l → without w l = l.
Proof.
  intros Hw. unfold without. induction l as [|x l IH]; [done|].
  apply not_elem_of_cons in Hw as [Hx Hl].
  rewrite filter_cons_True by done. by rewrite IH.
Qed.

Lemma without_perm w (l : list Z) : NoDup l → w ∈ l → w :: without w l ≡ₚ l.
Proof.
  unfold without. induction l as [|x l IH]; intros Hnd Hw.
  - by apply elem_of_nil in Hw.
  - apply NoDup_cons in Hnd as [Hx Hnd].
    destruct (decide (x = w)) as [->|Hne].
    + rewrite filter_cons_False by (by intros H).
      fold (without w l). by rewrite without_notin.
    + rewrite filter_cons_True by done.
      apply elem_of_cons in Hw as [->|Hw]; [done|].
      rewrite Permutation_swap. by rewrite IH.
Qed.

Lemma without_snoc_perm w (l : list Z) : NoDup l → w ∈ l → without w l ++ [w] ≡ₚ l.
Proof.
  intros Hnd Hw. rewrite <- (without_perm w l Hnd Hw) at 2.
  by rewrite Permutation_app_comm.
Qed.

Lemma without_app w (l1 l2 : list Z) :
  without w (l1 ++ l2) = without w l1 ++ without w l2.
Proof. apply filter_app. Qed.

Lemma length_without_NoDup w (l : list Z) :
  NoDup l → w ∈ l → S (length (without w l)) = length l.
Proof. intros Hnd Hw. by rewrite <- (without_perm w l Hnd Hw) at 2. Qed.

(** ** The host *)

Section HostFacts.
Import SupervisorSpec.

Lemma host_ok_cluster0 pid : host_ok (cluster0 pid).
Proof.
  split; [apply NoDup_nil_2|]. intros w Hw. by apply elem_of_nil in Hw.
Qed.

Lemma host_ok_forked c :
  host_ok c →
  host_ok (forked c) ∧ length (alive (forked c)) = S (length (alive c)).
Proof.
  intros [Hnd Hle]. unfold host_ok, alive, forked in *. cbn.
  assert (Hperm : (forking c ++ [ids c + 1]) ++ created c ++ online c
                  ≡ₚ (ids c + 1) :: forking c ++ created c ++ online c).
  { rewrite <- app_assoc. cbn. by rewrite <- Permutation_middle. }
  split; [split|].
  - rewrite Hperm. apply NoDup_cons. split; [|done].
    intros Hin. specialize (Hle _ Hin). lia.
  - intros w. rewrite Hperm. intros [->|Hin]%elem_of_cons; [lia|].
    specialize (Hle _ Hin). lia.
  - by rewrite Hperm.
Qed.

(** An event the host can deliver moves or removes one worker. *)
Lemma host_ok_step e c :
  host_ok c → enabled e c = true →
  host_ok (host_step e c)
  ∧ (length (alive (host_step e c)) + (if is_exit e then 1 else 0))%nat
    = length (alive c)
  ∧ ids (host_step e c) = ids c
  ∧ created (host_step e c) ++ online (host_step e c)
    ≡ₚ match e with
       | EFork w => (created c ++ online c) ++ [id w]
       | EExit w _ _ => without (id w) (created c ++ online c)
       | _ => created c ++ online c
       end.
Proof.
  intros [Hnd Hle] He. unfold host_ok, alive in *.
  pose proof Hnd as Hnd'. apply NoDup_app in Hnd' as (Hf & Hfo & Hco).
  pose proof Hco as Hco'. apply NoDup_app in Hco' as (Hc & Hcr & Ho).
  destruct e as [w|w|w code signal|w m]; cbn in *;
    apply bool_decide_eq_true in He.
  - assert (Hperm : without (id w) (forking c) ++ (created c ++ [id w]) ++ online c
                    ≡ₚ forking c ++ created c ++ online c).
    { rewrite <- (without_snoc_perm (id w) (forking c) Hf He) at 2.
      rewrite <- !app_assoc. apply Permutation_app_head.
      cbn. symmetry. apply Permutation_middle. }
    split; [split|split; [|split]]; try done.
    + by rewrite Hperm.
    + intros x. rewrite Hperm. apply Hle.
    + rewrite Hperm. lia.
    + rewrite <- !app_assoc. apply Permutation_app_head, Permutation_app_comm.
  - assert (Hperm : without (id w) (created c) ++ online c ++ [id w]
                    ≡ₚ created c ++ online c).
    { rewrite <- (without_snoc_perm (id w) (created c) Hc He) at 2.
      rewrite <- !app_assoc. apply Permutation_app_head, Permutation_app_comm. }
    split; [split|split; [|split]]; try done.
    + by rewrite Hperm.
    + intros x. rewrite Hperm. apply Hle.
    + rewrite Hperm. lia.
  - assert (Hw : id w ∉ forking c) by (intros Hin; by apply (Hfo _ Hin)).
    rewrite <- without_app.
    assert (Hperm : id w :: forking c ++ without (id w) (created c ++ online c)
                    ≡ₚ forking c ++ created c ++ online c).
    { rewrite Permutation_middle. apply Permutation_app_head.
      by apply without_perm. }
    assert (Hnd2 : NoDup (id w :: forking c ++ without (id w) (created c ++ online c)))
      by (by rewrite Hperm).
    apply NoDup_cons in Hnd2 as [_ Hnd2].
    split; [split|split; [|split]]; try done.
    + intros x Hx. apply Hle. rewrite <- Hperm. by apply elem_of_cons; right.
    + rewrite <- Hperm. cbn. lia.
  - split; [done|]. split; [lia|done].
Qed.
End HostFacts.

(** ** Schedules *)

Section ScheduleFacts.
Context {Self : Type}.
Variable listener : event → M Self unit.
Implicit Type sys : system Self.

(** A property that every delivery of an enabled event to a running
    coordinator keeps holds all along a schedule of the host. *)
Lemma valid_invariant (P : system Self → Prop) :
  (∀ sys e, P sys → state sys = Running → enabled e (world sys).2 = true →
            P (deliver listener sys e)) →
  ∀ es sys, valid listener es sys = true → P sys → P (run listener es sys).
Proof.
  intros Hstep es. induction es as [|e es IH]; intros sys Hv HP; [done|].
  cbn in Hv. destruct (state sys) eqn:Hrun; [|done..].
  apply andb_true_iff in Hv as [He Hv].
  cbn. apply IH; [done|]. by apply Hstep.
Qed.

(** *** The count and the workers of the host *)

Variable count : Self → Z.
Hypothesis listener_accounts : ∀ e s c, ∃ k : bool,
  host_after (listener e (s, c)) = (if k then forked c else c)
  ∧ count (fields_after (listener e (s, c)))
    = count s + (if k then 1 else 0) - (if is_exit e then 1 else 0).

Lemma deliver_accounted sys e :
  accounted count sys → state sys = Running →
  enabled e (world sys).2 = true →
  accounted count (deliver listener sys e).
Proof.
  intros [Hok Hcount] Hrun He.
  rewrite deliver_running, settle_eq by done. unfold accounted. cbn [world fst snd].
  destruct (host_ok_step e _ Hok He) as (Hok' & Hlen & _).
  destruct (listener_accounts e (world sys).1 (host_step e (world sys).2))
    as (k & -> & ->).
  destruct k.
  - destruct (host_ok_forked _ Hok') as [Hok'' Hlen'']. split; [done|].
    rewrite Hlen'', Hcount. destruct (is_exit e); lia.
  - split; [done|]. rewrite Hcount. destruct (is_exit e); lia.
Qed.

Lemma valid_accounted es sys :
  valid listener es sys = true → accounted count sys →
  accounted count (run listener es sys).
Proof.
  apply (valid_invariant (accounted count)). intros sys' e.
  apply deliver_accounted.
Qed.
End ScheduleFacts.

(** ** [Supervisor]: what each callback does, all told *)

Module SupervisorStepFacts.
Import Supervisor SupervisorSpec SupervisorFacts SupervisorSteps.

Implicit Type s : WorkerCreator.
Implicit Type c : cluster.

Lemma createWorker_dequeued s c :
  ∃ k : bool,
    host_after (createWorker (s, c)) = (if k then forked c else c)
    ∧ _runningServicesCount (fields_after (createWorker (s, c)))
      = _runningServicesCount s + (if k then 1 else 0)
    ∧ _runningWorkers (fields_after (createWorker (s, c))) = _runningWorkers s
    ∧ dequeued s (fields_after (createWorker (s, c))) c
        (output_of (createWorker (s, c))) k.
Proof.
  destruct (decide (_runningServicesCount s < workerLimit (_configuration s)))
    as [Hlt|Hfull].
  2:{ exists false. rewrite createWorker_full by done. after_pair.
      unfold dequeued. repeat split; try done; lia. }
  destruct (_gen s) as [g|] eqn:Hg.
  2:{ exists false. rewrite createWorker_no_generator by done. after_pair.
      unfold dequeued. repeat split; try done; lia. }
  assert (Hcase : _queue s = [] ∨ _queue s ≠ [])
    by (destruct (_queue s); [by left | by right]).
  destruct (decide (g = Completed)) as [->|Hne].
  { exists false. rewrite createWorker_completed by done. after_pair.
    unfold dequeued. repeat split; try done; lia. }
  destruct Hcase as [Hq|Hq].
  { exists false. rewrite (createWorker_drained s c g) by done. after_pair.
    unfold dequeued. destruct g; repeat split; try done; cbn; lia. }
  exists true. rewrite (createWorker_spawn s c g) by done. after_pair.
  destruct (exists_last Hq) as (init & x & Hsnoc).
  unfold spawned, dequeued. rewrite (setService_fields_snoc s init x Hsnoc). cbn.
  repeat split; try done. exists init, x. repeat split; try done.
Qed.

Lemma listener_stepped e s c :
  ∃ k : bool, stepped e s c (listener e (s, c)) k.
Proof.
  destruct e as [w|w|w code signal|w m]; cbn [listener].
  - rewrite on_fork_run. cbn zeta.
    set (s1 := set_runningWorkers (_runningWorkers s ++ [id w]) s).
    destruct (_queue s) as [|y q] eqn:Hq.
    + exists false. unfold stepped, dequeued. after_pair. cbn.
      rewrite Hq. repeat split; try done; lia.
    + destruct (createWorker_dequeued s1 c) as (k & H1 & H2 & H3 & H4 & H5 & H6).
      assert (Hlines : ∀ r : completion unit,
                 forks (match r with Normal _ => created_lines w | _ => [] end) = []
                 ∧ listen_ids (match r with Normal _ => created_lines w | _ => [] end) = [])
        by (by intros [[]| |]).
      destruct (Hlines (completion_of (createWorker (s1, c)))) as [Hf Hl].
      exists k. unfold stepped, dequeued. after_pair.
      split; [done|]. split; [cbn in H2; cbn; lia|]. split; [done|].
      split; [done|]. split; [done|].
      unfold listen_ids in *. rewrite forks_app, omap_app, Hf, Hl, !app_nil_r.
      destruct k; [|done].
      destruct H6 as (init & x & Hx). by exists init, x.
  - exists false. unfold stepped, dequeued. after_pair. cbn.
    repeat split; try done; lia.
  - rewrite on_exit_run.
    destruct (createWorker_dequeued (release (id w) s) c)
      as (k & H1 & H2 & H3 & H4 & H5 & H6).
    assert (Hl : listen_ids (exit_lines w code signal) = [])
      by (unfold exit_lines; by destruct (crashed code)).
    exists k. unfold stepped, dequeued. after_pair.
    split; [done|]. split; [cbn in H2; cbn; lia|]. split; [done|].
    split; [done|]. split; [done|].
    unfold listen_ids in *.
    rewrite forks_app, forks_exit_lines. cbn [omap app].
    rewrite omap_app, Hl.
    destruct k; [|done].
    destruct H6 as (init & x & Hx). by exists init, x.
  - rewrite message_listener_run. exists false.
    unfold stepped, dequeued. after_pair. cbn.
    assert (Hout : ∀ out : option string,
               forks (match out with
                      | Some m' => if negb (String.eqb m' "") then [ConsoleLog m'] else []
                      | None => []
                      end) = []
               ∧ listen_ids (match out with
                             | Some m' =>
                                 if negb (String.eqb m' "") then [ConsoleLog m'] else []
                             | None => []
                             end) = []).
    { intros [m'|]; [|done]. by destruct (negb _). }
    destruct (Hout (message m)) as [Hf Hl].
    repeat split; try done; lia.
Qed.

Lemma listener_accounts e s c :
  ∃ k : bool,
    host_after (listener e (s, c)) = (if k then forked c else c)
    ∧ _runningServicesCount (fields_after (listener e (s, c)))
      = _runningServicesCount s + (if k then 1 else 0) - (if is_exit e then 1 else 0).
Proof.
  destruct (listener_stepped e s c) as (k & H1 & H2 & _). by exists k.
Qed.
End SupervisorStepFacts.

(** ** [Supervisor]: along a run *)

Module SupervisorRuns.
Import Supervisor SupervisorSpec SupervisorFacts SupervisorSteps
  SupervisorStepFacts SupervisorRunsSpec.

Implicit Type s : WorkerCreator.
Implicit Type c : cluster.

Lemma forks_preamble config pid :
  forks (preamble config pid) = [] ∧ listen_ids (preamble config pid) = [].
Proof. done. Qed.

(** The process after [start], whatever [beforeStart] does. *)
Lemma boot_stepped config b main pid :
  let sys := boot (start true (Parsed config)) (constructor b main) pid in
  ∃ k : bool,
    (world sys).2 = (if k then forked (cluster0 pid) else cluster0 pid)
    ∧ _runningServicesCount (world sys).1 = (if k then 1 else 0)
    ∧ _runningWorkers (world sys).1 = []
    ∧ dequeued (configured config b main) (world sys).1 (cluster0 pid) (trace sys) k.
Proof.
  intros sys. subst sys. unfold boot. rewrite settle_eq. destruct b as [|e].
  - rewrite start_master_run. cbn zeta. after_pair. cbn [world trace fst snd].
    destruct (createWorker_dequeued (configured config Resolves main) (cluster0 pid))
      as (k & H1 & H2 & H3 & H4 & H5 & H6).
    exists k. split; [done|]. split; [by destruct k|]. split; [done|].
    unfold dequeued. split; [done|]. split; [done|].
    assert (Hreg : ∀ r : completion unit,
               forks (match r with Normal _ => registrations | _ => [] end) = []
               ∧ listen_ids (match r with Normal _ => registrations | _ => [] end) = [])
      by (by intros [[]| |]).
    destruct (Hreg (completion_of
                      (createWorker (configured config Resolves main, cluster0 pid))))
      as [Hf Hl].
    unfold listen_ids in *. cbn [app].
    rewrite !forks_app, !omap_app, Hf, Hl, !app_nil_r.
    destruct k; [|done]. destruct H6 as (init & x & Hx). by exists init, x.
  - rewrite start_master_rejected. exists false.
    assert (Hrep : forks (report_by_typeof e) = []
                   ∧ listen_ids (report_by_typeof e) = []).
    { destruct e as [| |[]| | | |repr es]; try done.
      cbn. induction es as [|[k v] es IH]; [done | apply IH]. }
    destruct Hrep as [Hf Hl]. unfold dequeued.
    destruct e; after_pair; cbn [world trace fst snd app];
      repeat split; try done; cbn; by rewrite ?Hf, ?Hl.
Qed.

Lemma boot_accounted config b main pid :
  accounted _runningServicesCount
    (boot (start true (Parsed config)) (constructor b main) pid).
Proof.
  destruct (boot_stepped config b main pid) as (k & Hh & Hc & _).
  cbn zeta in *. unfold accounted. rewrite Hh, Hc. destruct k.
  - destruct (host_ok_forked _ (host_ok_cluster0 pid)) as [Hok Hlen].
    split; [done|]. by rewrite Hlen.
  - split; [apply host_ok_cluster0 | done].
Qed.

Lemma boot_tracked config b main pid :
  tracked (boot (start true (Parsed config)) (constructor b main) pid).
Proof.
  destruct (boot_stepped config b main pid) as (k & Hh & _ & Hrw & _).
  cbn zeta in *. unfold tracked. rewrite Hh, Hrw. destruct k.
  - by destruct (host_ok_forked _ (host_ok_cluster0 pid)) as [Hok _].
  - split; [apply host_ok_cluster0 | done].
Qed.

Lemma deliver_tracked sys e :
  tracked sys → state sys = Running → enabled e (world sys).2 = true →
  tracked (deliver listener sys e).
Proof.
  intros [Hok Hrw] Hrun He.
  rewrite deliver_running, settle_eq by done. unfold tracked. cbn [world fst snd].
  destruct (host_ok_step e _ Hok He) as (Hok' & _ & _ & Hperm).
  destruct (listener_stepped e (world sys).1 (host_step e (world sys).2))
    as (k & -> & _ & -> & _).
  assert (Hgoal : match e with
                  | EFork w => _runningWorkers (world sys).1 ++ [id w]
                  | EExit w _ _ => without (id w) (_runningWorkers (world sys).1)
                  | _ => _runningWorkers (world sys).1
                  end
                  ≡ₚ created (host_step e (world sys).2)
                     ++ online (host_step e (world sys).2)).
  { rewrite Hperm. destruct e as [w|w|w code signal|w m]; try done.
    - by rewrite Hrw.
    - unfold without. by rewrite Hrw. }
  destruct k; [|done].
  by destruct (host_ok_forked _ Hok') as [Hok'' _].
Qed.
End SupervisorRuns.

(** X1.  Along every schedule the host can produce, the running count of
    the coordinator is the number of workers the host has alive, whatever
    the configuration and whatever [beforeStart] does. *)
Theorem count_is_live_workers (config : document) (b main : hook) (pid : Z)
    (es : list event) :
  let sys0 := boot (Supervisor.start true (Parsed config))
                   (Supervisor.constructor b main) pid in
  valid Supervisor.listener es sys0 = true →
  let sys := run Supervisor.listener es sys0 in
  Supervisor._runningServicesCount (world sys).1
  = Z.of_nat (length (forking (world sys).2) + length (created (world sys).2)
              + length (online (world sys).2))
  ∧ NoDup (forking (world sys).2 ++ created (world sys).2 ++ online (world sys).2).
Proof.
  intros sys0 Hvalid sys.
  destruct (valid_accounted Supervisor.listener Supervisor._runningServicesCount
              SupervisorStepFacts.listener_accounts es sys0 Hvalid
              (SupervisorRuns.boot_accounted config b main pid))
    as [[Hnd _] Hcount].
  fold sys in Hnd, Hcount. split; [|done].
  rewrite Hcount. unfold SupervisorSpec.alive. rewrite !length_app. lia.
Qed.

Lemma count_is_live_workers_witness :
  valid Supervisor.listener scenario_schedule
    (boot (Supervisor.start true (Parsed scenario_config))
          (Supervisor.constructor Resolves Resolves) 42) = true
  ∧ NoDup (forking (world (run Supervisor.listener scenario_schedule
                             (boot (Supervisor.start true (Parsed scenario_config))
                                   (Supervisor.constructor Resolves Resolves) 42))).2
           ++ created (world (run Supervisor.listener scenario_schedule
                                (boot (Supervisor.start true (Parsed scenario_config))
                                      (Supervisor.constructor Resolves Resolves) 42))).2
           ++ online (world (run Supervisor.listener scenario_schedule
                               (boot (Supervisor.start true (Parsed scenario_config))
                                     (Supervisor.constructor Resolves Resolves) 42))).2).
Proof.
  assert (H : valid Supervisor.listener scenario_schedule
                (boot (Supervisor.start true (Parsed scenario_config))
                      (Supervisor.constructor Resolves Resolves) 42) = true)
    by (vm_compute; reflexivity).
  split; [exact H|].
  exact (proj2 (count_is_live_workers scenario_config Resolves Resolves 42
                  scenario_schedule H)).
Defined.

(** X2.  Along every schedule the host can produce, the list of running
    workers holds, each once, the workers whose ['fork'] event has been
    delivered and whose ['exit'] event has not; the workers forked whose
    ['fork'] event is still to come are in the count and not in the list. *)
Theorem running_workers_tracked (config : document) (b main : hook) (pid : Z)
    (es : list event) :
  let sys0 := boot (Supervisor.start true (Parsed config))
                   (Supervisor.constructor b main) pid in
  valid Supervisor.listener es sys0 = true →
  let sys := run Supervisor.listener es sys0 in
  Supervisor._runningWorkers (world sys).1
  ≡ₚ created (world sys).2 ++ online (world sys).2
  ∧ NoDup (Supervisor._runningWorkers (world sys).1)
  ∧ Supervisor._runningServicesCount (world sys).1
    = Z.of_nat (length (Supervisor._runningWorkers (world sys).1)
                + length (forking (world sys).2)).
Proof.
  intros sys0 Hvalid sys.
  pose proof (valid_invariant Supervisor.listener SupervisorRunsSpec.tracked
                SupervisorRuns.deliver_tracked es sys0 Hvalid
                (SupervisorRuns.boot_tracked config b main pid))
    as [[Hnd _] Hrw].
  destruct (valid_accounted Supervisor.listener Supervisor._runningServicesCount
              SupervisorStepFacts.listener_accounts es sys0 Hvalid
              (SupervisorRuns.boot_accounted config b main pid))
    as [_ Hcount].
  fold sys in Hnd, Hrw, Hcount. split; [done|]. split.
  - rewrite Hrw. unfold SupervisorSpec.alive in Hnd.
    by apply NoDup_app in Hnd as (_ & _ & Hnd).
  - rewrite Hcount, Hrw. unfold SupervisorSpec.alive. rewrite !length_app. lia.
Qed.

Lemma running_workers_tracked_witness :
  valid Supervisor.listener scenario_schedule
    (boot (Supervisor.start true (Parsed scenario_config))
          (Supervisor.constructor Resolves Resolves) 42) = true
  ∧ NoDup (Supervisor._runningWorkers
             (world (run Supervisor.listener scenario_schedule
                       (boot (Supervisor.start true (Parsed scenario_config))
                             (Supervisor.constructor Resolves Resolves) 42))).1).
Proof.
  assert (H : valid Supervisor.listener scenario_schedule
                (boot (Supervisor.start true (Parsed scenario_config))
                      (Supervisor.constructor Resolves Resolves) 42) = true)
    by (vm_compute; reflexivity).
  split; [exact H|].
  exact (proj1 (proj2 (running_workers_tracked scenario_config Resolves Resolves 42
                         scenario_schedule H))).
Defined.

(** ** Objects and outputs *)

Lemma obj_set_obj_set (k : string) (v v' : value) (o : object) :
  obj_set k v (obj_set k v' o) = obj_set k v o.
Proof.
  induction o as [|[k0 v0] o IH]; cbn.
  - by rewrite decide_True.
  - destruct (decide (k0 = k)) as [->|Hne]; cbn.
    + by rewrite decide_True.
    + rewrite decide_False by done. by rewrite IH.
Qed.

Lemma keys_obj_set (k : string) (v : value) (o : object) :
  keys (obj_set k v o) = if decide (k ∈ keys o) then keys o else keys o ++ [k].
Proof.
  unfold keys. induction o as [|[k0 v0] o IH]; cbn.
  - rewrite decide_False; [done | apply not_elem_of_nil].
  - destruct (decide (k0 = k)) as [->|Hne]; cbn.
    + rewrite decide_True; [done | apply elem_of_cons; by left].
    + rewrite IH. destruct (decide (k ∈ o.*1)) as [Hin|Hnin].
      * rewrite decide_True; [done | apply elem_of_cons; by right].
      * rewrite decide_False; [done|].
        intros [->|Hin]%elem_of_cons; done.
Qed.

Lemma fork_envs_forks (out : list effect) : fork_envs (forks out) = fork_envs out.
Proof.
  unfold fork_envs, forks in *. induction out as [|e out IH]; [done|].
  destruct e; cbn; case_decide; try done; cbn;
    first [exact IH | f_equal; exact IH].
Qed.

Lemma fork_ids_forks (out : list effect) : fork_ids (forks out) = fork_ids out.
Proof.
  unfold fork_ids, forks in *. induction out as [|e out IH]; [done|].
  destruct e; cbn; case_decide; try done; cbn;
    first [exact IH | f_equal; exact IH].
Qed.

Lemma forks_cons (e : effect) (out : list effect) :
  forks (e :: out) = if is_fork e then e :: forks out else forks out.
Proof. unfold forks. cbn. destruct (is_fork e); by case_decide. Qed.

Lemma report_no_listen (error : value) : listen_ids (report_by_typeof error) = [].
Proof.
  destruct error as [| |[]| | | |repr es]; try done.
  cbn. induction es as [|[k v] es IH]; [done | apply IH].
Qed.

Lemma errorHandler_no_listen {Self} (error : value) (σ : Self * cluster) :
  listen_ids (output_of (errorHandler error σ)) = [].
Proof.
  destruct error; try (rewrite errorHandler_report by done; apply report_no_listen).
  by rewrite errorHandler_null.
Qed.

Lemma jobs_app (out1 out2 : list effect) : jobs (out1 ++ out2) = jobs out1 ++ jobs out2.
Proof. unfold jobs, fork_envs. by rewrite omap_app, fmap_app. Qed.

(** A list that goes on as it began, shifted by [p], repeats [p]. *)
Lemma periodic_lookup {A} (p j r : list A) (i : nat) :
  p ≠ [] → j ++ r = p ++ j → (i < length j)%nat →
  j !! i = p !! (i mod length p)%nat.
Proof.
  intros Hp Heq. induction (lt_wf i) as [i _ IH]. intros Hi.
  assert (Hlen : (0 < length p)%nat) by (destruct p; [done | cbn; lia]).
  rewrite <- (lookup_app_l j r) by done. rewrite Heq.
  destruct (decide (i < length p)%nat) as [Hlt|Hge].
  - rewrite lookup_app_l by done. by rewrite Nat.mod_small.
  - rewrite lookup_app_r by lia. rewrite IH by lia.
    f_equal. replace i with ((i - length p) + 1 * length p)%nat at 2 by lia.
    by rewrite Nat.Div0.mod_add.
Qed.

(** ** [Supervisor]: the jobs and the environments along a run *)

Module SupervisorJobs.
Import Supervisor SupervisorSpec SupervisorFacts SupervisorSteps
  SupervisorStepFacts SupervisorRuns.

Implicit Type s : WorkerCreator.
Implicit Type c : cluster.

(** A property of the fields and the output that every dequeue keeps
    holds along every run, whatever the events. *)
Lemma run_dequeued (P : WorkerCreator → list effect → Prop) :
  (∀ s s' c tr out k, P s tr → dequeued s s' c out k → P s' (tr ++ out)) →
  ∀ config b main pid es,
    P (configured config b main) [] →
    let sys := run listener es
                 (boot (start true (Parsed config)) (constructor b main) pid) in
    P (world sys).1 (trace sys).
Proof.
  intros Hstep config b main pid es H0.
  apply (run_invariant listener (λ sys, P (world sys).1 (trace sys))).
  - intros sys e HP. destruct (running_or_stopped (state sys)) as [Hs|Hs];
      [|by rewrite deliver_stopped].
    rewrite deliver_running, settle_eq by done. cbn [world trace fst].
    destruct (listener_stepped e (world sys).1 (host_step e (world sys).2))
      as (k & _ & _ & _ & Hd).
    by apply (Hstep _ _ _ _ _ _ HP Hd).
  - destruct (boot_stepped config b main pid) as (k & _ & _ & _ & Hd).
    cbn zeta in Hd. apply (Hstep _ _ _ [] _ _ H0 Hd).
Qed.

Lemma dequeued_jobs s s' c out k :
  dequeued s s' c out k →
  if k then
    ∃ init x, _queue s = init ++ [x]
              ∧ _queue s' = (if loop (_configuration s) then x :: init else init)
              ∧ env (_configuration s') = obj_set "SCRAPER" x (env (_configuration s))
              ∧ fork_envs out = [env (_configuration s')]
              ∧ jobs out = [x]
  else _queue s' = _queue s ∧ env (_configuration s') = env (_configuration s)
       ∧ fork_envs out = [] ∧ jobs out = [].
Proof.
  intros (_ & _ & Hd). destruct k.
  - destruct Hd as (init & x & Hq & Hq' & Henv & Hf & _).
    exists init, x. repeat split; try done.
    + by rewrite <- fork_envs_forks, Hf.
    + unfold jobs. rewrite <- fork_envs_forks, Hf. cbn.
      by rewrite Henv, obj_get_set.
  - destruct Hd as (Hq & Henv & Hf & _). repeat split; try done.
    + by rewrite <- fork_envs_forks, Hf.
    + unfold jobs. by rewrite <- fork_envs_forks, Hf.
Qed.
End SupervisorJobs.

(** X3.  Without the loop the jobs are handed out from the end of [QUEUE]
    backwards: at every point of every run, whatever the events, the queue
    followed by the jobs of the workers forked so far, latest first, is
    [QUEUE]; so once the queue is empty the jobs forked are [QUEUE] in
    reverse, each job once. *)
Theorem jobs_run_last_first (config : document) (b main : hook) (pid : Z)
    (es : list event) :
  default false (LOOP config) = false →
  let sys := run Supervisor.listener es
               (boot (Supervisor.start true (Parsed config))
                     (Supervisor.constructor b main) pid) in
  Supervisor._queue (world sys).1 ++ rev (jobs (trace sys)) = VStr <$> QUEUE config
  ∧ (Supervisor._queue (world sys).1 = [] →
     jobs (trace sys) = rev (VStr <$> QUEUE config)).
Proof.
  intros Hloop sys.
  assert (H : Supervisor.loop (Supervisor._configuration (world sys).1) = false
              ∧ Supervisor._queue (world sys).1 ++ rev (jobs (trace sys))
                = VStr <$> QUEUE config).
  { apply (SupervisorJobs.run_dequeued
             (λ s tr, Supervisor.loop (Supervisor._configuration s) = false
                      ∧ Supervisor._queue s ++ rev (jobs tr) = VStr <$> QUEUE config));
      [|by rewrite app_nil_r].
    intros s s' c tr out k [Hl Hq] Hd.
    pose proof Hd as (_ & Hl' & _). rewrite Hl' , Hl. split; [done|].
    apply SupervisorJobs.dequeued_jobs in Hd. rewrite jobs_app, rev_app_distr.
    destruct k.
    - destruct Hd as (init & x & Hs & Hs' & _ & _ & ->).
      rewrite Hs', Hl. cbn. rewrite <- Hq, Hs. by rewrite <- app_assoc.
    - destruct Hd as (-> & _ & _ & ->). done. }
  destruct H as [_ H]. split; [done|].
  intros Hq. rewrite Hq in H. cbn in H. by rewrite <- H, rev_involutive.
Qed.

Lemma jobs_run_last_first_witness :
  default false (LOOP scenario_config) = false
  ∧ jobs (trace (run Supervisor.listener scenario_schedule
                   (boot (Supervisor.start true (Parsed scenario_config))
                         (Supervisor.constructor Resolves Resolves) 42)))
    = [VStr "j3"; VStr "j2"; VStr "j1"].
Proof.
  split; [reflexivity|].
  refine (proj2 (jobs_run_last_first scenario_config Resolves Resolves 42
                   scenario_schedule _) _); [reflexivity | vm_compute; reflexivity].
Defined.

(** X4.  With the loop the jobs are handed out round and round, from the
    end of [QUEUE] backwards: in every run, whatever the events, the job of
    the [i]-th worker forked (from 0) is the one at place [i mod n] of
    [QUEUE] reversed, [n] being the length of [QUEUE]. *)
Theorem jobs_go_round (config : document) (b main : hook) (pid : Z)
    (es : list event) (i : nat) :
  default false (LOOP config) = true →
  QUEUE config ≠ [] →
  let sys := run Supervisor.listener es
               (boot (Supervisor.start true (Parsed config))
                     (Supervisor.constructor b main) pid) in
  (i < length (jobs (trace sys)))%nat →
  jobs (trace sys) !! i
  = rev (VStr <$> QUEUE config) !! (i mod length (QUEUE config))%nat.
Proof.
  intros Hloop Hq sys Hi.
  assert (H : Supervisor.loop (Supervisor._configuration (world sys).1) = true
              ∧ jobs (trace sys) ++ rev (Supervisor._queue (world sys).1)
                = rev (VStr <$> QUEUE config) ++ jobs (trace sys)).
  { apply (SupervisorJobs.run_dequeued
             (λ s tr, Supervisor.loop (Supervisor._configuration s) = true
                      ∧ jobs tr ++ rev (Supervisor._queue s)
                        = rev (VStr <$> QUEUE config) ++ jobs tr));
      [|by rewrite app_nil_r].
    intros s s' c tr out k [Hl Hinv] Hd.
    pose proof Hd as (_ & Hl' & _). rewrite Hl', Hl. split; [done|].
    apply SupervisorJobs.dequeued_jobs in Hd. rewrite jobs_app.
    destruct k.
    - destruct Hd as (init & x & Hs & Hs' & _ & _ & ->).
      rewrite Hs', Hl. rewrite Hs, rev_app_distr in Hinv. cbn in *.
      rewrite (app_assoc (rev _)), <- Hinv, <- !app_assoc. done.
    - destruct Hd as (-> & _ & _ & ->). by rewrite !app_nil_r. }
  destruct H as [_ H].
  rewrite (periodic_lookup (rev (VStr <$> QUEUE config)) _ _ i) by
    (done || (intros Hnil; apply (f_equal length) in Hnil;
              rewrite length_rev, length_fmap in Hnil; by destruct (QUEUE config))).
  by rewrite length_rev, length_fmap.
Qed.

Lemma jobs_go_round_witness :
  let config := mkDocument ["j1"; "j2"] [] (Some true) [] false 1 in
  let es := [EFork (scenario_worker 1); EExit (scenario_worker 1) (Some 0) None;
             EFork (scenario_worker 2); EExit (scenario_worker 2) (Some 0) None] in
  default false (LOOP config) = true
  ∧ QUEUE config ≠ []
  ∧ (2 < length (jobs (trace (run Supervisor.listener es
                                (boot (Supervisor.start true (Parsed config))
                                      (Supervisor.constructor Resolves Resolves)
                                      42)))))%nat
  ∧ jobs (trace (run Supervisor.listener es
                   (boot (Supervisor.start true (Parsed config))
                         (Supervisor.constructor Resolves Resolves) 42))) !! 2%nat
    = Some (VStr "j2").
Proof.
  intros config es.
  assert (H1 : default false (LOOP config) = true) by reflexivity.
  assert (H2 : QUEUE config ≠ []) by (intros H; discriminate H).
  assert (H3 : (2 < length (jobs (trace (run Supervisor.listener es
                                           (boot (Supervisor.start true (Parsed config))
                                                 (Supervisor.constructor Resolves Resolves)
                                                 42)))))%nat)
    by (vm_compute; lia).
  split; [exact H1|]. split; [exact H2|]. split; [exact H3|].
  exact (jobs_go_round config Resolves Resolves 42 es 2 H1 H2 H3).
Defined.

(** X5.  The environment of every worker is [ENV_VARIABLES] with
    [SCRAPER] set to its job: the variables of the configuration pass
    through untouched, the jobs of earlier workers leave no trace, and every
    job comes from [QUEUE]; in every run, whatever the events and the loop
    flag. *)
Theorem fork_env_is_config_env (config : document) (b main : hook) (pid : Z)
    (es : list event) :
  let sys := run Supervisor.listener es
               (boot (Supervisor.start true (Parsed config))
                     (Supervisor.constructor b main) pid) in
  fork_envs (trace sys)
  = (λ x, obj_set "SCRAPER" x (ENV_VARIABLES config)) <$> jobs (trace sys)
  ∧ Forall (λ x, x ∈ VStr <$> QUEUE config) (jobs (trace sys))
  ∧ Forall (λ env, ∀ key, key ≠ "SCRAPER" →
                          obj_get key env = obj_get key (ENV_VARIABLES config))
      (fork_envs (trace sys)).
Proof.
  intros sys.
  assert (H : (∀ x, obj_set "SCRAPER" x
                      (Supervisor.env (Supervisor._configuration (world sys).1))
                    = obj_set "SCRAPER" x (ENV_VARIABLES config))
              ∧ (∀ x, x ∈ Supervisor._queue (world sys).1 → x ∈ VStr <$> QUEUE config)
              ∧ fork_envs (trace sys)
                = (λ x, obj_set "SCRAPER" x (ENV_VARIABLES config)) <$> jobs (trace sys)
              ∧ Forall (λ x, x ∈ VStr <$> QUEUE config) (jobs (trace sys))).
  { apply (SupervisorJobs.run_dequeued
             (λ s tr,
                (∀ x, obj_set "SCRAPER" x (Supervisor.env (Supervisor._configuration s))
                      = obj_set "SCRAPER" x (ENV_VARIABLES config))
                ∧ (∀ x, x ∈ Supervisor._queue s → x ∈ VStr <$> QUEUE config)
                ∧ fork_envs tr
                  = (λ x, obj_set "SCRAPER" x (ENV_VARIABLES config)) <$> jobs tr
                ∧ Forall (λ x, x ∈ VStr <$> QUEUE config) (jobs tr))); [|done].
    intros s s' c tr out k (Henv & Hq & Hf & Hj) Hd.
    apply SupervisorJobs.dequeued_jobs in Hd. rewrite jobs_app.
    unfold fork_envs in *. rewrite omap_app, fmap_app, Hf.
    destruct k.
    - destruct Hd as (init & x & Hs & Hs' & He' & -> & ->).
      assert (Hx : x ∈ VStr <$> QUEUE config)
        by (apply Hq; rewrite Hs; apply elem_of_app; right; by apply list_elem_of_singleton).
      rewrite He'. split; [|split; [|split]].
      + intros y. by rewrite obj_set_obj_set.
      + intros y Hy. apply Hq. rewrite Hs. rewrite Hs' in Hy.
        destruct (Supervisor.loop (Supervisor._configuration s)).
        * apply elem_of_cons in Hy as [->|Hy]; apply elem_of_app;
            [right; by apply list_elem_of_singleton | by left].
        * apply elem_of_app. by left.
      + cbn. by rewrite Henv.
      + apply Forall_app. split; [done|]. by apply Forall_singleton.
    - destruct Hd as (-> & -> & -> & ->). by rewrite !app_nil_r. }
  destruct H as (_ & _ & Hf & Hj). split; [done|]. split; [done|].
  rewrite Hf. apply Forall_fmap. apply Forall_true. intros x key Hkey. cbn.
  by apply obj_get_set_ne.
Qed.

(** ** [RingVariant]: what each callback does, all told *)

Module RingStepFacts.
Import RingVariant RingSpec RingFacts RingSteps.

Implicit Type s : WorkerCreator.
Implicit Type c : cluster.

Lemma ring_createWorker_stepped s c :
  ∃ k : bool,
    completion_of (createWorker (s, c)) = Normal tt
    ∧ host_after (createWorker (s, c)) = (if k then forked c else c)
    ∧ _runningServicesCount (fields_after (createWorker (s, c)))
      = _runningServicesCount s + (if k then 1 else 0)
    ∧ dequeued s (fields_after (createWorker (s, c))) c
        (output_of (createWorker (s, c))) k.
Proof.
  destruct (decide (_runningServicesCount s < workerLimit (_configuration s)))
    as [Hlt|Hfull].
  - exists true. rewrite ring_createWorker_spawn by done. after_pair.
    unfold dequeued, spawned, queueManager_fields.
    destruct (pop (_queue s)) as [q x]. by cbn.
  - exists false. rewrite ring_createWorker_full by done. after_pair.
    unfold dequeued. repeat split; try done; lia.
Qed.

Lemma ring_listener_stepped e s c :
  ∃ k : bool, stepped e s c (listener e (s, c)) k.
Proof.
  destruct e as [w|w|w code signal|w m]; cbn [listener].
  - rewrite ring_on_fork_run.
    destruct (ring_createWorker_stepped s c) as (k & H1 & H2 & H3 & H4 & H5 & H6).
    exists k. unfold stepped, dequeued. after_pair.
    split; [done|]. split; [done|]. split; [cbn; lia|]. split; [done|].
    unfold listen_ids in *. rewrite forks_app, omap_app, H5. cbn.
    rewrite !app_nil_r. by destruct k.
  - exists false. unfold stepped, dequeued. after_pair. cbn.
    repeat split; try done; lia.
  - rewrite ring_on_exit_run. cbn zeta.
    destruct (ring_createWorker_stepped
                (set_count (_runningServicesCount s - 1) s) c)
      as (k & H1 & H2 & H3 & H4 & H5 & H6).
    assert (Hl : listen_ids (exit_lines w code signal) = [])
      by (unfold exit_lines; by destruct (crashed code)).
    exists k. unfold stepped, dequeued. after_pair.
    split; [done|]. split; [done|]. split; [cbn in H3; cbn; lia|]. split; [done|].
    unfold listen_ids in *. rewrite forks_app, omap_app, SupervisorFacts.forks_exit_lines, Hl, H5.
    by destruct k.
  - exists false. unfold stepped, dequeued. after_pair. cbn.
    repeat split; try done; lia.
Qed.

Lemma ring_boot_stepped config b main pid :
  let sys := boot (start true (Parsed config)) (constructor b main) pid in
  ∃ k : bool,
    (world sys).2 = (if k then forked (cluster0 pid) else cluster0 pid)
    ∧ _runningServicesCount (world sys).1 = (if k then 1 else 0)
    ∧ (b = Resolves → state sys = Running)
    ∧ dequeued (configured config b main) (world sys).1 (cluster0 pid) (trace sys) k.
Proof.
  intros sys. subst sys. unfold boot. rewrite settle_eq. destruct b as [|e].
  - rewrite ring_start_master_run. cbn zeta. after_pair. cbn [world trace state fst snd].
    destruct (ring_createWorker_stepped (configured config Resolves main) (cluster0 pid))
      as (k & H1 & H2 & H3 & H4 & H5 & H6).
    exists k. split; [done|]. split; [by destruct k|]. split; [done|].
    unfold dequeued. split; [done|].
    unfold listen_ids in *. cbn [app].
    rewrite !forks_app, !omap_app, H5. cbn. rewrite !app_nil_r. by destruct k.
  - rewrite ring_start_master_rejected. exists false.
    assert (Hrep : forks (report_by_typeof e) = []
                   ∧ listen_ids (report_by_typeof e) = []).
    { destruct e as [| |[]| | | |repr es]; try done.
      cbn. induction es as [|[k v] es IH]; [done | apply IH]. }
    destruct Hrep as [Hf Hl]. unfold dequeued.
    destruct e; after_pair; cbn [world trace fst snd app];
      repeat split; try done; cbn; by rewrite ?Hf, ?Hl.
Qed.

Lemma ring_listener_accounts e s c :
  ∃ k : bool,
    host_after (listener e (s, c)) = (if k then forked c else c)
    ∧ _runningServicesCount (fields_after (listener e (s, c)))
      = _runningServicesCount s + (if k then 1 else 0) - (if is_exit e then 1 else 0).
Proof.
  destruct (ring_listener_stepped e s c) as (k & _ & H1 & H2 & _). by exists k.
Qed.

Lemma ring_boot_accounted config b main pid :
  accounted _runningServicesCount
    (boot (start true (Parsed config)) (constructor b main) pid).
Proof.
  destruct (ring_boot_stepped config b main pid) as (k & Hh & Hc & _).
  cbn zeta in *. unfold accounted. rewrite Hh, Hc. destruct k.
  - destruct (host_ok_forked _ (host_ok_cluster0 pid)) as [Hok Hlen].
    split; [done|]. by rewrite Hlen.
  - split; [apply host_ok_cluster0 | done].
Qed.

(** A property of the fields and the output that every dequeue keeps
    holds along every run, and the coordinator keeps running. *)
Lemma ring_run_dequeued (P : WorkerCreator → list effect → Prop) :
  (∀ s s' c tr out k, P s tr → dequeued s s' c out k → P s' (tr ++ out)) →
  ∀ config main pid es,
    P (configured config Resolves main) [] →
    let sys := run listener es
                 (boot (start true (Parsed config)) (constructor Resolves main) pid) in
    state sys = Running ∧ P (world sys).1 (trace sys).
Proof.
  intros Hstep config main pid es H0.
  apply (run_invariant listener
           (λ sys, state sys = Running ∧ P (world sys).1 (trace sys))).
  - intros sys e [Hs HP].
    rewrite deliver_running, settle_eq by done. cbn [world trace state fst].
    destruct (ring_listener_stepped e (world sys).1 (host_step e (world sys).2))
      as (k & -> & _ & _ & Hd).
    split; [done|]. by apply (Hstep _ _ _ _ _ _ HP Hd).
  - destruct (ring_boot_stepped config Resolves main pid) as (k & _ & _ & Hr & Hd).
    cbn zeta in *. split; [by apply Hr|]. apply (Hstep _ _ _ [] _ _ H0 Hd).
Qed.
End RingStepFacts.

(** ** [PoolVariant]: what each callback does, all told *)

Module PoolStepFacts.
Import PoolVariant PoolSpec PoolFacts PoolSteps.

Implicit Type s : WorkerCreator.
Implicit Type c : cluster.

Lemma pool_createWorker_stepped s c :
  ∃ k : bool,
    k = below (_runningServicesCount s) (workerLimit (_configuration s))
    ∧ completion_of (createWorker (s, c)) = Normal tt
    ∧ host_after (createWorker (s, c)) = (if k then forked c else c)
    ∧ _runningServicesCount (fields_after (createWorker (s, c)))
      = _runningServicesCount s + (if k then 1 else 0)
    ∧ _configuration (fields_after (createWorker (s, c))) = _configuration s
    ∧ forks (output_of (createWorker (s, c)))
      = (if k then [Fork (ids c + 1) (default [] (env (_configuration s)))] else [])
    ∧ listen_ids (output_of (createWorker (s, c)))
      = (if k then [ids c + 1] else []).
Proof.
  destruct (below (_runningServicesCount s) (workerLimit (_configuration s)))
    eqn:Hb.
  - exists true. rewrite pool_createWorker_spawn by done. after_pair. by cbn.
  - exists false. rewrite pool_createWorker_full by done. after_pair.
    repeat split; try done; lia.
Qed.

Lemma pool_listener_stepped e s c :
  ∃ k : bool, stepped e s c (listener e (s, c)) k.
Proof.
  destruct e as [w|w|w code signal|w m]; cbn [listener].
  - rewrite pool_on_fork_run.
    destruct (pool_createWorker_stepped s c)
      as (k & _ & H1 & H2 & H3 & H4 & H5 & H6).
    exists k. unfold stepped. after_pair.
    split; [done|]. split; [done|]. split; [cbn; lia|]. split; [done|].
    unfold listen_ids in *. rewrite forks_app, omap_app, H5, H6. cbn.
    by rewrite !app_nil_r.
  - exists false. unfold stepped. after_pair. cbn. repeat split; try done; lia.
  - rewrite pool_on_exit_run. cbn zeta.
    destruct (pool_createWorker_stepped
                (set_count (_runningServicesCount s - 1) s) c)
      as (k & _ & H1 & H2 & H3 & H4 & H5 & H6).
    assert (Hl : listen_ids (exit_lines w code signal) = [])
      by (unfold exit_lines; by destruct (crashed code)).
    exists k. unfold stepped. after_pair.
    split; [done|]. split; [done|]. split; [cbn in H3; cbn; lia|]. split; [done|].
    unfold listen_ids in *.
    by rewrite forks_app, omap_app, SupervisorFacts.forks_exit_lines, Hl, H5, H6.
  - rewrite message_listener_run. exists false. unfold stepped. after_pair. cbn.
    assert (Hout : ∀ out : option string,
               forks (match out with
                      | Some m' => if negb (String.eqb m' "") then [ConsoleLog m'] else []
                      | None => []
                      end) = []
               ∧ listen_ids (match out with
                             | Some m' =>
                                 if negb (String.eqb m' "") then [ConsoleLog m'] else []
                             | None => []
                             end) = []).
    { intros [m'|]; [|done]. by destruct (negb _). }
    destruct (Hout (message m)) as [Hf Hl].
    repeat split; try done; lia.
Qed.

Lemma pool_listener_accounts e s c :
  ∃ k : bool,
    host_after (listener e (s, c)) = (if k then forked c else c)
    ∧ _runningServicesCount (fields_after (listener e (s, c)))
      = _runningServicesCount s + (if k then 1 else 0) - (if is_exit e then 1 else 0).
Proof.
  destruct (pool_listener_stepped e s c) as (k & _ & H1 & H2 & _). by exists k.
Qed.

(** [start] in the coordinator, on fields whose configuration went
    through [setDefaultConfiguration]. *)
Lemma pool_start_master_run cpus config main c :
  let s := mkSelf 0 (defaults cpus config) main in
  ∃ k : bool,
    host_after (start true (s, c)) = (if k then forked c else c)
    ∧ _runningServicesCount (fields_after (start true (s, c))) = (if k then 1 else 0)
    ∧ _configuration (fields_after (start true (s, c))) = defaults cpus config
    ∧ forks (output_of (start true (s, c)))
      = (if k then [Fork (ids c + 1) (default [] (env (defaults cpus config)))] else [])
    ∧ listen_ids (output_of (start true (s, c))) = (if k then [ids c + 1] else [])
    ∧ (default Resolves (beforeStart config) = Resolves →
       completion_of (start true (s, c)) = Normal tt
       ∧ k = below 0 (clamp cpus (workerLimit config))).
Proof.
  intros s. unfold start, createMasterProcess. unfold_M.
  cbn -[createWorker errorHandler String.append defaults].
  change (beforeStart (defaults cpus config))
    with (Some (default Resolves (beforeStart config))).
  change (args (defaults cpus config)) with (Some (default [""] (args config))).
  change (silentMode (defaults cpus config))
    with (Some (default false (silentMode config))).
  change (env (defaults cpus config))
    with (Some (default [("CLUSTER", VStr "true")] (env config))).
  cbn -[createWorker errorHandler String.append defaults].
  destruct (default Resolves (beforeStart config)) as [|e].
  - destruct (pool_createWorker_stepped s c)
      as (k & Hk & H1 & H2 & H3 & H4 & H5 & H6).
    unfold fields_after, host_after, completion_of, output_of in *.
    change (createWorker _) with (createWorker (s, c)).
    destruct (createWorker (s, c)) as [[r [s' c']] out]. cbn in H1. subst r.
    exists k. cbn -[defaults forks] in *. unfold listen_ids in *.
    rewrite !forks_cons. cbn [is_fork].
    rewrite forks_app, omap_app, H5, H6. cbn -[defaults]. rewrite !app_nil_r.
    repeat split; try done.
  - exists false.
    match goal with
    | |- context [errorHandler e ?σ] =>
        pose proof (errorHandler_frame e σ) as (Hf & Hh & Hfk);
        pose proof (errorHandler_no_listen e σ) as Hl;
        unfold fields_after, host_after, output_of in Hf, Hh, Hfk, Hl;
        destruct (errorHandler e σ) as [[[[]|e'|code] [s' c']] out]
    end.
    all: cbn -[defaults forks] in *; subst; unfold listen_ids in *;
      rewrite ?forks_cons, ?app_nil_r; cbn [is_fork];
      repeat split; try done.
Qed.

Lemma pool_boot_stepped cpus main configuration pid :
  let config := default (defaultConfig cpus) configuration in
  let sys := boot (construct_and_start cpus true)
                  (constructor cpus main configuration) pid in
  ∃ k : bool,
    (world sys).2 = (if k then forked (cluster0 pid) else cluster0 pid)
    ∧ _runningServicesCount (world sys).1 = (if k then 1 else 0)
    ∧ _configuration (world sys).1 = defaults cpus config
    ∧ forks (trace sys)
      = (if k then [Fork 1 (default [] (env (defaults cpus config)))] else [])
    ∧ listen_ids (trace sys) = (if k then [1] else [])
    ∧ (default Resolves (beforeStart config) = Resolves →
       state sys = Running ∧ k = below 0 (clamp cpus (workerLimit config))).
Proof.
  intros config sys. subst sys. unfold boot. rewrite settle_eq.
  cbn [world trace state fst snd]. unfold construct_and_start.
  set (s0 := constructor cpus main configuration).
  pose proof (pool_setDefaultConfiguration_run cpus s0 (cluster0 pid))
    as (Hf & Hh & Hc & Hfk).
  assert (Hl : listen_ids (output_of (setDefaultConfiguration cpus (s0, cluster0 pid)))
               = []).
  { unfold setDefaultConfiguration, cpusChecker. unfold_M.
    destruct (workerLimit (_configuration s0)) as [l|]; [|done].
    by destruct (bool_decide (l > Z.of_nat cpus)). }
  destruct (pool_start_master_run cpus config main (cluster0 pid))
    as (k & H1 & H2 & H3 & H4 & H5 & H6).
  cbn zeta in *.
  unfold fields_after, host_after, completion_of, output_of in *.
  cbv [mbind M_bind bind].
  destruct (setDefaultConfiguration cpus (s0, cluster0 pid)) as [[r [s' c']] out].
  cbn -[defaults forks] in Hf, Hh, Hc, Hfk, Hl. subst r s' c'.
  change (set_configuration (defaults cpus (_configuration s0)) s0)
    with (mkSelf 0 (defaults cpus config) main).
  destruct (start true _) as [[r [s' c']] out'].
  cbn -[defaults forks] in *. exists k. unfold listen_ids in *.
  rewrite forks_app, omap_app, Hfk, Hl, H4, H5. cbn -[defaults forks].
  repeat split; try done.
  - by destruct (H6 H) as [-> _].
  - by destruct (H6 H) as [_ ->].
Qed.

Lemma pool_boot_accounted cpus main configuration pid :
  accounted _runningServicesCount
    (boot (construct_and_start cpus true) (constructor cpus main configuration) pid).
Proof.
  destruct (pool_boot_stepped cpus main configuration pid) as (k & Hh & Hc & _).
  cbn zeta in *. unfold accounted. rewrite Hh, Hc. destruct k.
  - destruct (host_ok_forked _ (host_ok_cluster0 pid)) as [Hok Hlen].
    split; [done|]. by rewrite Hlen.
  - split; [apply host_ok_cluster0 | done].
Qed.
End PoolStepFacts.

(** X6.  In the two versions of [main.ts] too, along every schedule the
    host can produce, the running count is the number of workers the host
    has alive. *)
Theorem count_is_live_workers_main :
  (∀ config b main pid es,
     let sys0 := boot (RingVariant.start true (Parsed config))
                      (RingVariant.constructor b main) pid in
     valid RingVariant.listener es sys0 = true →
     let sys := run RingVariant.listener es sys0 in
     RingVariant._runningServicesCount (world sys).1
     = Z.of_nat (length (forking (world sys).2) + length (created (world sys).2)
                 + length (online (world sys).2)))
  ∧ (∀ cpus main configuration pid es,
       let sys0 := boot (PoolVariant.construct_and_start cpus true)
                        (PoolVariant.constructor cpus main configuration) pid in
       valid PoolVariant.listener es sys0 = true →
       let sys := run PoolVariant.listener es sys0 in
       PoolVariant._runningServicesCount (world sys).1
       = Z.of_nat (length (forking (world sys).2) + length (created (world sys).2)
                   + length (online (world sys).2))).
Proof.
  split.
  - intros config b main pid es sys0 Hvalid sys.
    destruct (valid_accounted RingVariant.listener RingVariant._runningServicesCount
                RingStepFacts.ring_listener_accounts es sys0 Hvalid
                (RingStepFacts.ring_boot_accounted config b main pid))
      as [_ Hcount].
    fold sys in Hcount. rewrite Hcount. unfold SupervisorSpec.alive.
    rewrite !length_app. lia.
  - intros cpus main configuration pid es sys0 Hvalid sys.
    destruct (valid_accounted PoolVariant.listener PoolVariant._runningServicesCount
                PoolStepFacts.pool_listener_accounts es sys0 Hvalid
                (PoolStepFacts.pool_boot_accounted cpus main configuration pid))
      as [_ Hcount].
    fold sys in Hcount. rewrite Hcount. unfold SupervisorSpec.alive.
    rewrite !length_app. lia.
Qed.

Lemma count_is_live_workers_main_witness :
  let sys0 := boot (PoolVariant.construct_and_start 4 true)
                (PoolVariant.constructor 4 Resolves
                   (Some (PoolVariant.mkConfig (Some 1)
                            (Some [("Testing", VStr "yeah-worked")]) None None None)))
                42 in
  let es := [EFork (scenario_worker 1); EOnline (scenario_worker 1);
             EExit (scenario_worker 1) (Some 0) None; EFork (scenario_worker 2)] in
  valid PoolVariant.listener es sys0 = true
  ∧ PoolVariant._runningServicesCount (world (run PoolVariant.listener es sys0)).1
    = Z.of_nat (length (forking (world (run PoolVariant.listener es sys0)).2)
                + length (created (world (run PoolVariant.listener es sys0)).2)
                + length (online (world (run PoolVariant.listener es sys0)).2)).
Proof.
  intros sys0 es.
  assert (H : valid PoolVariant.listener es sys0 = true) by (vm_compute; reflexivity).
  split; [exact H|].
  exact (proj2 count_is_live_workers_main 4%nat Resolves _ 42 es H).
Defined.

(** X7.  Every worker forked is given a message listener, and no other:
    in every run of the version with the queue and of the version with the
    pool, whatever the events, the workers [messageReader] was called on
    are the workers forked, in the same order. *)
Theorem every_fork_is_listened_to :
  (∀ config b main pid es,
     let sys := run Supervisor.listener es
                  (boot (Supervisor.start true (Parsed config))
                        (Supervisor.constructor b main) pid) in
     listen_ids (trace sys) = fork_ids (trace sys))
  ∧ (∀ cpus main configuration pid es,
       let sys := run PoolVariant.listener es
                    (boot (PoolVariant.construct_and_start cpus true)
                          (PoolVariant.constructor cpus main configuration) pid) in
       listen_ids (trace sys) = fork_ids (trace sys)).
Proof.
  split.
  - intros config b main pid es.
    apply (SupervisorJobs.run_dequeued (λ s tr, listen_ids tr = fork_ids tr));
      [|done].
    intros s s' c tr out k Htr (_ & _ & Hd).
    unfold listen_ids, fork_ids in *. rewrite !omap_app, Htr. f_equal.
    fold (fork_ids out). rewrite <- fork_ids_forks.
    destruct k.
    + destruct Hd as (init & x & _ & _ & _ & -> & Hl). by rewrite Hl.
    + destruct Hd as (_ & _ & -> & Hl). by rewrite Hl.
  - intros cpus main configuration pid es.
    apply (run_invariant PoolVariant.listener
             (λ sys, listen_ids (trace sys) = fork_ids (trace sys))).
    + intros sys e Htr. destruct (running_or_stopped (state sys)) as [Hs|Hs];
        [|by rewrite deliver_stopped].
      rewrite deliver_running, settle_eq by done. cbn [trace].
      destruct (PoolStepFacts.pool_listener_stepped e (world sys).1
                  (host_step e (world sys).2))
        as (k & _ & _ & _ & _ & Hf & Hl).
      unfold listen_ids, fork_ids in *. rewrite !omap_app, Htr. f_equal.
      fold (fork_ids (output_of (PoolVariant.listener e
                                   ((world sys).1, host_step e (world sys).2)))).
      rewrite <- fork_ids_forks, Hf, Hl. by destruct k.
    + destruct (PoolStepFacts.pool_boot_stepped cpus main configuration pid)
        as (k & _ & _ & _ & Hf & Hl & _).
      cbn zeta in *. rewrite <- fork_ids_forks, Hf, Hl. by destruct k.
Qed.

(** ** [RingVariant]: the jobs along a run *)

Module RingJobs.
Import RingVariant RingSpec RingFacts RingSteps RingStepFacts.

Lemma ring_dequeued_jobs s s' c out k :
  dequeued s s' c out k →
  if k then
    _queue s' = (pop (_queue s)).2 :: (pop (_queue s)).1
    ∧ jobs out = [(pop (_queue s)).2]
  else _queue s' = _queue s ∧ jobs out = [].
Proof.
  intros (_ & _ & Hd). destruct k.
  - destruct Hd as (Hq & Henv & Hf). split; [done|].
    unfold jobs. rewrite <- fork_envs_forks, Hf. cbn. by rewrite Henv, obj_get_set.
  - destruct Hd as (Hq & _ & Hf). split; [done|].
    unfold jobs. by rewrite <- fork_envs_forks, Hf.
Qed.
End RingJobs.

(** X8.  The first version, on a queue that is not empty, keeps running
    whatever the events, keeps the length of its queue, and hands the jobs
    out round and round from the end of [QUEUE] backwards: the job of the
    [i]-th worker forked is the one at place [i mod n] of [QUEUE]
    reversed. *)
Theorem ring_jobs_go_round (config : document) (main : hook) (pid : Z)
    (es : list event) (i : nat) :
  QUEUE config ≠ [] →
  let sys := run RingVariant.listener es
               (boot (RingVariant.start true (Parsed config))
                     (RingVariant.constructor Resolves main) pid) in
  state sys = Running
  ∧ length (RingVariant._queue (world sys).1) = length (QUEUE config)
  ∧ ((i < length (jobs (trace sys)))%nat →
     jobs (trace sys) !! i
     = rev (VStr <$> QUEUE config) !! (i mod length (QUEUE config))%nat).
Proof.
  intros Hq sys.
  assert (H : state sys = Running
              ∧ length (RingVariant._queue (world sys).1) = length (QUEUE config)
              ∧ jobs (trace sys) ++ rev (RingVariant._queue (world sys).1)
                = rev (VStr <$> QUEUE config) ++ jobs (trace sys)).
  { apply (RingStepFacts.ring_run_dequeued
             (λ s tr, length (RingVariant._queue s) = length (QUEUE config)
                      ∧ jobs tr ++ rev (RingVariant._queue s)
                        = rev (VStr <$> QUEUE config) ++ jobs tr)).
    - intros s s' c tr out k [Hlen Hinv] Hd.
      apply RingJobs.ring_dequeued_jobs in Hd. rewrite jobs_app.
      destruct k.
      + assert (Hne : RingVariant._queue s ≠ []).
        { intros Hnil. rewrite Hnil in Hlen. by destruct (QUEUE config). }
        destruct (exists_last Hne) as (init & x & Hs).
        rewrite Hs, pop_snoc in Hd. cbn in Hd. destruct Hd as [-> ->].
        rewrite Hs, rev_app_distr in Hinv. rewrite Hs, length_app in Hlen.
        cbn in *. split; [lia|].
        rewrite (app_assoc (rev _)), <- Hinv, <- !app_assoc. done.
      + destruct Hd as [-> ->]. by rewrite !app_nil_r.
    - cbn. by rewrite length_fmap, app_nil_r. }
  destruct H as (Hrun & Hlen & H). split; [done|]. split; [done|].
  intros Hi.
  rewrite (periodic_lookup (rev (VStr <$> QUEUE config)) _ _ i) by
    (done || (intros Hnil; apply (f_equal length) in Hnil;
              rewrite length_rev, length_fmap in Hnil; by destruct (QUEUE config))).
  by rewrite length_rev, length_fmap.
Qed.

Lemma ring_jobs_go_round_witness :
  let config := mkDocument ["j1"; "j2"] [] None [] false 1 in
  let es := [EFork (scenario_worker 1); EExit (scenario_worker 1) (Some 0) None;
             EFork (scenario_worker 2); EExit (scenario_worker 2) (Some 0) None] in
  QUEUE config ≠ []
  ∧ state (run RingVariant.listener es
             (boot (RingVariant.start true (Parsed config))
                   (RingVariant.constructor Resolves Resolves) 42)) = Running.
Proof.
  intros config es.
  assert (H : QUEUE config ≠ []) by (intros H; discriminate H).
  split; [exact H|].
  exact (proj1 (ring_jobs_go_round config Resolves 42 es 0 H)).
Defined.

(** X9.  The first version has no guard on an empty queue: with [QUEUE]
    empty and a positive limit it does not exit but forks at once, and in
    every run, whatever the events, every worker forked has [undefined] for
    [SCRAPER], [undefined] being the one element of the queue. *)
Theorem ring_empty_queue_runs_undefined (config : document) (main : hook) (pid : Z)
    (es : list event) :
  QUEUE config = [] →
  0 < WORKER_LIMIT config →
  let sys := run RingVariant.listener es
               (boot (RingVariant.start true (Parsed config))
                     (RingVariant.constructor Resolves main) pid) in
  state sys = Running
  ∧ RingVariant._queue (world sys).1 = [VUndefined]
  ∧ jobs (trace sys) ≠ []
  ∧ Forall (λ x, x = VUndefined) (jobs (trace sys)).
Proof.
  intros Hq Hlimit sys.
  set (sys0 := boot (RingVariant.start true (Parsed config))
                    (RingVariant.constructor Resolves main) pid).
  assert (H0 : RingVariant._queue (world sys0).1 = [VUndefined]
               ∧ jobs (trace sys0) = [VUndefined]).
  { subst sys0. unfold boot.
    rewrite RingFacts.ring_start_master_run, settle_eq. cbn zeta.
    rewrite RingFacts.ring_createWorker_spawn by (cbn; lia).
    after_pair. cbn [world trace fst snd].
    unfold RingSpec.spawned, RingVariant.queueManager_fields, RingSpec.configured.
    cbn [RingVariant._queue]. rewrite Hq. cbn. split; [done|].
    by rewrite obj_get_set. }
  destruct H0 as [Hq0 Hj0].
  assert (H : state sys = Running
              ∧ RingVariant._queue (world sys).1 = [VUndefined]
              ∧ ∃ rest, jobs (trace sys) = VUndefined :: rest
                        ∧ Forall (λ x, x = VUndefined) rest).
  { apply (run_invariant RingVariant.listener
             (λ sys, state sys = Running
                     ∧ RingVariant._queue (world sys).1 = [VUndefined]
                     ∧ ∃ rest, jobs (trace sys) = VUndefined :: rest
                               ∧ Forall (λ x, x = VUndefined) rest)).
    - intros sys' e (Hs & Hqs & rest & Hj & Hall).
      rewrite deliver_running, settle_eq by done. cbn [world trace state fst].
      destruct (RingStepFacts.ring_listener_stepped e (world sys').1
                  (host_step e (world sys').2)) as (k & -> & _ & _ & Hd).
      apply RingJobs.ring_dequeued_jobs in Hd. rewrite jobs_app, Hj, Hqs in *.
      split; [done|]. destruct k.
      + destruct Hd as [-> ->]. split; [done|].
        exists (rest ++ [VUndefined]). split; [done|].
        apply Forall_app. split; [done | by apply Forall_singleton].
      + destruct Hd as [-> ->]. split; [done|].
        exists rest. by rewrite app_nil_r.
    - split; [|split; [done|]].
      + destruct (RingStepFacts.ring_boot_stepped config Resolves main pid)
          as (k & _ & _ & Hr & _). by apply Hr.
      + exists []. split; [exact Hj0 | constructor]. }
  destruct H as (Hrun & Hqs & rest & Hj & Hall).
  split; [done|]. split; [done|]. rewrite Hj. split; [done|].
  by apply Forall_cons.
Qed.

Lemma ring_empty_queue_runs_undefined_witness :
  let config := mkDocument [] [] None [] false 2 in
  QUEUE config = []
  ∧ 0 < WORKER_LIMIT config
  ∧ RingVariant._queue
      (world (run RingVariant.listener [EFork (scenario_worker 1)]
                (boot (RingVariant.start true (Parsed config))
                      (RingVariant.constructor Resolves Resolves) 42))).1
    = [VUndefined].
Proof.
  intros config.
  assert (H1 : QUEUE config = []) by reflexivity.
  assert (H2 : 0 < WORKER_LIMIT config) by (cbn; lia).
  split; [exact H1|]. split; [exact H2|].
  exact (proj1 (proj2 (ring_empty_queue_runs_undefined config Resolves 42
                         [EFork (scenario_worker 1)] H1 H2))).
Defined.

(** ** [Supervisor]: when the pool is full and when the coordinator exits *)

Module SupervisorLife.
Import Supervisor SupervisorSpec SupervisorFacts SupervisorLifeSpec.

Implicit Type s : WorkerCreator.
Implicit Type c : cluster.

Lemma createWorker_saturates s c :
  suspended s → count_bounded s →
  completion_of (createWorker (s, c)) = Normal tt →
  _runningServicesCount (fields_after (createWorker (s, c)))
  = workerLimit (_configuration s)
  ∨ forking (host_after (createWorker (s, c))) ≠ [].
Proof.
  intros (g & Hg & Hne) Hb. unfold count_bounded in Hb.
  assert (Hcase : _queue s = [] ∨ _queue s ≠ [])
    by (destruct (_queue s); [by left | by right]).
  destruct (decide (_runningServicesCount s < workerLimit (_configuration s)))
    as [Hlt|Hfull]; [destruct Hcase as [Hq|Hq]|].
  - by rewrite (createWorker_drained s c g).
  - rewrite (createWorker_spawn s c g) by done. intros _. right.
    after_pair. cbn. by destruct (forking c).
  - rewrite createWorker_full by done. intros _. left. after_pair. lia.
Qed.

Lemma deliver_saturated limit sys e :
  saturated limit sys → saturated limit (deliver listener sys e).
Proof.
  intros (Hl & Hb & Hrun).
  destruct (running_or_stopped (state sys)) as [Hs|Hs];
    [|by rewrite deliver_stopped].
  destruct (Hrun Hs) as [Hgen Hsat]. clear Hrun.
  rewrite deliver_running, settle_eq by done.
  destruct sys as [st [s c] tr]. cbn [world state trace fst snd] in *. subst limit.
  destruct (listener_bounded e s (host_step e c) Hb) as [Hb' Hl'].
  pose proof (listener_suspended e s (host_step e c) Hgen) as Hgen'.
  unfold saturated. cbn [world state fst snd].
  split; [done|]. split; [unfold count_bounded in Hb'; by rewrite <- Hl'|].
  intros Hnormal.
  destruct (completion_of (listener e (s, host_step e c))) as [[]| |] eqn:Hc;
    try done.
  split; [done|]. clear Hnormal Hgen'. revert Hc.
  destruct e as [w|w|w code signal|w m]; cbn [listener].
  - rewrite on_fork_run. cbn zeta. destruct (_queue s) eqn:Hq.
    + intros _. right. right. by after_pair.
    + after_pair. intros Hc.
      destruct (createWorker_saturates
                  (set_runningWorkers (_runningWorkers s ++ [id w]) s)
                  (host_step (EFork w) c) Hgen Hb Hc) as [H|H]; [by left|].
      right. by left.
  - intros _. after_pair. cbn. destruct Hsat as [H|[H|H]]; auto.
  - rewrite on_exit_run. after_pair. intros Hc.
    assert (Hb1 : count_bounded (release (id w) s))
      by (unfold count_bounded, release in *; cbn; lia).
    destruct (createWorker_saturates (release (id w) s)
                (host_step (EExit w code signal) c) Hgen Hb1 Hc) as [H|H];
      [by left|]. right. by left.
  - rewrite message_listener_run. intros _. after_pair. cbn.
    destruct Hsat as [H|[H|H]]; auto.
Qed.

Lemma boot_saturated config b main pid :
  0 ≤ WORKER_LIMIT config →
  saturated (WORKER_LIMIT config)
    (boot (start true (Parsed config)) (constructor b main) pid).
Proof.
  intros Hlimit.
  destruct (boot_bounded config b main pid Hlimit) as [Hb Hl]. cbn zeta in *.
  split; [done|]. split; [unfold count_bounded in Hb; by rewrite <- Hl|].
  intros Hrun. pose proof (boot_suspended config b main pid) as Hgen.
  cbn zeta in Hgen. rewrite Hrun in Hgen. split; [done|].
  revert Hrun. unfold boot. rewrite settle_eq. destruct b as [|e].
  - rewrite start_master_run. cbn zeta. after_pair. cbn [state world fst snd].
    assert (Hgen0 : suspended (configured config Resolves main))
      by (by exists SuspendedStart).
    assert (Hb0 : count_bounded (configured config Resolves main))
      by (unfold count_bounded; cbn; lia).
    pose proof (createWorker_saturates _ (cluster0 pid) Hgen0 Hb0) as Hsat.
    destruct (completion_of (createWorker _)) as [[]| |]; try done.
    intros _. destruct (Hsat eq_refl) as [H|H]; [by left | right; by left].
  - rewrite start_master_rejected. by destruct e.
Qed.

(** Only an ['exit'] event can end a coordinator whose generator is
    suspended. *)
Lemma listener_keeps_running e s c :
  suspended s → is_exit e = false →
  completion_of (listener e (s, c)) = Normal tt.
Proof.
  intros Hgen He. destruct e as [w|w|w code signal|w m]; cbn [listener]; try done.
  - rewrite on_fork_run. cbn zeta. destruct (_queue s) eqn:Hq; [done|].
    after_pair.
    pose proof (createWorker_suspended
                  (set_runningWorkers (_runningWorkers s ++ [id w]) s) c Hgen) as H.
    destruct (completion_of (createWorker _)) as [[]| |]; try done.
    destruct H as [_ H]. cbn in H. by rewrite Hq in H.
  - by rewrite message_listener_run.
Qed.
End SupervisorLife.

(** X10.  Under a non-negative limit the version with the queue keeps its
    pool as full as it can: in every state a run reaches in which the
    coordinator is running, the count is at the limit, or a worker has been
    forked whose ['fork'] event is still to come (and will call
    [createWorker] again), or the queue is empty. *)
Theorem workers_kept_at_limit (config : document) (b main : hook) (pid : Z)
    (es : list event) :
  0 ≤ WORKER_LIMIT config →
  let sys := run Supervisor.listener es
               (boot (Supervisor.start true (Parsed config))
                     (Supervisor.constructor b main) pid) in
  state sys = Running →
  Supervisor._runningServicesCount (world sys).1 = WORKER_LIMIT config
  ∨ forking (world sys).2 ≠ []
  ∨ Supervisor._queue (world sys).1 = [].
Proof.
  intros Hlimit sys Hrun.
  assert (H : SupervisorLifeSpec.saturated (WORKER_LIMIT config) sys).
  { apply (run_invariant Supervisor.listener
             (SupervisorLifeSpec.saturated (WORKER_LIMIT config))).
    - intros sys' e. apply SupervisorLife.deliver_saturated.
    - by apply SupervisorLife.boot_saturated. }
  destruct H as (_ & _ & H). by destruct (H Hrun) as [_ H'].
Qed.

Lemma workers_kept_at_limit_witness :
  let es := [EFork (scenario_worker 1); EFork (scenario_worker 2)] in
  0 ≤ WORKER_LIMIT scenario_config
  ∧ state (run Supervisor.listener es
             (boot (Supervisor.start true (Parsed scenario_config))
                   (Supervisor.constructor Resolves Resolves) 42)) = Running
  ∧ (Supervisor._runningServicesCount
       (world (run Supervisor.listener es
                 (boot (Supervisor.start true (Parsed scenario_config))
                       (Supervisor.constructor Resolves Resolves) 42))).1
     = WORKER_LIMIT scenario_config
     ∨ forking (world (run Supervisor.listener es
                         (boot (Supervisor.start true (Parsed scenario_config))
                               (Supervisor.constructor Resolves Resolves) 42))).2 ≠ []
     ∨ Supervisor._queue
         (world (run Supervisor.listener es
                   (boot (Supervisor.start true (Parsed scenario_config))
                         (Supervisor.constructor Resolves Resolves) 42))).1 = []).
Proof.
  intros es.
  assert (H1 : 0 ≤ WORKER_LIMIT scenario_config) by (cbn; lia).
  assert (H2 : state (run Supervisor.listener es
                        (boot (Supervisor.start true (Parsed scenario_config))
                              (Supervisor.constructor Resolves Resolves) 42)) = Running)
    by (vm_compute; reflexivity).
  split; [exact H1|]. split; [exact H2|].
  exact (workers_kept_at_limit scenario_config Resolves Resolves 42 es H1 H2).
Defined.

(** X11.  The coordinator of the version with the queue never exits on a
    ['fork'] event, an ['online'] event or a message: from any state a run
    reaches in which it is running, only the delivery of an ['exit'] event
    can end it. *)
Theorem only_exit_events_end_the_coordinator (config : document) (b main : hook)
    (pid : Z) (es : list event) (e : event) :
  let sys := run Supervisor.listener es
               (boot (Supervisor.start true (Parsed config))
                     (Supervisor.constructor b main) pid) in
  state sys = Running →
  is_exit e = false →
  state (deliver Supervisor.listener sys e) = Running.
Proof.
  intros sys Hrun He.
  pose proof (SupervisorFacts.run_suspended config b main pid es Hrun) as Hgen.
  rewrite deliver_running, settle_eq by done. cbn [state].
  by rewrite (SupervisorLife.listener_keeps_running e _ _ Hgen He).
Qed.

Lemma only_exit_events_end_the_coordinator_witness :
  let es := [EFork (scenario_worker 1); EFork (scenario_worker 2);
             EExit (scenario_worker 1) (Some 0) None] in
  state (run Supervisor.listener es
           (boot (Supervisor.start true (Parsed scenario_config))
                 (Supervisor.constructor Resolves Resolves) 42)) = Running
  ∧ is_exit (EFork (scenario_worker 3)) = false
  ∧ state (deliver Supervisor.listener
             (run Supervisor.listener es
                (boot (Supervisor.start true (Parsed scenario_config))
                      (Supervisor.constructor Resolves Resolves) 42))
             (EFork (scenario_worker 3))) = Running.
Proof.
  intros es.
  assert (H1 : state (run Supervisor.listener es
                        (boot (Supervisor.start true (Parsed scenario_config))
                              (Supervisor.constructor Resolves Resolves) 42)) = Running)
    by (vm_compute; reflexivity).
  split; [exact H1|]. split; [reflexivity|].
  exact (only_exit_events_end_the_coordinator scenario_config Resolves Resolves 42
           es (EFork (scenario_worker 3)) H1 eq_refl).
Defined.

(** X12.  Once the queue is empty the first ['exit'] event ends the
    coordinator with status 0, whatever the code of the exit and however
    many other workers are still alive: the host keeps them, less the one
    that exited, and the coordinator neither waits for them nor kills
    them. *)
Theorem first_exit_after_drain_ends_all (config : document) (b main : hook)
    (pid : Z) (es : list event) (w : worker) (code : option Z)
    (signal : option string) :
  0 ≤ WORKER_LIMIT config →
  let sys := run Supervisor.listener es
               (boot (Supervisor.start true (Parsed config))
                     (Supervisor.constructor b main) pid) in
  state sys = Running →
  Supervisor._queue (world sys).1 = [] →
  let sys' := deliver Supervisor.listener sys (EExit w code signal) in
  state sys' = Exited 0
  ∧ (world sys').2 = host_step (EExit w code signal) (world sys).2
  ∧ ∃ out, trace sys' = trace sys ++ out ∧ forks out = [] ∧ Kill ∉ out.
Proof.
  intros Hlimit sys Hrun Hq sys'.
  pose proof (SupervisorFacts.run_suspended config b main pid es Hrun)
    as (g & Hg & Hne).
  destruct (SupervisorFacts.run_bounded config b main pid es Hlimit) as [Hb Hl].
  fold sys in Hg, Hb, Hl.
  subst sys'. rewrite deliver_running, settle_eq by done.
  cbn [Supervisor.listener]. rewrite SupervisorFacts.on_exit_run.
  rewrite (SupervisorFacts.createWorker_drained
             (Supervisor.release (id w) (world sys).1) _ g);
    [| cbn; lia | done | done].
  after_pair. cbn [state world trace status_of fst snd].
  split; [done|]. split; [done|]. eexists. split; [done|]. split.
  - by rewrite forks_app, SupervisorFacts.forks_exit_lines.
  - intros [Hin|Hin]%elem_of_app.
    + unfold exit_lines in Hin. destruct (crashed code);
        repeat (apply elem_of_cons in Hin as [Hin|Hin]; [done|]);
        by apply elem_of_nil in Hin.
    + repeat (apply elem_of_cons in Hin as [Hin|Hin]; [done|]);
        by apply elem_of_nil in Hin.
Qed.

Lemma first_exit_after_drain_ends_all_witness :
  let es := [EFork (scenario_worker 1); EFork (scenario_worker 2);
             EExit (scenario_worker 1) (Some 0) None;
             EFork (scenario_worker 3)] in
  let sys := run Supervisor.listener es
               (boot (Supervisor.start true (Parsed scenario_config))
                     (Supervisor.constructor Resolves Resolves) 42) in
  (0 ≤ WORKER_LIMIT scenario_config
   ∧ state sys = Running
   ∧ Supervisor._queue (world sys).1 = [])
  ∧ state (deliver Supervisor.listener sys
             (EExit (scenario_worker 2) (Some 1) None)) = Exited 0.
Proof.
  intros es sys.
  assert (H1 : 0 ≤ WORKER_LIMIT scenario_config) by (cbn; lia).
  assert (H2 : state sys = Running) by (vm_compute; reflexivity).
  assert (H3 : Supervisor._queue (world sys).1 = []) by (vm_compute; reflexivity).
  split; [by repeat split|].
  exact (proj1 (first_exit_after_drain_ends_all scenario_config Resolves Resolves 42
                  es (scenario_worker 2) (Some 1) None H1 H2 H3)).
Defined.

(** ** The two versions of [main.ts]: full pools, and no exit *)

Module RingLife.
Import RingVariant RingSpec RingFacts MainLifeSpec.

Implicit Type s : WorkerCreator.
Implicit Type c : cluster.

Lemma ring_createWorker_saturates s c :
  count_bounded s →
  _runningServicesCount (fields_after (createWorker (s, c)))
  = workerLimit (_configuration s)
  ∨ forking (host_after (createWorker (s, c))) ≠ [].
Proof.
  intros Hb. unfold count_bounded in Hb.
  destruct (decide (_runningServicesCount s < workerLimit (_configuration s)))
    as [Hlt|Hfull].
  - rewrite ring_createWorker_spawn by done. right. after_pair. cbn.
    by destruct (forking c).
  - rewrite ring_createWorker_full by done. left. after_pair. lia.
Qed.

Lemma ring_listener_returns e s c :
  completion_of (listener e (s, c)) = Normal tt.
Proof.
  destruct e as [w|w|w code signal|w m]; cbn [listener]; try done.
  - by rewrite ring_on_fork_run.
  - by rewrite ring_on_exit_run.
Qed.

Lemma ring_deliver_saturated limit sys e :
  ring_saturated limit sys → ring_saturated limit (deliver listener sys e).
Proof.
  intros (Hl & Hb & Hrun).
  destruct (running_or_stopped (state sys)) as [Hs|Hs];
    [|by rewrite deliver_stopped].
  specialize (Hrun Hs). rewrite deliver_running, settle_eq by done.
  destruct sys as [st [s c] tr]. cbn [world state trace fst snd] in *. subst limit.
  destruct (ring_listener_bounded e s (host_step e c) Hb) as [Hb' Hl'].
  unfold ring_saturated. cbn [world state fst snd].
  split; [done|]. split; [unfold count_bounded in Hb'; by rewrite <- Hl'|].
  intros _. destruct e as [w|w|w code signal|w m]; cbn [listener].
  - rewrite ring_on_fork_run. after_pair.
    by apply ring_createWorker_saturates.
  - after_pair. by cbn.
  - rewrite ring_on_exit_run. after_pair.
    apply (ring_createWorker_saturates (set_count (_runningServicesCount s - 1) s)).
    unfold count_bounded in *. cbn. lia.
  - after_pair. by cbn.
Qed.

Lemma ring_boot_saturated config b main pid :
  0 ≤ WORKER_LIMIT config →
  ring_saturated (WORKER_LIMIT config)
    (boot (start true (Parsed config)) (constructor b main) pid).
Proof.
  intros Hlimit. unfold boot. rewrite settle_eq. destruct b as [|e].
  - rewrite ring_start_master_run. cbn zeta. after_pair.
    assert (Hb0 : count_bounded (configured config Resolves main))
      by (unfold count_bounded; cbn; lia).
    destruct (ring_createWorker_bounded _ (cluster0 pid) Hb0) as [Hb Hl].
    unfold ring_saturated. cbn [world state fst snd].
    change (workerLimit (_configuration (configured config Resolves main)))
      with (WORKER_LIMIT config) in Hl.
    split; [done|]. split; [unfold count_bounded in Hb; by rewrite Hl in Hb|].
    intros _.
    by apply (ring_createWorker_saturates (configured config Resolves main)).
  - rewrite ring_start_master_rejected. unfold ring_saturated.
    by destruct e.
Qed.
End RingLife.

Module PoolLife.
Import PoolVariant PoolSpec PoolFacts PoolStepFacts MainLifeSpec.

Implicit Type s : WorkerCreator.
Implicit Type c : cluster.

Lemma pool_createWorker_saturates s c limit :
  workerLimit (_configuration s) = Some limit →
  _runningServicesCount s ≤ limit →
  _runningServicesCount (fields_after (createWorker (s, c))) = limit
  ∨ forking (host_after (createWorker (s, c))) ≠ [].
Proof.
  intros Hl Hb.
  destruct (below (_runningServicesCount s) (workerLimit (_configuration s)))
    eqn:Hlt.
  - rewrite pool_createWorker_spawn by done. right. after_pair. cbn.
    by destruct (forking c).
  - rewrite pool_createWorker_full by done. left. after_pair.
    rewrite Hl in Hlt. cbn in Hlt. apply bool_decide_eq_false in Hlt. lia.
Qed.

Lemma pool_listener_returns e s c :
  completion_of (listener e (s, c)) = Normal tt.
Proof. by destruct (pool_listener_stepped e s c) as (k & H & _). Qed.

Lemma pool_deliver_saturated limit sys e :
  pool_saturated limit sys → pool_saturated limit (deliver listener sys e).
Proof.
  intros (Hl & Hb & Hrun).
  destruct (running_or_stopped (state sys)) as [Hs|Hs];
    [|by rewrite deliver_stopped].
  specialize (Hrun Hs). rewrite deliver_running, settle_eq by done.
  destruct sys as [st [s c] tr]. cbn [world state trace fst snd] in *.
  assert (Hb0 : count_bounded s) by (unfold count_bounded; by rewrite Hl).
  destruct (pool_listener_bounded e s (host_step e c) Hb0) as [Hb' Hl'].
  unfold pool_saturated. cbn [world state fst snd].
  split; [by rewrite Hl'|].
  split; [unfold count_bounded in Hb'; by rewrite Hl', Hl in Hb'|].
  intros _. destruct e as [w|w|w code signal|w m]; cbn [listener].
  - rewrite pool_on_fork_run. after_pair.
    by apply pool_createWorker_saturates.
  - after_pair. by cbn.
  - rewrite pool_on_exit_run. after_pair.
    apply (pool_createWorker_saturates (set_count (_runningServicesCount s - 1) s));
      [done | cbn; lia].
  - rewrite message_listener_run. after_pair. by cbn.
Qed.

(** A rejection of [beforeStart] ends the process. *)
Lemma pool_start_master_rejected cpus config main c e :
  default Resolves (beforeStart config) = Rejects e →
  completion_of (start true (mkSelf 0 (defaults cpus config) main, c)) ≠ Normal tt.
Proof.
  intros He. unfold start, createMasterProcess. unfold_M.
  cbn -[createWorker errorHandler String.append defaults].
  change (beforeStart (defaults cpus config))
    with (Some (default Resolves (beforeStart config))).
  rewrite He. cbn -[createWorker errorHandler String.append defaults].
  match goal with
  | |- context [errorHandler e ?σ] =>
      destruct (errorHandler e σ) as [[[[]|e'|code] [s' c']] out]
  end; by cbn.
Qed.

Lemma pool_boot_state cpus main configuration pid :
  let config := default (defaultConfig cpus) configuration in
  let sys := boot (construct_and_start cpus true)
                  (constructor cpus main configuration) pid in
  state sys = Running ↔ default Resolves (beforeStart config) = Resolves.
Proof.
  intros config sys. split.
  - intros Hrun. destruct (default Resolves (beforeStart config)) as [|e] eqn:He;
      [done|]. exfalso. revert Hrun. subst sys. unfold boot. rewrite settle_eq.
    cbn [state]. unfold construct_and_start.
    set (s0 := constructor cpus main configuration).
    pose proof (pool_setDefaultConfiguration_run cpus s0 (cluster0 pid))
      as (Hf & Hh & Hc & _).
    pose proof (pool_start_master_rejected cpus config main (cluster0 pid) e He)
      as Hrej.
    unfold fields_after, host_after, completion_of in *.
    cbv [mbind M_bind bind].
    destruct (setDefaultConfiguration cpus (s0, cluster0 pid)) as [[r [s' c']] out].
    cbn in Hf, Hh, Hc. subst r s' c'.
    change (set_configuration (defaults cpus (_configuration s0)) s0)
      with (mkSelf 0 (defaults cpus config) main).
    destruct (start true _) as [[[[]|e'|code] [s' c']] out']; by cbn in *.
  - intros He. destruct (pool_boot_stepped cpus main configuration pid)
      as (k & _ & _ & _ & _ & _ & H). by destruct (H He).
Qed.

Lemma pool_boot_saturated cpus main configuration pid l :
  workerLimit (default (defaultConfig cpus) configuration) = Some l →
  0 ≤ l →
  pool_saturated (Z.min l (Z.of_nat cpus))
    (boot (construct_and_start cpus true) (constructor cpus main configuration) pid).
Proof.
  intros Hl Hpos.
  assert (Hclamp : clamp cpus (workerLimit (default (defaultConfig cpus) configuration))
                   = Some (Z.min l (Z.of_nat cpus))).
  { rewrite Hl. unfold clamp. f_equal. case_bool_decide; lia. }
  destruct (pool_boot_bounded cpus main configuration pid) as [Hb Hlim].
  { intros l' Hl'. rewrite Hl in Hl'. by simplify_eq. }
  cbn zeta in Hb, Hlim. rewrite Hclamp in Hlim.
  unfold count_bounded in Hb. rewrite Hlim in Hb.
  split; [done|]. split; [done|]. intros Hrun.
  apply pool_boot_state in Hrun.
  destruct (pool_boot_stepped cpus main configuration pid)
    as (k & Hh & Hc & _ & _ & _ & H). cbn zeta in *.
  destruct (H Hrun) as [_ Hk]. rewrite Hclamp in Hk. cbn in Hk.
  rewrite Hh, Hc. destruct k.
  - right. by cbn.
  - left. symmetry in Hk. apply bool_decide_eq_false in Hk. lia.
Qed.

Lemma pool_createWorker_capped cpus s c :
  capped cpus s → capped cpus (fields_after (createWorker (s, c))).
Proof.
  intros [Hc Hl].
  destruct (below (_runningServicesCount s) (workerLimit (_configuration s)))
    eqn:Hlt; [|by rewrite pool_createWorker_full].
  rewrite pool_createWorker_spawn by done. after_pair. split; [|done].
  unfold below in Hlt. cbn.
  destruct (workerLimit (_configuration s)); [|done].
  apply bool_decide_eq_true in Hlt. lia.
Qed.

Lemma pool_listener_capped cpus e s c :
  capped cpus s → capped cpus (fields_after (listener e (s, c))).
Proof.
  intros [Hc Hl]. destruct e as [w|w|w code signal|w m]; cbn [listener].
  - rewrite pool_on_fork_run. after_pair. by apply pool_createWorker_capped.
  - done.
  - rewrite pool_on_exit_run. after_pair. apply pool_createWorker_capped.
    split; [cbn; lia | done].
  - by rewrite message_listener_run.
Qed.

Lemma pool_start_master_capped cpus config n main c :
  let s := mkSelf n (defaults cpus config) main in
  capped cpus s → capped cpus (fields_after (start true (s, c))).
Proof.
  intros s Hb. unfold start, createMasterProcess. unfold_M.
  cbn -[createWorker errorHandler String.append].
  destruct (default Resolves (beforeStart config)) as [|e].
  - pose proof (pool_createWorker_returns s c) as Hr.
    pose proof (pool_createWorker_capped cpus s c Hb) as Hc.
    unfold fields_after, completion_of in *.
    change (createWorker _) with (createWorker (s, c)).
    destruct (createWorker (s, c)) as [[r [s' c']] out]. cbn in Hr. by subst r.
  - unfold fields_after.
    match goal with
    | |- context [errorHandler e ?σ] =>
        pose proof (errorHandler_frame e σ) as (Hf & _ & _);
        unfold fields_after in Hf;
        destruct (errorHandler e σ) as [[[[]|e'|code] [s' c']] out]
    end; cbn in Hf; by subst s'.
Qed.

Lemma pool_boot_capped cpus main configuration pid :
  capped cpus
    (world (boot (construct_and_start cpus true)
                 (constructor cpus main configuration) pid)).1.
Proof.
  unfold boot. rewrite settle_eq. cbn [world fst].
  unfold construct_and_start.
  set (s0 := constructor cpus main configuration).
  pose proof (pool_setDefaultConfiguration_run cpus s0 (cluster0 pid))
    as (Hf & Hh & Hc & _).
  unfold fields_after, host_after, completion_of in *.
  cbv [mbind M_bind bind].
  destruct (setDefaultConfiguration cpus (s0, cluster0 pid)) as [[r [s' c']] out].
  cbn in Hf, Hh, Hc. subst r s' c'.
  pose proof (pool_start_master_capped cpus (_configuration s0) 0 main (cluster0 pid))
    as Hstart.
  cbn zeta in Hstart. unfold fields_after in Hstart.
  change (set_configuration (defaults cpus (_configuration s0)) s0)
    with (mkSelf 0 (defaults cpus (_configuration s0)) main).
  destruct (start true _) as [[r [s' c']] out'] eqn:E.
  apply Hstart. unfold capped, defaults, clamp. cbn. split; [lia|].
  destruct (workerLimit (default (defaultConfig cpus) configuration)) as [l|];
    [|done].
  case_bool_decide; lia.
Qed.
End PoolLife.

(** X13.  The two versions of [main.ts] refill their pools: under a
    non-negative limit, in every state a run reaches in which the
    coordinator is running, the count is at the limit (in the second
    version the smaller of the configured limit and the number of CPUs), or
    a worker has been forked whose ['fork'] event is still to come. *)
Theorem main_pools_kept_full :
  (∀ config b main pid es,
     0 ≤ WORKER_LIMIT config →
     let sys := run RingVariant.listener es
                  (boot (RingVariant.start true (Parsed config))
                        (RingVariant.constructor b main) pid) in
     state sys = Running →
     RingVariant._runningServicesCount (world sys).1 = WORKER_LIMIT config
     ∨ forking (world sys).2 ≠ [])
  ∧ (∀ cpus main configuration pid es l,
       PoolVariant.workerLimit
         (default (PoolVariant.defaultConfig cpus) configuration) = Some l →
       0 ≤ l →
       let sys := run PoolVariant.listener es
                    (boot (PoolVariant.construct_and_start cpus true)
                          (PoolVariant.constructor cpus main configuration) pid) in
       state sys = Running →
       PoolVariant._runningServicesCount (world sys).1 = Z.min l (Z.of_nat cpus)
       ∨ forking (world sys).2 ≠ []).
Proof.
  split.
  - intros config b main pid es Hlimit sys Hrun.
    assert (H : MainLifeSpec.ring_saturated (WORKER_LIMIT config) sys).
    { apply (run_invariant RingVariant.listener
               (MainLifeSpec.ring_saturated (WORKER_LIMIT config))).
      - intros sys' e. apply RingLife.ring_deliver_saturated.
      - by apply RingLife.ring_boot_saturated. }
    destruct H as (_ & _ & H). by apply H.
  - intros cpus main configuration pid es l Hl Hpos sys Hrun.
    assert (H : MainLifeSpec.pool_saturated (Z.min l (Z.of_nat cpus)) sys).
    { apply (run_invariant PoolVariant.listener
               (MainLifeSpec.pool_saturated (Z.min l (Z.of_nat cpus)))).
      - intros sys' e. apply PoolLife.pool_deliver_saturated.
      - by apply PoolLife.pool_boot_saturated. }
    destruct H as (_ & _ & H). by apply H.
Qed.

Lemma main_pools_kept_full_witness :
  let configuration :=
    Some (PoolVariant.mkConfig (Some 9) (Some [("Testing", VStr "yeah-worked")])
                               None None None) in
  let es := [EFork (scenario_worker 1); EOnline (scenario_worker 1);
             EFork (scenario_worker 2); EExit (scenario_worker 1) (Some 0) None] in
  let sys := run PoolVariant.listener es
               (boot (PoolVariant.construct_and_start 2 true)
                     (PoolVariant.constructor 2 Resolves configuration) 42) in
  (PoolVariant.workerLimit (default (PoolVariant.defaultConfig 2) configuration)
   = Some 9
   ∧ 0 ≤ 9 ∧ state sys = Running)
  ∧ (PoolVariant._runningServicesCount (world sys).1 = Z.min 9 (Z.of_nat 2)
     ∨ forking (world sys).2 ≠ []).
Proof.
  intros configuration es sys.
  assert (H1 : PoolVariant.workerLimit
                 (default (PoolVariant.defaultConfig 2) configuration) = Some 9)
    by reflexivity.
  assert (H2 : 0 ≤ 9) by lia.
  assert (H3 : state sys = Running) by (vm_compute; reflexivity).
  split; [by repeat split|].
  exact (proj2 main_pools_kept_full 2%nat Resolves configuration 42 es 9 H1 H2 H3).
Defined.

(** X14.  The second version of [main.ts] never has more workers than
    CPUs, whatever limit the configuration asks for (a negative one or
    none at all included): the count is at most [os.cpus().length] in
    every run, and along every schedule the host can produce so is the
    number of workers alive. *)
Theorem live_workers_at_most_cpus (cpus : nat) (main : hook)
    (configuration : option PoolVariant.ClusterManagerConfig) (pid : Z)
    (es : list event) :
  let sys0 := boot (PoolVariant.construct_and_start cpus true)
                   (PoolVariant.constructor cpus main configuration) pid in
  let sys := run PoolVariant.listener es sys0 in
  PoolVariant._runningServicesCount (world sys).1 ≤ Z.of_nat cpus
  ∧ (valid PoolVariant.listener es sys0 = true →
     (length (forking (world sys).2) + length (created (world sys).2)
      + length (online (world sys).2) ≤ cpus)%nat).
Proof.
  intros sys0 sys.
  assert (Hcap : MainLifeSpec.capped cpus (world sys).1).
  { apply (run_invariant PoolVariant.listener
             (λ sys, MainLifeSpec.capped cpus (world sys).1)).
    - intros sys' e Hc. destruct (running_or_stopped (state sys')) as [Hs|Hs];
        [|by rewrite deliver_stopped].
      rewrite deliver_running, settle_eq by done. cbn [world fst].
      by apply PoolLife.pool_listener_capped.
    - apply PoolLife.pool_boot_capped. }
  destruct Hcap as [Hc _]. split; [done|]. intros Hvalid.
  destruct (valid_accounted PoolVariant.listener PoolVariant._runningServicesCount
              PoolStepFacts.pool_listener_accounts es sys0 Hvalid
              (PoolStepFacts.pool_boot_accounted cpus main configuration pid))
    as [_ Hcount].
  fold sys in Hcount. rewrite Hcount in Hc. unfold SupervisorSpec.alive in Hc.
  rewrite !length_app in Hc. lia.
Qed.

Lemma live_workers_at_most_cpus_witness :
  let configuration :=
    Some (PoolVariant.mkConfig (Some 9) (Some [("Testing", VStr "yeah-worked")])
                               None None None) in
  let es := [EFork (scenario_worker 1); EOnline (scenario_worker 1);
             EFork (scenario_worker 2); EExit (scenario_worker 1) (Some 0) None] in
  let sys0 := boot (PoolVariant.construct_and_start 2 true)
                   (PoolVariant.constructor 2 Resolves configuration) 42 in
  let sys := run PoolVariant.listener es sys0 in
  valid PoolVariant.listener es sys0 = true
  ∧ (length (forking (world sys).2) + length (created (world sys).2)
     + length (online (world sys).2) ≤ 2)%nat.
Proof.
  intros configuration es sys0 sys.
  assert (H : valid PoolVariant.listener es sys0 = true) by (vm_compute; reflexivity).
  split; [exact H|].
  exact (proj2 (live_workers_at_most_cpus 2 Resolves configuration 42 es) H).
Defined.

(** X15.  The coordinators of the two versions of [main.ts] never end by
    themselves: once [start] has returned, no event makes a listener exit
    the process or throw, whatever the configuration and the events. *)
Theorem main_coordinators_never_exit :
  (∀ config b main pid es,
     let sys0 := boot (RingVariant.start true (Parsed config))
                      (RingVariant.constructor b main) pid in
     state sys0 = Running → state (run RingVariant.listener es sys0) = Running)
  ∧ (∀ cpus main configuration pid es,
       let sys0 := boot (PoolVariant.construct_and_start cpus true)
                        (PoolVariant.constructor cpus main configuration) pid in
       state sys0 = Running → state (run PoolVariant.listener es sys0) = Running).
Proof.
  split.
  - intros config b main pid es sys0.
    apply (run_invariant RingVariant.listener (λ sys, state sys = Running)).
    intros sys e Hs. rewrite deliver_running, settle_eq by done. cbn [state].
    by rewrite RingLife.ring_listener_returns.
  - intros cpus main configuration pid es sys0.
    apply (run_invariant PoolVariant.listener (λ sys, state sys = Running)).
    intros sys e Hs. rewrite deliver_running, settle_eq by done. cbn [state].
    by rewrite PoolLife.pool_listener_returns.
Qed.

Lemma main_coordinators_never_exit_witness :
  let sys0 := boot (RingVariant.start true (Parsed scenario_config))
                   (RingVariant.constructor Resolves Resolves) 42 in
  state sys0 = Running
  ∧ state (run RingVariant.listener scenario_schedule sys0) = Running.
Proof.
  intros sys0.
  assert (H : state sys0 = Running) by (vm_compute; reflexivity).
  split; [exact H|].
  exact (proj1 main_coordinators_never_exit scenario_config Resolves Resolves 42
           scenario_schedule H).
Defined.

(** ** Configurations that fork nothing, worker processes, defaults *)

Section DesertedFacts.
Context {Self : Type}.
Variable listener : event → M Self unit.

(** A host without a worker has no event to deliver. *)
Lemma deserted_schedule (es : list event) (sys : system Self) :
  deserted (world sys).2 → valid listener es sys = true → es = [].
Proof.
  intros (Hf & Hc & Ho). destruct es as [|e es]; [done|]. cbn.
  destruct (state sys); [|done..].
  intros [He _]%andb_true_iff. exfalso. revert He.
  destruct e; cbn; rewrite ?Hf, ?Hc, ?Ho; cbn;
    intros He%bool_decide_eq_true; by apply elem_of_nil in He.
Qed.
End DesertedFacts.

(** The process that [start] leaves under a limit that is not positive:
    nothing was forked, the queue is as the configuration gave it, and the
    host, which has no worker, has no event to deliver. *)
Lemma nonpositive_limit_boot :
  (∀ config main pid,
     WORKER_LIMIT config ≤ 0 →
     let sys0 := boot (Supervisor.start true (Parsed config))
                      (Supervisor.constructor Resolves main) pid in
     state sys0 = Running
     ∧ forks (trace sys0) = []
     ∧ Supervisor._queue (world sys0).1 = VStr <$> QUEUE config
     ∧ ∀ es, valid Supervisor.listener es sys0 = true → es = [])
  ∧ (∀ config main pid,
       WORKER_LIMIT config ≤ 0 →
       let sys0 := boot (RingVariant.start true (Parsed config))
                        (RingVariant.constructor Resolves main) pid in
       state sys0 = Running
       ∧ forks (trace sys0) = []
       ∧ RingVariant._queue (world sys0).1 = VStr <$> QUEUE config
       ∧ ∀ es, valid RingVariant.listener es sys0 = true → es = [])
  ∧ (∀ cpus config main pid,
       (∀ l, PoolVariant.workerLimit config = Some l → l ≤ 0) →
       default Resolves (PoolVariant.beforeStart config) = Resolves →
       let sys0 := boot (PoolVariant.construct_and_start cpus true)
                        (PoolVariant.constructor cpus main (Some config)) pid in
       state sys0 = Running
       ∧ forks (trace sys0) = []
       ∧ ∀ es, valid PoolVariant.listener es sys0 = true → es = []).
Proof.
  split; [|split].
  - intros config main pid Hlimit sys0.
    assert (Hfull : Supervisor.createWorker
                      (SupervisorSpec.configured config Resolves main, cluster0 pid)
                    = (Normal tt,
                       (SupervisorSpec.configured config Resolves main, cluster0 pid),
                       SupervisorSpec.full_lines
                         (SupervisorSpec.configured config Resolves main))).
    { apply SupervisorFacts.createWorker_full. cbn. lia. }
    assert (Hsys : state sys0 = Running ∧ forks (trace sys0) = []
                   ∧ (world sys0).1 = SupervisorSpec.configured config Resolves main
                   ∧ (world sys0).2 = cluster0 pid).
    { subst sys0. unfold boot. rewrite settle_eq.
      rewrite SupervisorFacts.start_master_run. cbn zeta. rewrite Hfull.
      after_pair. cbn [state world trace status_of fst snd].
      split; [done|]. split; [|done]. by rewrite app_nil_l, !forks_app. }
    destruct Hsys as (Hs & Hf & Hw & Hc). rewrite Hw.
    split; [done|]. split; [done|]. split; [done|].
    intros es. apply deserted_schedule. by rewrite Hc.
  - intros config main pid Hlimit sys0.
    assert (Hfull : RingVariant.createWorker
                      (RingSpec.configured config Resolves main, cluster0 pid)
                    = (Normal tt,
                       (RingSpec.configured config Resolves main, cluster0 pid),
                       RingSpec.full_lines (RingSpec.configured config Resolves main))).
    { apply RingFacts.ring_createWorker_full. cbn. lia. }
    assert (Hsys : state sys0 = Running ∧ forks (trace sys0) = []
                   ∧ (world sys0).1 = RingSpec.configured config Resolves main
                   ∧ (world sys0).2 = cluster0 pid).
    { subst sys0. unfold boot. rewrite settle_eq.
      rewrite RingFacts.ring_start_master_run. cbn zeta. rewrite Hfull.
      after_pair. cbn [state world trace status_of fst snd].
      split; [done|]. split; [|done]. by rewrite app_nil_l, !forks_app. }
    destruct Hsys as (Hs & Hf & Hw & Hc). rewrite Hw.
    split; [done|]. split; [done|]. split; [done|].
    intros es. apply deserted_schedule. by rewrite Hc.
  - intros cpus config main pid Hlimit Hhook sys0.
    destruct (PoolStepFacts.pool_boot_stepped cpus main (Some config) pid)
      as (k & Hc & _ & _ & Hf & _ & H). cbn zeta in *. cbn [default] in *.
    change (Datatypes.id config) with config in *.
    destruct (H Hhook) as [Hs Hk]. fold sys0 in Hc, Hf, Hs.
    assert (k = false) as ->.
    { rewrite Hk. unfold PoolSpec.clamp, PoolVariant.below.
      destruct (PoolVariant.workerLimit config) as [l|]; [|done].
      specialize (Hlimit l eq_refl). apply bool_decide_eq_false.
      case_bool_decide; lia. }
    split; [done|]. split; [done|].
    intros es. apply deserted_schedule. by rewrite Hc.
Qed.

(** X16.  Under a limit that is not positive the coordinator never
    hands a job to a worker: [start] returns without a call of
    [process.exit] and without an exception, it has forked nothing, the
    queue is as the configuration gave it, and the host is left without a
    worker, so that no event of the cluster can follow and no listener is
    ever called.  So it is with no limit at all in the second version of
    [main.ts], where a configuration object without [workerLimit] leaves
    the limit [undefined].  What becomes of the process once [start] has
    returned is the host's business. *)
Theorem nonpositive_limit_forks_nothing :
  (∀ config main pid,
     WORKER_LIMIT config ≤ 0 →
     let r := Supervisor.start true (Parsed config)
                (Supervisor.constructor Resolves main, cluster0 pid) in
     completion_of r = Normal tt
     ∧ forks (output_of r) = []
     ∧ Supervisor._queue (fields_after r) = VStr <$> QUEUE config
     ∧ deserted (host_after r)
     ∧ ∀ e, enabled e (host_after r) = false)
  ∧ (∀ config main pid,
       WORKER_LIMIT config ≤ 0 →
       let r := RingVariant.start true (Parsed config)
                  (RingVariant.constructor Resolves main, cluster0 pid) in
       completion_of r = Normal tt
       ∧ forks (output_of r) = []
       ∧ RingVariant._queue (fields_after r) = VStr <$> QUEUE config
       ∧ deserted (host_after r)
       ∧ ∀ e, enabled e (host_after r) = false)
  ∧ (∀ cpus config main pid,
       (∀ l, PoolVariant.workerLimit config = Some l → l ≤ 0) →
       default Resolves (PoolVariant.beforeStart config) = Resolves →
       let r := PoolVariant.construct_and_start cpus true
                  (PoolVariant.constructor cpus main (Some config), cluster0 pid) in
       completion_of r = Normal tt
       ∧ forks (output_of r) = []
       ∧ deserted (host_after r)
       ∧ ∀ e, enabled e (host_after r) = false).
Proof.
  assert (Hnormal : ∀ r : completion unit, status_of r = Running → r = Normal tt)
    by (by intros [[]| |]).
  assert (Hquiet : ∀ c, deserted c → deserted c ∧ ∀ e, enabled e c = false).
  { intros c (Hf & Hc & Ho). split; [done|].
    intros e. destruct e; cbn; rewrite ?Hf, ?Hc, ?Ho; cbn;
      apply bool_decide_eq_false, not_elem_of_nil. }
  destruct nonpositive_limit_boot as (Hsup & Hring & Hpool).
  split; [|split].
  - intros config main pid Hlimit r.
    destruct (Hsup config main pid Hlimit) as (Hs & Hf & Hq & _).
    unfold boot in Hs, Hf, Hq. fold r in Hs, Hf, Hq.
    split; [apply Hnormal; by rewrite settle_eq in Hs|].
    split; [by rewrite settle_eq in Hf|].
    split; [by rewrite settle_eq in Hq|]. apply Hquiet.
    subst r. rewrite SupervisorFacts.start_master_run. cbn zeta.
    by rewrite SupervisorFacts.createWorker_full by (cbn; lia).
  - intros config main pid Hlimit r.
    destruct (Hring config main pid Hlimit) as (Hs & Hf & Hq & _).
    unfold boot in Hs, Hf, Hq. fold r in Hs, Hf, Hq.
    split; [apply Hnormal; by rewrite settle_eq in Hs|].
    split; [by rewrite settle_eq in Hf|].
    split; [by rewrite settle_eq in Hq|]. apply Hquiet.
    subst r. rewrite RingFacts.ring_start_master_run. cbn zeta.
    by rewrite RingFacts.ring_createWorker_full by (cbn; lia).
  - intros cpus config main pid Hlimit Hhook r.
    destruct (Hpool cpus config main pid Hlimit Hhook) as (Hs & Hf & _).
    unfold boot in Hs, Hf. fold r in Hs, Hf.
    split; [apply Hnormal; by rewrite settle_eq in Hs|].
    split; [by rewrite settle_eq in Hf|]. apply Hquiet.
    destruct (PoolStepFacts.pool_boot_stepped cpus main (Some config) pid)
      as (k & Hc & _ & _ & Hfk & _). cbn zeta in Hc, Hfk.
    unfold boot in Hc, Hfk. fold r in Hc, Hfk. rewrite settle_eq in Hc, Hfk.
    cbn [world trace snd] in Hc, Hfk. rewrite Hc.
    rewrite settle_eq in Hf. cbn [trace] in Hf. rewrite Hf in Hfk.
    by destruct k.
Qed.

Lemma nonpositive_limit_forks_nothing_witness :
  let config := mkDocument ["j1"; "j2"] [] None [] false 0 in
  let r := Supervisor.start true (Parsed config)
             (Supervisor.constructor Resolves Resolves, cluster0 42) in
  WORKER_LIMIT config ≤ 0
  ∧ completion_of r = Normal tt
  ∧ forks (output_of r) = []
  ∧ Supervisor._queue (fields_after r) = VStr <$> QUEUE config.
Proof.
  intros config r.
  assert (H : WORKER_LIMIT config ≤ 0) by (cbn; lia).
  split; [exact H|].
  destruct (proj1 nonpositive_limit_forks_nothing config Resolves 42 H)
    as (H1 & H2 & H3 & _).
  by repeat split.
Defined.

(** X17.  In a worker process [start] reads no configuration and forks
    nothing: in the three versions it runs the job and then kills the
    worker; a rejection of the job is reported by [errorHandler] and ends
    the process with status 1 without the kill, except a rejection with
    [null], on which [errorHandler] throws.  The fields and the host are
    as they were, whatever the configuration file holds. *)
Theorem worker_process_start :
  (∀ file s c,
     Supervisor.start false file (s, c) = worker_outcome (Supervisor.main s) (s, c))
  ∧ (∀ file s c,
       RingVariant.start false file (s, c)
       = worker_outcome (RingVariant.main s) (s, c))
  ∧ (∀ s c,
       PoolVariant.start false (s, c) = worker_outcome (PoolVariant.main s) (s, c)).
Proof.
  assert (H : ∀ Self (main : Self → hook) (s : Self) (c : cluster),
            try_catch (try_catch (s ← get_self; await (main s);; emit Kill)
                                 (λ e, throw e))
                      (λ error, errorHandler error;; process_exit 1) (s, c)
            = worker_outcome (main s) (s, c)).
  { intros Self main s c. unfold worker_outcome. unfold_M.
    destruct (main s) as [|e]; [reflexivity|].
    assert (Hcase : e = VNull ∨ e ≠ VNull) by (destruct e; first [by left | by right]).
    destruct Hcase as [->|He]; [reflexivity|].
    rewrite (errorHandler_report e (s, c) He). cbn [app].
    rewrite app_nil_r. by destruct e. }
  split; [|split]; intros; apply H.
Qed.

(** X18.  [setDefaultConfiguration] fills every field the configuration
    leaves out except the limit: a field that is given is kept, the
    environment defaults to [CLUSTER: 'true'], and the limit is the
    smaller of the one given and the number of CPUs, or stays [undefined];
    the warning is printed exactly when the limit was above the number of
    CPUs, and a second call changes nothing and prints nothing. *)
Theorem setDefaultConfiguration_fills (cpus : nat) (s : PoolVariant.WorkerCreator)
    (c : cluster) :
  let r := PoolVariant.setDefaultConfiguration cpus (s, c) in
  let config := PoolVariant._configuration s in
  let config' := PoolVariant._configuration (fields_after r) in
  PoolVariant.workerLimit config'
  = (λ l, Z.min l (Z.of_nat cpus)) <$> PoolVariant.workerLimit config
  ∧ PoolVariant.env config'
    = Some (default [("CLUSTER", VStr "true")] (PoolVariant.env config))
  ∧ PoolVariant.args config' = Some (default [""] (PoolVariant.args config))
  ∧ PoolVariant.silentMode config'
    = Some (default false (PoolVariant.silentMode config))
  ∧ PoolVariant.beforeStart config'
    = Some (default Resolves (PoolVariant.beforeStart config))
  ∧ PoolVariant._runningServicesCount (fields_after r)
    = PoolVariant._runningServicesCount s
  ∧ completion_of r = Normal tt
  ∧ (output_of r ≠ [] ↔
     ∃ l, PoolVariant.workerLimit config = Some l ∧ Z.of_nat cpus < l)
  ∧ PoolVariant.setDefaultConfiguration cpus (fields_after r, host_after r)
    = (Normal tt, (fields_after r, host_after r), []).
Proof.
  intros r config config'. subst r config config'.
  unfold PoolVariant.setDefaultConfiguration, PoolVariant.cpusChecker. unfold_M.
  destruct s as [n [[l|] env args silent hook] main];
    cbn [PoolVariant._configuration PoolVariant.workerLimit].
  - case_bool_decide as Hl; after_pair; cbn.
    + rewrite bool_decide_false by lia. rewrite Z.min_r by lia.
      repeat split; try done. intros _. exists l. split; [done | lia].
    + rewrite bool_decide_false by lia. rewrite Z.min_l by lia.
      repeat split; try done. intros (l' & Hl' & Hlt). simplify_eq. lia.
  - after_pair. cbn. repeat split; try done. by intros (l' & Hl' & _).
Qed.

(** ** The environment of the pool's workers, and a rejected [beforeStart] *)

(** X19.  In the second version of [main.ts] every worker is forked with
    the same environment: the [env] of the configuration, [CLUSTER: 'true']
    when the configuration has none, and the empty environment of
    [defaultConfig] when no configuration is passed at all; in every run,
    whatever the events. *)
Theorem pool_workers_share_env (cpus : nat) (main : hook)
    (configuration : option PoolVariant.ClusterManagerConfig) (pid : Z)
    (es : list event) :
  let sys := run PoolVariant.listener es
               (boot (PoolVariant.construct_and_start cpus true)
                     (PoolVariant.constructor cpus main configuration) pid) in
  Forall (λ env,
            env = match configuration with
                  | Some config =>
                      default [("CLUSTER", VStr "true")] (PoolVariant.env config)
                  | None => []
                  end)
         (fork_envs (trace sys)).
Proof.
  intros sys.
  set (config := default (PoolVariant.defaultConfig cpus) configuration).
  set (env0 := default [("CLUSTER", VStr "true")] (PoolVariant.env config)).
  assert (Henv : match configuration with
                 | Some config =>
                     default [("CLUSTER", VStr "true")] (PoolVariant.env config)
                 | None => []
                 end = env0) by (by destruct configuration).
  rewrite Henv. clear Henv.
  cut (PoolVariant._configuration (world sys).1 = PoolSpec.defaults cpus config
       ∧ Forall (λ env, env = env0) (fork_envs (trace sys))); [by intros [_ H]|].
  apply (run_invariant PoolVariant.listener
           (λ sys, PoolVariant._configuration (world sys).1
                   = PoolSpec.defaults cpus config
                   ∧ Forall (λ env, env = env0) (fork_envs (trace sys)))).
  - intros sys' e [Hcfg Htr].
    destruct (running_or_stopped (state sys')) as [Hs|Hs];
      [|by rewrite deliver_stopped].
    rewrite deliver_running, settle_eq by done. cbn [world trace fst].
    destruct (PoolStepFacts.pool_listener_stepped e (world sys').1
                (host_step e (world sys').2))
      as (k & _ & _ & _ & Hcfg' & Hf & _).
    split; [by rewrite Hcfg'|].
    unfold fork_envs in *. rewrite omap_app. apply Forall_app. split; [done|].
    fold (fork_envs (output_of (PoolVariant.listener e
                                  ((world sys').1, host_step e (world sys').2)))).
    rewrite <- fork_envs_forks, Hf, Hcfg. destruct k; [|constructor].
    cbn. by constructor.
  - destruct (PoolStepFacts.pool_boot_stepped cpus main configuration pid)
      as (k & _ & _ & Hcfg & Hf & _). cbn zeta in *.
    split; [done|]. rewrite <- fork_envs_forks, Hf. destruct k; [|constructor].
    cbn. by constructor.
Qed.

Lemma report_quiet (error : value) :
  Forall (λ x, quiet x = true) (report_by_typeof error).
Proof.
  destruct error as [| |[]| | | |repr es]; try by repeat constructor.
  cbn. induction es as [|[k v] es IH]; [constructor|].
  cbn [flat_map]. apply Forall_app. split; [by repeat constructor | done].
Qed.

Lemma errorHandler_quiet {Self} (error : value) (σ : Self * cluster) :
  Forall (λ x, quiet x = true) (output_of (errorHandler error σ)).
Proof.
  assert (Hcase : error = VNull ∨ error ≠ VNull)
    by (destruct error; first [by left | by right]).
  destruct Hcase as [->|He]; [rewrite errorHandler_null; constructor|].
  rewrite errorHandler_report by done. apply report_quiet.
Qed.

Module PoolRejection.
Import PoolVariant PoolSpec PoolFacts.

Lemma pool_start_rejected_quiet cpus config main c e :
  default Resolves (beforeStart config) = Rejects e →
  let r := start true (mkSelf 0 (defaults cpus config) main, c) in
  completion_of r ≠ Normal tt
  ∧ host_after r = c
  ∧ Forall (λ x, quiet x = true) (output_of r).
Proof.
  intros He. unfold start, createMasterProcess. unfold_M.
  cbn -[createWorker errorHandler String.append defaults].
  change (beforeStart (defaults cpus config))
    with (Some (default Resolves (beforeStart config))).
  rewrite He. cbn -[createWorker errorHandler String.append defaults].
  match goal with
  | |- context [errorHandler e ?σ] =>
      pose proof (errorHandler_frame e σ) as (_ & Hh & _);
      pose proof (errorHandler_quiet e σ) as Hq;
      unfold host_after, output_of in Hh, Hq;
      destruct (errorHandler e σ) as [[[[]|e'|code] [s' c']] out]
  end; cbn in *; subst; rewrite ?app_nil_r; repeat split; try done;
    by constructor.
Qed.

Lemma pool_boot_rejected_quiet cpus main configuration pid e :
  default Resolves (beforeStart (default (defaultConfig cpus) configuration))
  = Rejects e →
  let sys0 := boot (construct_and_start cpus true)
                   (constructor cpus main configuration) pid in
  state sys0 ≠ Running
  ∧ (world sys0).2 = cluster0 pid
  ∧ Forall (λ x, quiet x = true) (trace sys0).
Proof.
  intros He sys0. subst sys0. unfold boot. rewrite settle_eq.
  cbn [state world trace snd]. unfold construct_and_start.
  set (s0 := constructor cpus main configuration).
  pose proof (pool_setDefaultConfiguration_run cpus s0 (cluster0 pid))
    as (Hf & Hh & Hc & _).
  assert (Hq : Forall (λ x, quiet x = true)
                 (output_of (setDefaultConfiguration cpus (s0, cluster0 pid)))).
  { unfold setDefaultConfiguration, cpusChecker. unfold_M.
    destruct (workerLimit (_configuration s0)) as [l|]; [|constructor].
    destruct (bool_decide (l > Z.of_nat cpus)); by repeat constructor. }
  pose proof (pool_start_rejected_quiet cpus
                (default (defaultConfig cpus) configuration) main (cluster0 pid) e He)
    as (Hr1 & Hr2 & Hr3). cbn zeta in *.
  unfold fields_after, host_after, completion_of, output_of in *.
  cbv [mbind M_bind bind].
  destruct (setDefaultConfiguration cpus (s0, cluster0 pid)) as [[r [s' c']] out].
  cbn in Hf, Hh, Hc, Hq. subst r s' c'.
  change (set_configuration (defaults cpus (_configuration s0)) s0)
    with (mkSelf 0 (defaults cpus (default (defaultConfig cpus) configuration)) main).
  destruct (start true _) as [[[[]|e'|code] [s' c']] out']; cbn in *;
    repeat split; try done; by apply Forall_app.
Qed.
End PoolRejection.

(** X20.  [beforeStart] is awaited before anything is forked: when it
    rejects, in the three versions, [start] does not return normally, the
    host has no worker, and all the process has done is to call
    [setupMaster] and to log; no worker is forked, no listener is
    registered, nothing is killed. *)
Theorem rejected_beforeStart_forks_nothing (e : value) (main : hook) (pid : Z) :
  (∀ config,
     let sys0 := boot (Supervisor.start true (Parsed config))
                      (Supervisor.constructor (Rejects e) main) pid in
     state sys0 ≠ Running ∧ (world sys0).2 = cluster0 pid
     ∧ Forall (λ x, quiet x = true) (trace sys0))
  ∧ (∀ config,
       let sys0 := boot (RingVariant.start true (Parsed config))
                        (RingVariant.constructor (Rejects e) main) pid in
       state sys0 ≠ Running ∧ (world sys0).2 = cluster0 pid
       ∧ Forall (λ x, quiet x = true) (trace sys0))
  ∧ (∀ cpus configuration,
       default Resolves
         (PoolVariant.beforeStart
            (default (PoolVariant.defaultConfig cpus) configuration)) = Rejects e →
       let sys0 := boot (PoolVariant.construct_and_start cpus true)
                        (PoolVariant.constructor cpus main configuration) pid in
       state sys0 ≠ Running ∧ (world sys0).2 = cluster0 pid
       ∧ Forall (λ x, quiet x = true) (trace sys0)).
Proof.
  pose proof (report_quiet e) as Hq.
  split; [|split].
  - intros config sys0. subst sys0. unfold boot. rewrite settle_eq.
    rewrite SupervisorFacts.start_master_rejected.
    destruct e; cbn [state world trace status_of snd app];
      repeat split; try done; by repeat constructor.
  - intros config sys0. subst sys0. unfold boot. rewrite settle_eq.
    rewrite RingFacts.ring_start_master_rejected.
    destruct e; cbn [state world trace status_of snd app];
      repeat split; try done; by repeat constructor.
  - intros cpus configuration He.
    by apply (PoolRejection.pool_boot_rejected_quiet cpus main configuration pid e).
Qed.

Lemma rejected_beforeStart_forks_nothing_witness :
  let configuration :=
    Some (PoolVariant.mkConfig (Some 2) None None None
                               (Some (Rejects (VStr "no database")))) in
  let sys0 := boot (PoolVariant.construct_and_start 4 true)
                   (PoolVariant.constructor 4 Resolves configuration) 42 in
  default Resolves
    (PoolVariant.beforeStart (default (PoolVariant.defaultConfig 4) configuration))
  = Rejects (VStr "no database")
  ∧ state sys0 ≠ Running ∧ (world sys0).2 = cluster0 42
  ∧ Forall (λ x, quiet x = true) (trace sys0).
Proof.
  intros configuration sys0.
  assert (H : default Resolves
                (PoolVariant.beforeStart
                   (default (PoolVariant.defaultConfig 4) configuration))
              = Rejects (VStr "no database")) by reflexivity.
  split; [exact H|].
  exact (proj2 (proj2 (rejected_beforeStart_forks_nothing (VStr "no database")
                         Resolves 42)) 4%nat configuration H).
Defined.
